(** * ulp-1-5: the two export scripts [txtexport.py] and [txtexport_onefile.py]

    A shallow embedding of the two scripts and of the part of the Python
    runtime they call, with the properties of the exporter stated and proved
    over it.

    Model of the host.  The scripts address a Windows machine (the base
    directory is a [c:\...] literal and relative paths are normalised with
    [replace("\\", "/")]), so paths follow CPython 3.11's [ntpath]:
    - a Python [str] is a list of code points ([pystr]); the content of a file
      is a list of bytes;
    - the file system is the tree of volume [c:]; a directory lists its
      entries in the order [os.scandir] reports them; a regular file carries
      its bytes and whether it can be opened for reading;
    - a path string names a node when it has the drive [c:] (or [C:]), is
      rooted, and its components, read lexically ([.] and [..] folded as
      [ntpath.normpath] does), lead to the node; names are compared exactly;
      other volumes, UNC shares and device paths hold nothing;
    - Python exceptions are values of [exn]; an action is a function from the
      state to the new state and either an exception or a result, so the files
      written before an exception stay written. *)

From Stdlib Require Import Ascii String.
From Stdlib Require Import List NArith Bool Lia Arith.
From Stdlib.Strings Require Import Byte.
Import ListNotations.

Set Implicit Arguments.

(** ** Python text *)

Module Text.
Local Open Scope N_scope.

(** A [str]: its code points. *)
Abbreviation pystr := (list N) (only parsing).

(** A string literal of the source. *)
Definition lit (s : string) : pystr := List.map N_of_ascii (list_ascii_of_string s).

Definition LF : N := 10.
Definition CR : N := 13.
Definition SLASH : N := 47.
Definition BACKSLASH : N := 92.
Definition COLON : N := 58.

Fixpoint str_eqb (a b : pystr) : bool :=
  match a, b with
  | [], [] => true
  | x :: a', y :: b' => (x =? y) && str_eqb a' b'
  | _, _ => false
  end.

(** [s.lstrip("/")] *)
Fixpoint lstrip_slash (s : pystr) : pystr :=
  match s with
  | c :: t => if c =? SLASH then lstrip_slash t else s
  | [] => []
  end.

(** [s.replace("\\", "/")] *)
Definition replace_backslash (s : pystr) : pystr :=
  List.map (fun c => if c =? BACKSLASH then SLASH else c) s.

(** [str.isspace] on one code point. *)
Definition isspace (c : N) : bool :=
  ((0x09 <=? c) && (c <=? 0x0D)) || ((0x1C <=? c) && (c <=? 0x20))
  || (c =? 0x85) || (c =? 0xA0) || (c =? 0x1680)
  || ((0x2000 <=? c) && (c <=? 0x200A))
  || (c =? 0x2028) || (c =? 0x2029) || (c =? 0x202F) || (c =? 0x205F)
  || (c =? 0x3000).

Fixpoint lstrip (s : pystr) : pystr :=
  match s with
  | c :: t => if isspace c then lstrip t else s
  | [] => []
  end.

Definition rstrip (s : pystr) : pystr := rev (lstrip (rev s)).

(** [s.strip()]: white space is removed at both ends. *)
Definition strip (s : pystr) : pystr := rstrip (lstrip s).

(** The line boundaries of [str.splitlines]. *)
Definition is_linebreak (c : N) : bool :=
  ((0x0A <=? c) && (c <=? 0x0D)) || ((0x1C <=? c) && (c <=? 0x1E))
  || (c =? 0x85) || (c =? 0x2028) || (c =? 0x2029).

(** [s.splitlines()]: the lines without their boundaries; a CR LF pair is one
    boundary; no empty last line after a final boundary. *)
Fixpoint splitlines (s : pystr) : list pystr :=
  match s with
  | [] => []
  | c :: t =>
      if is_linebreak c then
        [] :: (if c =? CR then
                 match t with
                 | c' :: t' => if c' =? LF then splitlines t' else splitlines t
                 | [] => []
                 end
               else splitlines t)
      else
        match splitlines t with
        | [] => [[c]]
        | l :: ls => (c :: l) :: ls
        end
  end.

(** ["\n".join(l)] *)
Fixpoint join_lines (l : list pystr) : pystr :=
  match l with
  | [] => []
  | [x] => x
  | x :: t => x ++ LF :: join_lines t
  end.

(** Reading in text mode with [newline=None]: CR LF and CR are read as LF. *)
Fixpoint universal_newlines (s : pystr) : pystr :=
  match s with
  | [] => []
  | c :: t =>
      if c =? CR then
        LF :: match t with
              | c' :: t' => if c' =? LF then universal_newlines t' else universal_newlines t
              | [] => []
              end
      else c :: universal_newlines t
  end.

(** Writing in text mode with [newline=None] on Windows: LF is written as
    CR LF. *)
Fixpoint write_newlines (s : pystr) : pystr :=
  match s with
  | [] => []
  | c :: t => if c =? LF then CR :: LF :: write_newlines t else c :: write_newlines t
  end.

(** *** UTF-8 *)

Definition is_cont (b : N) : bool := (0x80 <=? b) && (b <=? 0xBF).

(** The second byte a three-byte lead allows. *)
Definition second3 (b0 b1 : N) : bool :=
  if b0 =? 0xE0 then (0xA0 <=? b1) && (b1 <=? 0xBF)
  else if b0 =? 0xED then (0x80 <=? b1) && (b1 <=? 0x9F)
  else is_cont b1.

(** The second byte a four-byte lead allows. *)
Definition second4 (b0 b1 : N) : bool :=
  if b0 =? 0xF0 then (0x90 <=? b1) && (b1 <=? 0xBF)
  else if b0 =? 0xF4 then (0x80 <=? b1) && (b1 <=? 0x8F)
  else is_cont b1.

(** [bytes.decode("utf-8", errors="ignore")] on byte values: a byte that
    cannot start a sequence is dropped; a sequence that breaks off loses the
    bytes read so far, and decoding resumes at the offending byte. *)
Fixpoint utf8_decode_ignore (bs : list N) : pystr :=
  match bs with
  | [] => []
  | b0 :: t0 =>
    if b0 <? 0x80 then b0 :: utf8_decode_ignore t0
    else if (0xC2 <=? b0) && (b0 <=? 0xDF) then
      match t0 with
      | [] => []
      | b1 :: t1 =>
        if is_cont b1
        then ((b0 - 0xC0) * 64 + (b1 - 0x80)) :: utf8_decode_ignore t1
        else utf8_decode_ignore t0
      end
    else if (0xE0 <=? b0) && (b0 <=? 0xEF) then
      match t0 with
      | [] => []
      | b1 :: t1 =>
        if second3 b0 b1 then
          match t1 with
          | [] => []
          | b2 :: t2 =>
            if is_cont b2
            then ((b0 - 0xE0) * 4096 + (b1 - 0x80) * 64 + (b2 - 0x80))
                   :: utf8_decode_ignore t2
            else utf8_decode_ignore t1
          end
        else utf8_decode_ignore t0
      end
    else if (0xF0 <=? b0) && (b0 <=? 0xF4) then
      match t0 with
      | [] => []
      | b1 :: t1 =>
        if second4 b0 b1 then
          match t1 with
          | [] => []
          | b2 :: t2 =>
            if is_cont b2 then
              match t2 with
              | [] => []
              | b3 :: t3 =>
                if is_cont b3
                then ((b0 - 0xF0) * 262144 + (b1 - 0x80) * 4096
                      + (b2 - 0x80) * 64 + (b3 - 0x80)) :: utf8_decode_ignore t3
                else utf8_decode_ignore t2
              end
            else utf8_decode_ignore t1
          end
        else utf8_decode_ignore t0
      end
    else utf8_decode_ignore t0
  end.

(** The UTF-8 bytes of one scalar value. *)
Definition utf8_encode_char (c : N) : list N :=
  if c <? 0x80 then [c]
  else if c <? 0x800 then [0xC0 + c / 64; 0x80 + c mod 64]
  else if c <? 0x10000 then [0xE0 + c / 4096; 0x80 + (c / 64) mod 64; 0x80 + c mod 64]
  else [0xF0 + c / 262144; 0x80 + (c / 4096) mod 64; 0x80 + (c / 64) mod 64;
        0x80 + c mod 64].

Definition utf8_encode (s : pystr) : list N := flat_map utf8_encode_char s.

Definition byte_of_N (n : N) : byte :=
  match Byte.of_N n with Some b => b | None => x00 end.

(** What [f.read()] returns for a file opened with
    [open(p, "r", encoding="utf-8", errors="ignore")]. *)
Definition read_text_utf8_ignore (data : list byte) : pystr :=
  universal_newlines (utf8_decode_ignore (List.map Byte.to_N data)).

(** The bytes a text file opened with [open(p, "w", encoding="utf-8")] holds
    once [s] was written to it. *)
Definition text_file_bytes (s : pystr) : list byte :=
  List.map byte_of_N (utf8_encode (write_newlines s)).

End Text.
Export Text.

(** ** Paths: the part of [ntpath] the scripts call *)

Module NtPath.
Local Open Scope N_scope.

Definition is_sep (c : N) : bool := (c =? BACKSLASH) || (c =? SLASH).

Definition starts_with_sep (s : pystr) : bool :=
  match s with c :: _ => is_sep c | [] => false end.

Definition ends_with_sep (s : pystr) : bool := starts_with_sep (rev s).

Definition nonempty (s : pystr) : bool :=
  match s with [] => false | _ => true end.

(** Case folding of the letters of ASCII; letters beyond them are left as
    they are. *)
Definition lower_ascii (s : pystr) : pystr :=
  List.map (fun c => if (65 <=? c) && (c <=? 90) then c + 32 else c) s.

(** [ntpath.normcase(s)]: [/] becomes a backslash and letters their lower
    case. *)
Definition normcase (s : pystr) : pystr :=
  lower_ascii (List.map (fun c => if c =? SLASH then BACKSLASH else c) s).

(** [normp.find(sep)] on what is left of the path. *)
Fixpoint find_sep (s : pystr) : option nat :=
  match s with
  | [] => None
  | c :: t => if is_sep c then Some O
              else match find_sep t with Some i => Some (S i) | None => None end
  end.

(** [normp[:8].upper() == "\\\\?\\UNC\\"] *)
Definition has_unc_prefix (p : pystr) : bool :=
  match p with
  | a :: b :: q :: c :: u :: n :: k :: d :: _ =>
      is_sep a && is_sep b && (q =? 63) && is_sep c
      && ((u =? 85) || (u =? 117)) && ((n =? 78) || (n =? 110))
      && ((k =? 67) || (k =? 99)) && is_sep d
  | _ => false
  end.

(** [ntpath.splitdrive] *)
Definition splitdrive (p : pystr) : pystr * pystr :=
  match p with
  | a :: b :: _ =>
      if is_sep a && is_sep b then
        let start := if has_unc_prefix p then 8%nat else 2%nat in
        match find_sep (skipn start p) with
        | None => (p, [])
        | Some i =>
            let index := (start + i)%nat in
            match find_sep (skipn (S index) p) with
            | None => (p, [])
            | Some j =>
                let index2 := (S index + j)%nat in
                (firstn index2 p, skipn index2 p)
            end
        end
      else if b =? COLON then ([a; b], skipn 2 p)
      else ([], p)
  | _ => ([], p)
  end.

(** [ntpath.join(path, p)] *)
Definition join (path p : pystr) : pystr :=
  let '(result_drive, result_path) := splitdrive path in
  let '(p_drive, p_path) := splitdrive p in
  let '(result_drive, result_path) :=
    if starts_with_sep p_path then
      (* the second path is absolute *)
      (if nonempty p_drive || negb (nonempty result_drive) then p_drive else result_drive,
       p_path)
    else if nonempty p_drive && negb (str_eqb p_drive result_drive)
            && negb (str_eqb (lower_ascii p_drive) (lower_ascii result_drive)) then
      (* different drives: the first path is ignored *)
      (p_drive, p_path)
    else
      (* the second path is relative to the first *)
      (if nonempty p_drive && negb (str_eqb p_drive result_drive)
       then p_drive else result_drive,
       (if nonempty result_path && negb (ends_with_sep result_path)
        then result_path ++ [BACKSLASH] else result_path) ++ p_path)
  in
  (* a separator between a UNC drive and a path that is not absolute *)
  if nonempty result_path && negb (starts_with_sep result_path)
     && nonempty result_drive && negb (last result_drive 0 =? COLON)
  then result_drive ++ BACKSLASH :: result_path
  else result_drive ++ result_path.

(** [ntpath.join] of a list of paths, as [relpath] calls it. *)
Definition join_all (l : list pystr) : pystr :=
  match l with
  | [] => []
  | x :: t => fold_left join t x
  end.

Fixpoint drop_while (f : N -> bool) (s : pystr) : pystr :=
  match s with
  | c :: t => if f c then drop_while f t else s
  | [] => []
  end.

Fixpoint take_while (f : N -> bool) (s : pystr) : pystr :=
  match s with
  | c :: t => if f c then c :: take_while f t else []
  | [] => []
  end.

(** [ntpath.split]: the head, without its trailing separators unless it is
    nothing else, and the tail after the last separator. *)
Definition split (p : pystr) : pystr * pystr :=
  let '(d, q) := splitdrive p in
  let tail := rev (take_while (fun c => negb (is_sep c)) (rev q)) in
  let head := rev (drop_while (fun c => negb (is_sep c)) (rev q)) in
  let stripped := rev (drop_while is_sep (rev head)) in
  (d ++ (if nonempty stripped then stripped else head), tail).

Definition basename (p : pystr) : pystr := snd (split p).
Definition dirname (p : pystr) : pystr := fst (split p).

(** The fields between separators: [p.replace("/", "\\").split("\\")]. *)
Fixpoint fields (s : pystr) : list pystr :=
  match s with
  | [] => [[]]
  | c :: t =>
      if is_sep c then [] :: fields t
      else match fields t with
           | l :: ls => (c :: l) :: ls
           | [] => [[c]]
           end
  end.

Definition curdir : pystr := lit ".".
Definition pardir : pystr := lit "..".

(** One step of [normpath] below a root: empty fields and [.] vanish, [..]
    removes the component before it and is dropped at the root. *)
Definition fold_comp (acc : list pystr) (f : pystr) : list pystr :=
  if negb (nonempty f) || str_eqb f curdir then acc
  else if str_eqb f pardir then removelast acc
  else acc ++ [f].

Definition components (rest : pystr) : list pystr :=
  fold_left fold_comp (fields rest) [].

(** The components of the node a path string names on volume [c:]; [None]
    for a path that is not rooted on that volume. *)
Definition resolve (p : pystr) : option (list pystr) :=
  match p with
  | d :: c :: rest =>
      if ((d =? 99) || (d =? 67)) && (c =? COLON) && starts_with_sep rest
      then Some (components rest) else None
  | _ => None
  end.

(** How many leading components [relpath] takes for shared: it compares them
    by [normcase]. *)
Fixpoint common_prefix_length (a b : list pystr) : nat :=
  match a, b with
  | x :: a', y :: b' =>
      if str_eqb (normcase x) (normcase y) then S (common_prefix_length a' b') else O
  | _, _ => O
  end.

(** The components [relpath] joins: one [..] for each component of the start
    the path does not share, then what the path has beyond the shared ones. *)
Definition relative_list (start_list path_list : list pystr) : list pystr :=
  let i := common_prefix_length start_list path_list in
  repeat pardir (List.length start_list - i) ++ skipn i path_list.

Definition relative_to (start_list path_list : list pystr) : pystr :=
  match relative_list start_list path_list with
  | [] => curdir
  | rel_list => join_all rel_list
  end.

(** [ntpath.relpath(path, start)] for two paths on volume [c:]; [None] is its
    [ValueError]. *)
Definition relpath (path start : pystr) : option pystr :=
  match resolve start, resolve path with
  | Some start_list, Some path_list => Some (relative_to start_list path_list)
  | _, _ => None
  end.

End NtPath.
Export NtPath.

(** ** The file system *)

Module FileSystem.
#[local] Set Warnings "-register-all".

(** A node of the tree: a regular file with its bytes and whether it can be
    opened for reading, or a directory with its entries in listing order. *)
Inductive node : Type :=
| File (readable : bool) (data : list byte)
| Dir (entries : list (pystr * node)).

Fixpoint find_entry (name : pystr) (es : list (pystr * node)) : option node :=
  match es with
  | [] => None
  | (k, m) :: es' => if str_eqb name k then Some m else find_entry name es'
  end.

(** The entry [name] becomes [m]: in place when it is there, else as a new
    last entry. *)
Fixpoint set_entry (name : pystr) (m : node) (es : list (pystr * node))
  : list (pystr * node) :=
  match es with
  | [] => [(name, m)]
  | (k, x) :: es' =>
      if str_eqb name k then (k, m) :: es' else (k, x) :: set_entry name m es'
  end.

Fixpoint lookup (n : node) (cs : list pystr) {struct cs} : option node :=
  match cs with
  | [] => Some n
  | c :: cs' =>
      match n with
      | Dir es =>
          match find_entry c es with
          | Some m => lookup m cs'
          | None => None
          end
      | File _ _ => None
      end
  end.

(** The node at [cs] becomes [m]; [None] when the directory that is to hold
    it is missing. *)
Fixpoint place (n : node) (cs : list pystr) (m : node) {struct cs} : option node :=
  match cs with
  | [] => Some m
  | c :: cs' =>
      match n with
      | Dir es =>
          match cs' with
          | [] => Some (Dir (set_entry c m es))
          | _ =>
              match find_entry c es with
              | Some x =>
                  match place x cs' m with
                  | Some x' => Some (Dir (set_entry c x' es))
                  | None => None
                  end
              | None => None
              end
          end
      | File _ _ => None
      end
  end.

(** [os.makedirs(p, exist_ok=True)] on components: the directories of [cs]
    below [n], made where they are missing.  A regular file in the way stops
    it: [inr true] when the file is the last component, [inr false] when it is
    an earlier one. *)
Fixpoint make_dirs (n : node) (cs : list pystr) {struct cs} : node + bool :=
  match n with
  | File _ _ => inr (match cs with [] => true | _ => false end)
  | Dir es =>
      match cs with
      | [] => inl n
      | c :: cs' =>
          let sub := match find_entry c es with Some m => m | None => Dir [] end in
          match make_dirs sub cs' with
          | inl m' => inl (Dir (set_entry c m' es))
          | inr b => inr b
          end
      end
  end.

Definition is_dir_node (n : node) : bool :=
  match n with Dir _ => true | File _ _ => false end.

(** The names [os.scandir] reports, directories and the rest apart, as
    [os.walk] collects them. *)
Definition listing (es : list (pystr * node)) : list pystr * list pystr :=
  (List.map fst (filter (fun e => is_dir_node (snd e)) es),
   List.map fst (filter (fun e => negb (is_dir_node (snd e))) es)).

Fixpoint height (n : node) : nat :=
  match n with
  | File _ _ => O
  | Dir es => S (fold_right (fun e h => Nat.max (height (snd e)) h) O es)
  end.

(** What [os.stat] finds at a path string: a path that ends in a separator
    names directories only. *)
Definition node_at (fs : node) (p : pystr) : option node :=
  match resolve p with
  | None => None
  | Some cs =>
      match lookup fs cs with
      | Some (File r d) => if ends_with_sep p then None else Some (File r d)
      | other => other
      end
  end.

Definition isdir (fs : node) (p : pystr) : bool :=
  match node_at fs p with Some (Dir _) => true | _ => false end.

Definition isfile (fs : node) (p : pystr) : bool :=
  match node_at fs p with Some (File _ _) => true | _ => false end.

Definition scandir (fs : node) (p : pystr) : option (list pystr * list pystr) :=
  match node_at fs p with
  | Some (Dir es) => Some (listing es)
  | _ => None
  end.

End FileSystem.
Export FileSystem.

(** ** Actions: state and exceptions *)

Module Run.

(** The exceptions the modelled runtime raises. *)
Inductive exn : Type :=
| FileNotFoundError
| FileExistsError
| PermissionError
| SameFileError
| UnicodeDecodeError
| ValueError.

Inductive result (A : Type) : Type :=
| Ok (a : A)
| Raise (e : exn).
Arguments Ok {A} a.
Arguments Raise {A} e.

(** The state of a run: the file system, the lines printed so far, and the
    script's own mutable variable. *)
Record state (L : Type) : Type := mkState {
  fs : node;
  stdout : list pystr;
  locals : L
}.
Arguments mkState {L} fs stdout locals.
Arguments fs {L} s.
Arguments stdout {L} s.
Arguments locals {L} s.

Definition M (L A : Type) : Type := state L -> state L * result A.

Definition ret {L A} (a : A) : M L A := fun s => (s, Ok a).

Definition bind {L A B} (m : M L A) (k : A -> M L B) : M L B :=
  fun s =>
    match m s with
    | (s', Ok a) => k a s'
    | (s', Raise e) => (s', Raise e)
    end.

Definition raise {L A} (e : exn) : M L A := fun s => (s, Raise e).

Definition get {L} : M L (state L) := fun s => (s, Ok s).

Definition set_fs {L} (n : node) : M L unit :=
  fun s => (mkState n (stdout s) (locals s), Ok tt).

Definition set_locals {L} (l : L) : M L unit :=
  fun s => (mkState (fs s) (stdout s) l, Ok tt).

(** [try: m finally: h] *)
Definition finally {L A} (m : M L A) (h : M L unit) : M L A :=
  fun s =>
    match m s with
    | (s', r) =>
        match h s' with
        | (s'', Ok _) => (s'', r)
        | (s'', Raise e) => (s'', Raise e)
        end
    end.

Declare Scope run_scope.
Delimit Scope run_scope with run.
Notation "x <- m ;; k" := (bind m (fun x => k))
  (at level 61, m at next level, right associativity) : run_scope.
Notation "m ;; k" := (bind m (fun _ => k))
  (at level 61, right associativity) : run_scope.
Local Open Scope run_scope.

(** [for x in l: body(x)] *)
Fixpoint for_each {L A} (l : list A) (body : A -> M L unit) : M L unit :=
  match l with
  | [] => ret tt
  | x :: t => body x ;; for_each t body
  end.

(** [print(line)] *)
Definition print {L} (line : pystr) : M L unit :=
  fun s => (mkState (fs s) (stdout s ++ [line]) (locals s), Ok tt).

(** [os.makedirs(p, exist_ok=True)] *)
Definition makedirs {L} (p : pystr) : M L unit :=
  s <- get ;;
  match resolve p with
  | None => raise FileNotFoundError
  | Some cs =>
      match make_dirs (fs s) cs with
      | inl n => set_fs n
      | inr true => raise FileExistsError
      | inr false => raise FileNotFoundError
      end
  end.

(** [open(p, "rb").read()], and the bytes any [open(p, "r", ...)] decodes. *)
Definition read_bytes {L} (p : pystr) : M L (list byte) :=
  s <- get ;;
  match node_at (fs s) p with
  | None => raise FileNotFoundError
  | Some (Dir _) => raise PermissionError
  | Some (File false _) => raise PermissionError
  | Some (File true data) => ret data
  end.

(** The file at [p] holds [data]: a file that is there keeps its place and
    its permissions, a new one comes last in its directory. *)
Definition store {L} (p : pystr) (data : list byte) : M L unit :=
  s <- get ;;
  match resolve p with
  | None => raise FileNotFoundError
  | Some cs =>
      match lookup (fs s) cs with
      | Some (Dir _) => raise PermissionError
      | found =>
          if ends_with_sep p then raise FileNotFoundError else
          let r := match found with Some (File r _) => r | _ => true end in
          match place (fs s) cs (File r data) with
          | Some n => set_fs n
          | None => raise FileNotFoundError
          end
      end
  end.

Fixpoint comps_eqb (a b : list pystr) : bool :=
  match a, b with
  | [], [] => true
  | x :: a', y :: b' => str_eqb x y && comps_eqb a' b'
  | _, _ => false
  end.

(** [os.path.samefile] as [shutil.copyfile] asks it: both paths are there and
    name one node. *)
Definition samefile (n : node) (src dst : pystr) : bool :=
  match node_at n src, node_at n dst, resolve src, resolve dst with
  | Some _, Some _, Some a, Some b => comps_eqb a b
  | _, _, _, _ => false
  end.

(** [shutil.copyfile(src, dst)] *)
Definition copyfile {L} (src dst : pystr) : M L unit :=
  s <- get ;;
  if samefile (fs s) src dst then raise SameFileError else
  data <- read_bytes src ;;
  store dst data.

(** [os.walk(top)] driving the loop [for root, _, files in os.walk(top)]:
    [body root files] runs for a directory once it is listed, before the
    directories below it are; a directory that cannot be listed is passed
    over.  [fuel] bounds the depth. *)
Fixpoint walk {L} (fuel : nat) (body : pystr -> list pystr -> M L unit)
    (top : pystr) : M L unit :=
  match fuel with
  | O => ret tt
  | S k =>
      s <- get ;;
      match scandir (fs s) top with
      | None => ret tt
      | Some (dirs, nondirs) =>
          body top nondirs ;;
          for_each dirs (fun dirname => walk k body (join top dirname))
      end
  end.

(** [os.walk] with the depth of the tree as it stands for fuel. *)
Definition os_walk {L} (body : pystr -> list pystr -> M L unit) (top : pystr)
  : M L unit :=
  s <- get ;; walk (S (height (fs s))) body top.

End Run.
Export Run.

(** ** The scripts *)

(** The constants both scripts start with. *)
Definition base_dir : pystr :=
  lit "c:\Users\Lenovo\Documents\BUSINESS\QUETZAL COLLECTIVE LLC\ULP\ulp-1.5".
Definition prompt_file : pystr := join base_dir (lit "prompt_file_list.txt").

Section Scripts.

(** The host's settings the scripts leave open: the locale's encoding, which
    [open(prompt_file, "r")] decodes with ([None]: the bytes are not text in
    it), and how much of the bytes written to a file that is still open has
    reached the disk. *)
Variable locale_decode : list byte -> option pystr.
Variable flushed : list byte -> list byte.

Local Open Scope run_scope.

(** [with open(prompt_file, "r") as file:
       file_paths = file.read().strip().splitlines()] *)
Definition read_file_paths {L} : M L (list pystr) :=
  data <- read_bytes prompt_file ;;
  match locale_decode data with
  | None => raise UnicodeDecodeError
  | Some text => ret (splitlines (strip (universal_newlines text)))
  end.

(** *** txtexport.py *)

Definition output_dir : pystr := join base_dir (lit "txtexport_flattened").

(** [processed_files.append(x)] *)
Definition processed_files_append (x : pystr) : M (list pystr) unit :=
  s <- get ;; set_locals (locals s ++ [x]).

(** The body of [for root, _, files in os.walk(source_path)]. *)
Definition copy_files (root : pystr) (files : list pystr) : M (list pystr) unit :=
  for_each files (fun file =>
    let file_path := join root file in
    match relpath file_path base_dir with
    | None => raise ValueError
    | Some rel =>
        let relative_file_path := replace_backslash rel in
        processed_files_append (SLASH :: relative_file_path) ;;
        let destination_path := join output_dir (basename file_path ++ lit ".txt") in
        copyfile file_path destination_path ;;
        print (lit "Copied and renamed: " ++ file_path ++ lit " -> " ++ destination_path)
    end).

(** The body of [for relative_path in file_paths]. *)
Definition copy_entry (relative_path : pystr) : M (list pystr) unit :=
  let source_path := join base_dir (lstrip_slash relative_path) in
  s <- get ;;
  if isdir (fs s) source_path then
    os_walk copy_files source_path
  else if isfile (fs s) source_path then
    processed_files_append relative_path ;;
    let destination_path := join output_dir (basename source_path ++ lit ".txt") in
    copyfile source_path destination_path ;;
    print (lit "Copied and renamed: " ++ source_path ++ lit " -> " ++ destination_path)
  else
    print (lit "Path not found: " ++ source_path).

Definition project_file_system_path : pystr :=
  join output_dir (lit "project_file_system.txt").

(** The text of the index: the header, an empty line, the recorded paths. *)
Definition project_file_text (processed_files : list pystr) : pystr :=
  (lit "**ULP 1.5 Project Files**" ++ [LF; LF]) ++ join_lines processed_files.

(** The script, top to bottom. *)
Definition txtexport_main : M (list pystr) unit :=
  makedirs output_dir ;;
  file_paths <- read_file_paths ;;
  set_locals [] ;;
  for_each file_paths copy_entry ;;
  s <- get ;;
  store project_file_system_path (text_file_bytes (project_file_text (locals s))) ;;
  print (lit "Exported processed files to: " ++ project_file_system_path).

(** A run of [txtexport.py] on the file system [n]. *)
Definition txtexport (n : node) : state (list pystr) * result unit :=
  txtexport_main (mkState n [] []).

(** *** txtexport_onefile.py *)

Definition output_file : pystr :=
  join_all [base_dir; lit "txtexport_flattened"; lit "all_files_combined.txt"].

(** [combined_file.write(text)]: the variable holds the text written so far;
    of its bytes, [flushed] are in the file. *)
Definition combined_file_write (text : pystr) : M pystr unit :=
  s <- get ;;
  let written := locals s ++ text in
  set_locals written ;;
  store output_file (flushed (text_file_bytes written)).

(** [with open(p, "r", encoding="utf-8", errors="ignore") as f: f.read()] *)
Definition read_text (p : pystr) : M pystr pystr :=
  data <- read_bytes p ;; ret (read_text_utf8_ignore data).

(** The body of [for root, _, files in os.walk(source_path)]. *)
Definition combine_files (root : pystr) (files : list pystr) : M pystr unit :=
  for_each files (fun file =>
    let file_path := join root file in
    match relpath file_path base_dir with
    | None => raise ValueError
    | Some rel =>
        let relative_file_path := replace_backslash rel in
        combined_file_write
          (lit "--- START OF FILE: " ++ relative_file_path ++ lit " ---" ++ [LF]) ;;
        text <- read_text file_path ;;
        combined_file_write text ;;
        combined_file_write
          (LF :: lit "--- END OF FILE: " ++ relative_file_path ++ lit " ---" ++ [LF; LF])
    end).

(** The body of [for relative_path in file_paths]. *)
Definition combine_entry (relative_path : pystr) : M pystr unit :=
  let source_path := join base_dir (lstrip_slash relative_path) in
  s <- get ;;
  if isdir (fs s) source_path then
    os_walk combine_files source_path
  else if isfile (fs s) source_path then
    combined_file_write
      (lit "--- START OF FILE: " ++ relative_path ++ lit " ---" ++ [LF]) ;;
    text <- read_text source_path ;;
    combined_file_write text ;;
    combined_file_write
      (LF :: lit "--- END OF FILE: " ++ relative_path ++ lit " ---" ++ [LF; LF])
  else
    print (lit "Path not found: " ++ source_path).

(** Leaving [with open(output_file, "w", encoding="utf-8") as combined_file]:
    the file is closed and holds all that was written. *)
Definition combined_file_close : M pystr unit :=
  s <- get ;; store output_file (text_file_bytes (locals s)).

(** The script, top to bottom. *)
Definition txtexport_onefile_main : M pystr unit :=
  makedirs (dirname output_file) ;;
  file_paths <- read_file_paths ;;
  set_locals [] ;;
  store output_file [] ;;
  finally (for_each file_paths combine_entry) combined_file_close ;;
  print (lit "All files combined into: " ++ output_file).

(** A run of [txtexport_onefile.py] on the file system [n]. *)
Definition txtexport_onefile (n : node) : state pystr * result unit :=
  txtexport_onefile_main (mkState n [] []).

End Scripts.

(** ** Vocabulary of the properties *)

Local Open Scope N_scope.

(** A name [ntpath.join] appends as it stands: not empty, no separator, no
    colon. *)
Definition plain (n : pystr) : bool :=
  nonempty n && forallb (fun c => negb (is_sep c) && negb (c =? COLON)) n.

(** A name an entry of a directory can bear. *)
Definition valid_name (n : pystr) : bool :=
  plain n && negb (str_eqb n curdir) && negb (str_eqb n pardir).

Fixpoint unique_names (es : list (pystr * node)) : bool :=
  match es with
  | [] => true
  | (k, _) :: es' =>
      match find_entry k es' with Some _ => false | None => unique_names es' end
  end.

(** A tree as a volume holds it: the entries of a directory bear valid names,
    each name once. *)
Fixpoint well_formed (n : node) : bool :=
  match n with
  | File _ _ => true
  | Dir es =>
      unique_names es
      && forallb (fun e => valid_name (fst e) && well_formed (snd e)) es
  end.

(** The names of [l] with [c] between them. *)
Fixpoint sep_join (c : N) (l : list pystr) : pystr :=
  match l with
  | [] => []
  | [x] => x
  | x :: t => x ++ c :: sep_join c t
  end.

Definition sep_free (n : pystr) : bool := forallb (fun c => negb (is_sep c)) n.

(** A path string on volume [c:], rooted: [rest] is what follows the colon. *)
Definition on_volume (p : pystr) (rest : pystr) : Prop :=
  exists d, p = d :: COLON :: rest /\ (d = 99 \/ d = 67) /\ starts_with_sep rest = true.

(** A path [ntpath.join] appends to the path before it: no drive, no
    leading separator. *)
Definition relative (x : pystr) : Prop :=
  splitdrive x = ([], x) /\ starts_with_sep x = false.

Fixpoint prefixb (a b : list pystr) : bool :=
  match a, b with
  | [], _ => true
  | x :: a', y :: b' => str_eqb x y && prefixb a' b'
  | _ :: _, [] => false
  end.

(** Neither path leads to the other. *)
Definition apart (a b : list pystr) : bool := negb (prefixb a b) && negb (prefixb b a).

Definition no_linebreak (l : pystr) : bool := forallb (fun c => negb (is_linebreak c)) l.
Definition starts_nonspace (l : pystr) : bool :=
  match l with c :: _ => negb (isspace c) | [] => false end.
Definition ends_nonspace (l : pystr) : bool := starts_nonspace (rev l).

Definition base_components : list pystr :=
  List.map lit ["Users"; "Lenovo"; "Documents"; "BUSINESS"; "QUETZAL COLLECTIVE LLC";
                "ULP"; "ulp-1.5"]%string.
Definition output_components : list pystr :=
  base_components ++ [lit "txtexport_flattened"].

(** The block one file contributes to the combined text: the start line with
    a label, the text read, a line end, the end line with the same label, an
    empty line. *)
Definition start_line (label : pystr) : pystr :=
  lit "--- START OF FILE: " ++ label ++ lit " ---" ++ [LF].
Definition end_line (label : pystr) : pystr :=
  LF :: lit "--- END OF FILE: " ++ label ++ lit " ---" ++ [LF; LF].
Definition file_block (label text : pystr) : pystr :=
  start_line label ++ text ++ end_line label.

(** The state after the line [Path not found: ...] was printed. *)
Definition not_found_logged {L} (s : state L) (source_path : pystr) : state L :=
  mkState (fs s) (stdout s ++ [lit "Path not found: " ++ source_path]) (locals s).

(** The entries the manifest would give were only trailing white space
    stripped, as the specification words it. *)
Definition claimed_file_paths (text : pystr) : list pystr := splitlines (rstrip text).

Definition not_sep (c : N) : bool := negb (is_sep c).

(** ** What the exporters resolve, apart from the state *)

(** The files [os.walk] reaches from [top], as path strings, in its order: the
    files of a directory, then what is below each of its directories. *)
Fixpoint tree_files (n : node) (top : pystr) : list pystr :=
  match n with
  | File _ _ => []
  | Dir es =>
      List.map (fun e => join top (fst e))
               (filter (fun e => negb (is_dir_node (snd e))) es)
      ++ flat_map (fun e => if is_dir_node (snd e)
                            then tree_files (snd e) (join top (fst e)) else []) es
  end.

(** What one manifest entry resolves to. *)
Inductive item : Type :=
| Walked (file_path : pystr)
| Direct (relative_path source_path : pystr)
| Missing (source_path : pystr).

Definition resolved_files (n : node) (relative_path : pystr) : list item :=
  let source_path := join base_dir (lstrip_slash relative_path) in
  match node_at n source_path with
  | Some (Dir es) => List.map Walked (tree_files (Dir es) source_path)
  | Some (File _ _) => [Direct relative_path source_path]
  | None => [Missing source_path]
  end.

(** The file's path relative to the base directory, separators normalised. *)
Definition normalized_relative_path (file_path : pystr) : pystr :=
  match relpath file_path base_dir with
  | Some rel => replace_backslash rel
  | None => []
  end.

Definition item_path (it : item) : pystr :=
  match it with
  | Walked file_path => file_path
  | Direct _ source_path => source_path
  | Missing source_path => source_path
  end.

(** The label the code writes in the delimiters of a file. *)
Definition item_label (it : item) : pystr :=
  match it with
  | Walked file_path => normalized_relative_path file_path
  | Direct relative_path _ => relative_path
  | Missing _ => []
  end.

(** Two nodes a directory listing cannot tell apart. *)
Definition alike (a b : option node) : Prop :=
  match a, b with
  | Some (Dir ea), Some (Dir eb) => listing ea = listing eb
  | Some (File _ _), Some (File _ _) => True
  | None, None => True
  | _, _ => False
  end.

(** The tree with the bytes of the file at [cs] replaced. *)
Definition set_data (n : node) (cs : list pystr) (d : list byte) : node :=
  match lookup n cs with
  | Some (File r _) =>
      match place n cs (File r d) with Some n' => n' | None => n end
  | _ => n
  end.

(** The tree with the entries of the directory at [cs] replaced. *)
Definition set_entries (n : node) (cs : list pystr) (es : list (pystr * node)) : node :=
  match place n cs (Dir es) with Some n' => n' | None => n end.

Definition combined_components : list pystr :=
  output_components ++ [lit "all_files_combined.txt"].

(** The states one and the same action can lead through. *)
Inductive steps {L A} (g : A -> M L unit) : state L -> state L -> Prop :=
| steps_refl s : steps g s s
| steps_next s x s' : steps g (fst (g x s)) s' -> steps g s s'.

(** *** The combined text, apart from the state *)

Section CombinedText.
Variable flushed : list byte -> list byte.

(** What [f.read()] gives for the file at [p] once [written] was written to
    the combined file: the decoded text of its bytes, which for the combined
    file itself are those that reached the disk. *)
Definition text_read (n : node) (written : pystr) (p : pystr) : result pystr :=
  match node_at (set_data n combined_components (flushed (text_file_bytes written))) p with
  | Some (File true data) => Ok (read_text_utf8_ignore data)
  | Some _ => Raise PermissionError
  | None => Raise FileNotFoundError
  end.

(** The text written and the lines printed once the resolved [items] are
    through, or the exception that stopped them. *)
Fixpoint combined_run (n : node) (items : list item) (written : pystr)
    (printed : list pystr) : pystr * list pystr * result unit :=
  match items with
  | [] => (written, printed, Ok tt)
  | Missing source_path :: rest =>
      combined_run n rest written (printed ++ [lit "Path not found: " ++ source_path])
  | it :: rest =>
      let started := written ++ start_line (item_label it) in
      match text_read n started (item_path it) with
      | Ok text =>
          combined_run n rest (started ++ text ++ end_line (item_label it)) printed
      | Raise e => (started, printed, Raise e)
      end
  end.

End CombinedText.

(** The bytes of the regular file an item names. *)
Definition item_data (n : node) (it : item) : list byte :=
  match node_at n (item_path it) with
  | Some (File _ data) => data
  | _ => []
  end.

(** An item the combined text can take in: found, readable, and not the
    combined file itself. *)
Definition item_readable (n : node) (it : item) : bool :=
  match it with
  | Missing _ => true
  | _ =>
      match node_at n (item_path it), resolve (item_path it) with
      | Some (File true _), Some cs => negb (comps_eqb cs combined_components)
      | _, _ => false
      end
  end.

(** The block of an item as the code writes it. *)
Definition item_block (n : node) (it : item) : pystr :=
  match it with
  | Missing _ => []
  | _ => file_block (item_label it) (read_text_utf8_ignore (item_data n it))
  end.

(** The block of an item as the specification words it: the label is the
    normalised relative path of the file, for every resolved file. *)
Definition claimed_block (n : node) (it : item) : pystr :=
  match it with
  | Missing _ => []
  | _ => file_block (normalized_relative_path (item_path it))
                    (read_text_utf8_ignore (item_data n it))
  end.

(** *** The loop bodies, per resolved item *)

Section Items.
Variable flushed : list byte -> list byte.
Local Open Scope run_scope.

(** The statements that write the block of one file: the start line, the text
    read from the file, the end line. *)
Definition write_block (label p : pystr) : M pystr unit :=
  combined_file_write flushed (start_line label) ;;
  text <- read_text p ;;
  combined_file_write flushed text ;;
  combined_file_write flushed (end_line label).

(** The body of the inner loop of [txtexport_onefile.py] for one file. *)
Definition combine_walked (file_path : pystr) : M pystr unit :=
  match relpath file_path base_dir with
  | None => raise ValueError
  | Some rel => write_block (replace_backslash rel) file_path
  end.

Definition combine_item (it : item) : M pystr unit :=
  match it with
  | Walked file_path => combine_walked file_path
  | Direct relative_path source_path => write_block relative_path source_path
  | Missing source_path => print (lit "Path not found: " ++ source_path)
  end.

(** The statements that record and copy one file. *)
Definition copy_one (recorded file_path : pystr) : M (list pystr) unit :=
  processed_files_append recorded ;;
  let destination_path := join output_dir (basename file_path ++ lit ".txt") in
  copyfile file_path destination_path ;;
  print (lit "Copied and renamed: " ++ file_path ++ lit " -> " ++ destination_path).

(** The body of the inner loop of [txtexport.py] for one file. *)
Definition copy_walked (file_path : pystr) : M (list pystr) unit :=
  match relpath file_path base_dir with
  | None => raise ValueError
  | Some rel => copy_one (SLASH :: replace_backslash rel) file_path
  end.

Definition copy_item (it : item) : M (list pystr) unit :=
  match it with
  | Walked file_path => copy_walked file_path
  | Direct relative_path source_path => copy_one relative_path source_path
  | Missing source_path => print (lit "Path not found: " ++ source_path)
  end.

End Items.

(** The tree once [open(output_file, "w")] has made or emptied the combined
    file. *)
Definition opened (n : node) : node :=
  let r := match lookup n combined_components with
           | Some (File r _) => r
           | _ => true
           end in
  match place n combined_components (File r []) with
  | Some n' => n'
  | None => n
  end.

(** The entries of the manifest a tree holds, when it can be read. *)
Definition manifest_entries (locale_decode : list byte -> option pystr) (n : node)
  : option (list pystr) :=
  match node_at n prompt_file with
  | Some (File true data) =>
      match locale_decode data with
      | Some text => Some (splitlines (strip (universal_newlines text)))
      | None => None
      end
  | _ => None
  end.

(** *** Vocabulary of the proofs *)

(** The loop [for file in files] around a body that takes the joined path. *)
Definition walk_body {L} (inner : pystr -> M L unit) (root : pystr) (files : list pystr)
  : M L unit :=
  for_each files (fun file => inner (join root file)).

(** A path the walk hands to the loop body: a valid name joined to a
    directory of the region walked. *)
Definition walked_path (region : list pystr -> bool) (p : pystr) : Prop :=
  exists root c name, p = join root name /\ resolve root = Some c
                      /\ region c = true /\ valid_name name = true.

(** An item whose path, when it was walked to, names a node. *)
Definition item_good (it : item) : Prop :=
  match it with
  | Walked p => resolve p <> None
  | _ => True
  end.

(** The combined file is open: the tree is [n] but for the bytes of that
    file. *)
Definition combined_open (n : node) (s : state pystr) : Prop :=
  exists d, fs s = set_data n combined_components d.

(** What a run of [txtexport_onefile.py] comes to, from the tree with the
    output directory made and the combined file opened. *)
Definition onefile_outcome (flushed : list byte -> list byte) (n : node)
    (entries : list pystr) : state pystr * result unit :=
  let run := combined_run flushed n (flat_map (resolved_files n) entries) [] [] in
  (mkState (set_data n combined_components (text_file_bytes (fst (fst run))))
     (snd (fst run) ++ match snd run with
                       | Ok _ => [lit "All files combined into: " ++ output_file]
                       | Raise _ => []
                       end)
     (fst (fst run)),
   snd run).

(** *** The copies, apart from the state *)

(** A manifest entry that leads neither into the output directory nor to a
    directory the output directory is in. *)
Definition outside (relative_path : pystr) : bool :=
  match resolve (join base_dir (lstrip_slash relative_path)) with
  | Some cs => apart cs output_components
  | None => true
  end.

(** A directory of the tree that is neither in the output directory nor
    above it. *)
Definition off_output (cs : list pystr) : bool := apart cs output_components.

(** The entries of a directory once [open(name, "wb")] and the write are
    through: a file that is there keeps its place and permissions. *)
Definition put_file (k : pystr) (data : list byte) (es : list (pystr * node))
  : list (pystr * node) :=
  set_entry k (File match find_entry k es with
                    | Some (File r _) => r
                    | _ => true
                    end data) es.

Definition put_files (w : list (pystr * list byte)) (es : list (pystr * node))
  : list (pystr * node) :=
  fold_left (fun es kd => put_file (fst kd) (snd kd) es) w es.

Definition is_dir_entry (k : pystr) (es : list (pystr * node)) : bool :=
  match find_entry k es with Some (Dir _) => true | _ => false end.

(** A file the copy loop takes from off the output directory to a name that
    [join] appends to the output directory as it stands. *)
Definition copyable (p : pystr) : Prop :=
  exists cs, resolve p = Some cs /\ off_output cs = true /\ plain (basename p) = true.

Definition item_copyable (it : item) : Prop :=
  match it with
  | Missing _ => True
  | _ => copyable (item_path it)
  end.

(** The path the index records for an item. *)
Definition item_record (it : item) : pystr :=
  match it with
  | Walked file_path => SLASH :: normalized_relative_path file_path
  | Direct relative_path _ => relative_path
  | Missing _ => []
  end.

(** The tree is [n] but for the entries of the output directory. *)
Definition output_framed {L} (n : node) (s : state L) : Prop :=
  exists es, fs s = set_entries n output_components es.

(** Every directory entry of [a] is one of [b]. *)
Definition no_new_dirs (a b : list (pystr * node)) : Prop :=
  forall k, is_dir_entry k a = true -> is_dir_entry k b = true.

Definition written_to (k : pystr) (w : list (pystr * list byte)) : bool :=
  existsb (str_eqb k) (List.map fst w).

(** The line [txtexport.py] prints for a copy. *)
Definition copied_line (file_path : pystr) : pystr :=
  lit "Copied and renamed: " ++ file_path ++ lit " -> "
  ++ join output_dir (basename file_path ++ lit ".txt").

Definition item_fit (it : item) : Prop := item_good it /\ item_copyable it.

(** The name and bytes an item puts in the output directory. *)
Definition item_copy (n : node) (it : item) : list (pystr * list byte) :=
  match it with
  | Missing _ => []
  | _ => match node_at n (item_path it) with
         | Some (File true data) => [(basename (item_path it) ++ lit ".txt", data)]
         | _ => []
         end
  end.

(** The last statements of [txtexport.py]: the index is written, the closing
    line printed. *)
Definition write_index : M (list pystr) unit :=
  (s <- get ;;
   store project_file_system_path (text_file_bytes (project_file_text (locals s))) ;;
   print (lit "Exported processed files to: " ++ project_file_system_path))%run.

(** A manifest line that is empty or slashes only. *)
Definition all_slashes (l : pystr) : bool := forallb (N.eqb SLASH) l.

Definition file_at (n : node) (cs : list pystr) : bool :=
  match lookup n cs with Some (File _ _) => true | _ => false end.

Definition dir_at (n : node) (cs : list pystr) : bool :=
  match lookup n cs with Some (Dir _) => true | _ => false end.

(** Every file of [n] is a file of [n'], every directory a directory. *)
Definition grown (n n' : node) : Prop :=
  forall cs, (file_at n cs = true -> file_at n' cs = true)
             /\ (dir_at n cs = true -> dir_at n' cs = true).

(** The label of the file with components [cs]: its path from the base
    directory, with [/] between the names. *)
Definition label_of (cs : list pystr) : pystr :=
  replace_backslash (relative_to base_components cs).

(** [txtexport.py] has exported the file with components [cs]: its path is
    recorded and the output directory holds a file under its name. *)
Definition copied (cs : list pystr) (s : state (list pystr)) : Prop :=
  In (SLASH :: label_of cs) (locals s)
  /\ file_at (fs s) (output_components ++ [last cs [] ++ lit ".txt"]) = true.

(** [txtexport_onefile.py] has exported the file with components [cs]: the
    combined text holds a block under its label. *)
Definition combined (cs : list pystr) (s : state pystr) : Prop :=
  exists before text after,
    locals s = before ++ file_block (label_of cs) text ++ after.

(** ** Sample projects *)

Definition bytes_of (text : pystr) : list byte := List.map byte_of_N text.

(** The bytes of a manifest with the given lines, each ended by a line feed. *)
Definition manifest_bytes (lines : list pystr) : list byte :=
  bytes_of (flat_map (fun l => l ++ [LF]) lines).

(** The volume with nothing but the base directory, holding [es]. *)
Definition in_base_dir (es : list (pystr * node)) : node :=
  fold_right (fun c n => Dir [(c, n)]) (Dir es) base_components.

(** A locale that decodes every byte to the code point of its value. *)
Definition latin1 (data : list byte) : option pystr := Some (List.map Byte.to_N data).

(** A combined file that is written through at once. *)
Definition unbuffered (data : list byte) : list byte := data.

(** A project with the directory [dirA], holding [x.txt], and the file
    [fileB.py]; no output directory yet. *)
Definition project (lines : list pystr) (readable : bool) : node :=
  in_base_dir
    [(lit "prompt_file_list.txt", File true (manifest_bytes lines));
     (lit "dirA", Dir [(lit "x.txt", File true (bytes_of (lit "hello")))]);
     (lit "fileB.py", File readable (bytes_of (lit "print(1)")))].

(** The same once [os.makedirs] has made the output directory. *)
Definition project_made (lines : list pystr) (readable : bool) : node :=
  match make_dirs (project lines readable) output_components with
  | inl n => n
  | inr _ => project lines readable
  end.

(** A base directory with neither manifest nor output directory. *)
Definition bare_project : node := in_base_dir [(lit "fileB.py", File true [])].

Definition bare_project_made : node :=
  match make_dirs bare_project output_components with
  | inl n => n
  | inr _ => bare_project
  end.

(** The project as a run of [txtexport.py] leaves it. *)
Definition project_exported : node :=
  fs (fst (txtexport latin1 (project [lit "/dirA"; lit "fileB.py"] true))).

(** Closed facts about the sample projects are settled by running them. *)
Ltac by_running := vm_compute; reflexivity.

(** ** Vocabulary of the further properties *)

(** The name of the index [txtexport.py] writes in the output directory. *)
Definition index_name : pystr := lit "project_file_system.txt".

(** The entries of the output directory of the tree [n]. *)
Definition output_entries (n : node) : list (pystr * node) :=
  match lookup n output_components with
  | Some (Dir es) => es
  | _ => []
  end.

(** The line [txtexport.py] prints for an item. *)
Definition item_line (it : item) : pystr :=
  match it with
  | Missing source_path => lit "Path not found: " ++ source_path
  | _ => copied_line (item_path it)
  end.

(** What an item adds to [processed_files]. *)
Definition item_records (it : item) : list pystr :=
  match it with
  | Missing _ => []
  | _ => [item_record it]
  end.

(** An item [txtexport.py] gets through: a file that can be read, to be
    copied to a name that no directory among the entries [es] bears. *)
Definition item_exportable (n : node) (es : list (pystr * node)) (it : item) : bool :=
  match it with
  | Missing _ => true
  | _ =>
      match node_at n (item_path it) with
      | Some (File true _) => negb (is_dir_entry (basename (item_path it) ++ lit ".txt") es)
      | _ => false
      end
  end.

(** The tree is well-formed, and is [n] but for the entries of the output
    directory. *)
Definition framed_well {L} (n : node) (s : state L) : Prop :=
  well_formed (fs s) = true /\ output_framed n s.

(** A code point a [str] can be encoded from: a Unicode scalar value. *)
Definition scalar (c : N) : bool :=
  (c <? 0xD800) || ((0xDFFF <? c) && (c <? 0x110000)).

Definition no_cr (s : pystr) : bool := forallb (fun c => negb (c =? CR)) s.

(** ** More sample projects *)

(** A project with two files named [x.txt], in [dirA] and in [dirB]. *)
Definition twins_project (lines : list pystr) : node :=
  in_base_dir
    [(lit "prompt_file_list.txt", File true (manifest_bytes lines));
     (lit "dirA", Dir [(lit "x.txt", File true (bytes_of (lit "hello")))]);
     (lit "dirB", Dir [(lit "x.txt", File true (bytes_of (lit "world")))])].

Definition twins_project_made (lines : list pystr) : node :=
  match make_dirs (twins_project lines) output_components with
  | inl n => n
  | inr _ => twins_project lines
  end.

(** A base directory where a regular file bears the name of the output
    directory. *)
Definition occupied_project : node :=
  in_base_dir [(lit "txtexport_flattened", File true [])].

(** A project whose output directory holds directories under the names of
    the index and of the combined file. *)
Definition blocked_project : node :=
  in_base_dir
    [(lit "prompt_file_list.txt", File true (manifest_bytes [lit "fileB.py"]));
     (lit "fileB.py", File true (bytes_of (lit "print(1)")));
     (lit "txtexport_flattened",
      Dir [(lit "all_files_combined.txt", Dir []);
           (lit "project_file_system.txt", Dir [])])].

(** * The properties *)

Unset Implicit Arguments.

Lemma str_eqb_eq (a b : pystr) : str_eqb a b = true <-> a = b.
Proof.
  revert b; induction a as [|x a IH]; intros [|y b]; simpl; split; intro H;
    try discriminate; try reflexivity.
  - apply andb_true_iff in H as [H1 H2]. apply N.eqb_eq in H1. apply IH in H2. congruence.
  - inversion H; subst. rewrite N.eqb_refl. simpl. now apply IH.
Qed.

Lemma str_eqb_refl (a : pystr) : str_eqb a a = true.
Proof. now apply str_eqb_eq. Qed.

Lemma str_eqb_neq (a b : pystr) : str_eqb a b = false <-> a <> b.
Proof.
  split; intro H.
  - intro E. apply str_eqb_eq in E. congruence.
  - destruct (str_eqb a b) eqn:E; [apply str_eqb_eq in E; contradiction | reflexivity].
Qed.

(** *** Stripping and line splitting *)

Lemma lstrip_spaces ws b :
  forallb isspace ws = true -> starts_nonspace b = true -> lstrip (ws ++ b) = b.
Proof.
  intros Hws Hb. induction ws as [|c ws IH]; simpl in *.
  - destruct b as [|c b]; [discriminate|]. simpl in *.
    now destruct (isspace c).
  - apply andb_true_iff in Hws as [Hc Hws]. rewrite Hc. auto.
Qed.

Lemma forallb_rev' (f : N -> bool) l : forallb f (rev l) = forallb f l.
Proof.
  induction l as [|c l IH]; [reflexivity|].
  simpl. rewrite forallb_app, IH. simpl. rewrite andb_true_r. apply andb_comm.
Qed.

Lemma starts_nonspace_app a b :
  starts_nonspace a = true -> starts_nonspace (a ++ b) = true.
Proof. now destruct a. Qed.

Lemma strip_padded ws1 b ws2 :
  forallb isspace ws1 = true -> forallb isspace ws2 = true ->
  starts_nonspace b = true -> ends_nonspace b = true ->
  strip (ws1 ++ b ++ ws2) = b.
Proof.
  intros H1 H2 Hs He. unfold strip, rstrip.
  rewrite (lstrip_spaces ws1 (b ++ ws2) H1 (starts_nonspace_app b ws2 Hs)).
  rewrite rev_app_distr, lstrip_spaces.
  - apply rev_involutive.
  - now rewrite forallb_rev'.
  - exact He.
Qed.

Lemma splitlines_line x r :
  no_linebreak x = true -> splitlines (x ++ LF :: r) = x :: splitlines r.
Proof.
  induction x as [|c x IH]; simpl; intro H.
  - reflexivity.
  - apply andb_true_iff in H as [Hc Hx]. apply negb_true_iff in Hc.
    rewrite Hc, IH by assumption. reflexivity.
Qed.

Lemma splitlines_single x :
  no_linebreak x = true -> x <> [] -> splitlines x = [x].
Proof.
  induction x as [|c x IH]; simpl; intros H Hne; [congruence|].
  apply andb_true_iff in H as [Hc Hx]. apply negb_true_iff in Hc. rewrite Hc.
  destruct x as [|d x]; [reflexivity|].
  rewrite IH by (auto; discriminate). reflexivity.
Qed.

Lemma splitlines_join_lines lines :
  forallb no_linebreak lines = true -> last lines [] <> [] ->
  splitlines (join_lines lines) = lines.
Proof.
  induction lines as [|x t IH]; intros H Hl; [reflexivity|].
  simpl in H. apply andb_true_iff in H as [Hx Ht].
  destruct t as [|y t].
  - simpl in *. now apply splitlines_single.
  - change (join_lines (x :: y :: t)) with (x ++ LF :: join_lines (y :: t)).
    rewrite splitlines_line by assumption. f_equal. apply IH; assumption.
Qed.

Lemma join_lines_hd x t : exists r, join_lines (x :: t) = x ++ r.
Proof.
  destruct t as [|y t].
  - exists []. simpl. now rewrite app_nil_r.
  - exists (LF :: join_lines (y :: t)). reflexivity.
Qed.

Lemma join_lines_last lines : exists p, join_lines lines = p ++ last lines [].
Proof.
  induction lines as [|x t IH]; [now exists []|].
  destruct t as [|y t].
  - now exists [].
  - destruct IH as [p Hp]. exists (x ++ LF :: p).
    change (join_lines (x :: y :: t)) with (x ++ LF :: join_lines (y :: t)).
    rewrite Hp, <- app_assoc. reflexivity.
Qed.

Lemma entries_of_padded_lines ws1 lines ws2 :
  forallb isspace ws1 = true -> forallb isspace ws2 = true ->
  forallb no_linebreak lines = true ->
  starts_nonspace (hd [] lines) = true ->
  ends_nonspace (last lines []) = true ->
  splitlines (strip (ws1 ++ join_lines lines ++ ws2)) = lines.
Proof.
  intros H1 H2 Hl Hs He.
  assert (Hlast : last lines [] <> []) by (intro E; rewrite E in He; discriminate).
  rewrite strip_padded; auto.
  - now apply splitlines_join_lines.
  - destruct lines as [|x t]; [discriminate|].
    destruct (join_lines_hd x t) as [r ->]. now apply starts_nonspace_app.
  - destruct (join_lines_last lines) as [p ->].
    unfold ends_nonspace in *. rewrite rev_app_distr. now apply starts_nonspace_app.
Qed.

(** *** Paths *)

Lemma fields_nonnil s : fields s <> [].
Proof.
  destruct s as [|c s]; simpl; [discriminate|].
  destruct (is_sep c); [discriminate|]. destruct (fields s); discriminate.
Qed.

Lemma fields_app_sep a c b :
  is_sep c = true -> fields (a ++ c :: b) = fields a ++ fields b.
Proof.
  intro Hc. induction a as [|x a IH]; simpl.
  - now rewrite Hc.
  - destruct (is_sep x); [now rewrite IH|].
    rewrite IH. destruct (fields a) eqn:E; [now apply fields_nonnil in E|reflexivity].
Qed.

Lemma fields_sep_free n : sep_free n = true -> fields n = [n].
Proof.
  induction n as [|c n IH]; simpl; intro H; [reflexivity|].
  apply andb_true_iff in H as [Hc Hn]. apply negb_true_iff in Hc.
  now rewrite Hc, IH.
Qed.

Lemma plain_sep_free n : plain n = true -> sep_free n = true.
Proof.
  unfold plain, sep_free. intro H. apply andb_true_iff in H as [_ H].
  rewrite forallb_forall in *. intros c Hc. specialize (H c Hc).
  now apply andb_true_iff in H as [H _].
Qed.

Lemma plain_nonempty n : plain n = true -> n <> [].
Proof. destruct n; [discriminate|discriminate]. Qed.

Lemma valid_name_plain n : valid_name n = true -> plain n = true.
Proof.
  unfold valid_name. intro H. apply andb_true_iff in H as [H _].
  now apply andb_true_iff in H as [H _].
Qed.

Lemma plain_splitdrive n : plain n = true -> splitdrive n = ([], n).
Proof.
  unfold plain. intro H. apply andb_true_iff in H as [_ H].
  destruct n as [|a [|b n]]; try reflexivity.
  simpl in H. repeat (apply andb_true_iff in H as [? H]).
  repeat match goal with
         | H : negb _ = true |- _ => apply negb_true_iff in H
         | H : (_ && _) = true |- _ => apply andb_true_iff in H as [? ?]
         end.
  unfold splitdrive.
  replace (is_sep a) with false by congruence. simpl.
  replace (b =? COLON) with false by congruence. reflexivity.
Qed.

Lemma plain_starts n : plain n = true -> starts_with_sep n = false.
Proof.
  unfold plain. intro H. apply andb_true_iff in H as [_ H].
  destruct n as [|a n]; [reflexivity|]. simpl in *.
  apply andb_true_iff in H as [H _]. apply andb_true_iff in H as [H _].
  now apply negb_true_iff in H.
Qed.

Lemma resolve_on_volume p cs :
  resolve p = Some cs <-> exists rest, on_volume p rest /\ cs = components rest.
Proof.
  unfold resolve, on_volume. split.
  - destruct p as [|d [|c rest]]; try discriminate.
    destruct (((d =? 99) || (d =? 67)) && (c =? COLON) && starts_with_sep rest) eqn:E;
      [|discriminate].
    intro H; inversion H; subst.
    apply andb_true_iff in E as [E E3]. apply andb_true_iff in E as [E1 E2].
    apply N.eqb_eq in E2; subst c.
    exists rest. split; [|reflexivity]. exists d. repeat split; auto.
    apply orb_true_iff in E1 as [E1|E1]; apply N.eqb_eq in E1; auto.
  - intros (rest & (d & -> & Hd & Hs) & ->).
    rewrite Hs. destruct Hd as [-> | ->]; reflexivity.
Qed.

Lemma on_volume_splitdrive p rest :
  on_volume p rest -> exists d, p = d :: COLON :: rest /\ splitdrive p = ([d; COLON], rest).
Proof.
  intros (d & -> & Hd & Hs). exists d. split; [reflexivity|].
  destruct Hd as [-> | ->]; reflexivity.
Qed.

Lemma starts_nonempty s : starts_with_sep s = true -> nonempty s = true.
Proof. now destruct s. Qed.

Lemma starts_app s t : starts_with_sep s = true -> starts_with_sep (s ++ t) = true.
Proof. now destruct s. Qed.

(** Joining a plain name to a rooted path puts one separator between them. *)
Lemma join_on_volume p rest n :
  on_volume p rest -> plain n = true ->
  join p n = p ++ (if ends_with_sep rest then [] else [BACKSLASH]) ++ n
  /\ on_volume (join p n) ((if ends_with_sep rest then rest else rest ++ [BACKSLASH]) ++ n).
Proof.
  intros Hp Hn.
  destruct (on_volume_splitdrive _ _ Hp) as (d & -> & Hsd).
  destruct Hp as (d' & E & Hd & Hs). inversion E; subst d'. clear E.
  assert (J : join (d :: COLON :: rest) n
              = d :: COLON :: (if ends_with_sep rest then rest else rest ++ [BACKSLASH]) ++ n).
  { unfold join. rewrite Hsd, (plain_splitdrive _ Hn), (plain_starts _ Hn). simpl.
    rewrite (starts_nonempty _ Hs). simpl.
    destruct (ends_with_sep rest); simpl; now rewrite ?andb_false_r. }
  split.
  - rewrite J. destruct (ends_with_sep rest); simpl; [reflexivity|].
    now rewrite <- app_assoc.
  - rewrite J. exists d. repeat split; auto.
    destruct (ends_with_sep rest); [now apply starts_app|].
    rewrite <- app_assoc. now apply starts_app.
Qed.

Lemma ends_with_sep_split s :
  ends_with_sep s = true -> exists a c, s = a ++ [c] /\ is_sep c = true.
Proof.
  unfold ends_with_sep. intro H.
  destruct (rev s) as [|c r] eqn:E; [discriminate|].
  exists (rev r), c. split; [|exact H].
  rewrite <- (rev_involutive s), E. reflexivity.
Qed.

Lemma components_snoc_sep a c :
  is_sep c = true -> components (a ++ [c]) = components a.
Proof.
  intro Hc. unfold components. rewrite (fields_app_sep a _ [] Hc), fold_left_app. reflexivity.
Qed.

Lemma components_app_name a c n :
  is_sep c = true -> sep_free n = true ->
  components (a ++ c :: n) = fold_comp (components a) n.
Proof.
  intros Hc Hn. unfold components.
  rewrite (fields_app_sep a _ n Hc), fold_left_app, (fields_sep_free _ Hn). reflexivity.
Qed.

Lemma is_sep_BACKSLASH : is_sep BACKSLASH = true.
Proof. reflexivity. Qed.

(** The node a joined path names: one lexical step from the node of the
    first. *)
Lemma resolve_join p cs n :
  resolve p = Some cs -> plain n = true ->
  resolve (join p n) = Some (fold_comp cs n).
Proof.
  intros Hp Hn. apply resolve_on_volume in Hp as (rest & Hv & ->).
  destruct (join_on_volume _ _ _ Hv Hn) as [_ Hj].
  apply resolve_on_volume. eexists; split; [exact Hj|].
  pose proof (plain_sep_free _ Hn) as Hf.
  destruct (ends_with_sep rest) eqn:E.
  - apply ends_with_sep_split in E as (a & c & -> & Hc).
    rewrite <- app_assoc. simpl.
    now rewrite (components_app_name a _ _ Hc Hf), (components_snoc_sep a _ Hc).
  - rewrite <- app_assoc. simpl. now rewrite (components_app_name rest _ _ is_sep_BACKSLASH Hf).
Qed.

Lemma fold_comp_valid cs n : valid_name n = true -> fold_comp cs n = cs ++ [n].
Proof.
  unfold valid_name, fold_comp. intro H.
  apply andb_true_iff in H as [H H2]. apply andb_true_iff in H as [H H1].
  apply negb_true_iff in H1, H2. rewrite H1, H2.
  unfold plain in H. apply andb_true_iff in H as [H _]. now rewrite H.
Qed.

Lemma resolve_join_name p cs n :
  resolve p = Some cs -> valid_name n = true ->
  resolve (join p n) = Some (cs ++ [n]).
Proof.
  intros Hp Hn. rewrite (resolve_join _ _ _ Hp (valid_name_plain _ Hn)).
  now rewrite fold_comp_valid.
Qed.

(** *** The tree *)

Lemma find_set_entry_same k m es : find_entry k (set_entry k m es) = Some m.
Proof.
  induction es as [|[k' x] es IH]; simpl.
  - now rewrite str_eqb_refl.
  - destruct (str_eqb k k') eqn:E; simpl; rewrite E; auto.
Qed.

Lemma find_set_entry_other k k' m es :
  k <> k' -> find_entry k (set_entry k' m es) = find_entry k es.
Proof.
  intro H. induction es as [|[j x] es IH]; simpl.
  - apply str_eqb_neq in H. now rewrite H.
  - destruct (str_eqb k' j) eqn:E; simpl.
    + apply str_eqb_eq in E; subst j. apply str_eqb_neq in H. now rewrite H.
    + destruct (str_eqb k j); auto.
Qed.

Lemma lookup_app n a b :
  lookup n (a ++ b) = match lookup n a with Some m => lookup m b | None => None end.
Proof.
  revert n; induction a as [|c a IH]; intro n; simpl; [reflexivity|].
  destruct n as [r d|es]; [reflexivity|].
  destruct (find_entry c es); auto.
Qed.

Lemma place_lookup_same cs : forall n m n',
  place n cs m = Some n' -> lookup n' cs = Some m.
Proof.
  induction cs as [|c cs IH]; intros n m n' H; simpl in *.
  - congruence.
  - destruct n as [r d|es]; [discriminate|].
    destruct cs as [|c2 cs].
    + inversion H; subst. simpl. now rewrite find_set_entry_same.
    + destruct (find_entry c es) as [x|] eqn:E; [|discriminate].
      destruct (place x (c2 :: cs) m) as [x'|] eqn:P; [|discriminate].
      inversion H; subst. simpl lookup at 1. rewrite find_set_entry_same.
      eapply IH; eauto.
Qed.

Lemma place_lookup_other cs : forall n m n' p,
  place n cs m = Some n' -> prefixb p cs = false -> prefixb cs p = false ->
  lookup n' p = lookup n p.
Proof.
  induction cs as [|c cs IH]; intros n m n' p H Hp Hc.
  - discriminate.
  - destruct p as [|x p]; [discriminate|].
    simpl in H. destruct n as [r d|es]; [discriminate|].
    simpl in Hp, Hc.
    destruct (str_eqb x c) eqn:Exc.
    + apply str_eqb_eq in Exc; subst x. rewrite str_eqb_refl in Hc. simpl in Hp, Hc.
      destruct cs as [|c2 cs]; [discriminate|].
      destruct (find_entry c es) as [y|] eqn:E; [|discriminate].
      destruct (place y (c2 :: cs) m) as [y'|] eqn:P; [|discriminate].
      inversion H; subst. simpl. rewrite find_set_entry_same, E.
      eapply IH; eauto.
    + assert (x <> c) by now apply str_eqb_neq.
      assert (Hes : exists es', n' = Dir (set_entry c es' es)).
      { destruct cs as [|c2 cs]; [inversion H; eauto|].
        destruct (find_entry c es); [|discriminate].
        destruct (place _ _ _); inversion H; eauto. }
      destruct Hes as [es' ->]. simpl. now rewrite find_set_entry_other.
Qed.

(** *** Relative paths *)

Lemma plain_relative n : plain n = true -> relative n.
Proof. intro H. split; [now apply plain_splitdrive | now apply plain_starts]. Qed.

Lemma join_relative p rest x :
  on_volume p rest -> relative x ->
  on_volume (join p x) ((if ends_with_sep rest then rest else rest ++ [BACKSLASH]) ++ x).
Proof.
  intros Hp [Hx1 Hx2].
  destruct (on_volume_splitdrive _ _ Hp) as (d & -> & Hsd).
  destruct Hp as (d' & E & Hd & Hs). inversion E; subst d'. clear E.
  assert (J : join (d :: COLON :: rest) x
              = d :: COLON :: (if ends_with_sep rest then rest else rest ++ [BACKSLASH]) ++ x).
  { unfold join. rewrite Hsd, Hx1, Hx2. simpl.
    rewrite (starts_nonempty _ Hs). simpl.
    destruct (ends_with_sep rest); simpl; now rewrite ?andb_false_r. }
  rewrite J. exists d. repeat split; auto.
  destruct (ends_with_sep rest); [now apply starts_app|].
  rewrite <- app_assoc. now apply starts_app.
Qed.

Lemma components_app_sep a c x :
  is_sep c = true ->
  components (a ++ c :: x) = fold_left fold_comp (fields x) (components a).
Proof.
  intro Hc. unfold components. now rewrite (fields_app_sep a _ x Hc), fold_left_app.
Qed.

(** The node a joined path names: the lexical steps of the second path,
    taken from the node of the first. *)
Lemma resolve_join_relative p cs x :
  resolve p = Some cs -> relative x ->
  resolve (join p x) = Some (fold_left fold_comp (fields x) cs).
Proof.
  intros Hp Hx. apply resolve_on_volume in Hp as (rest & Hv & ->).
  pose proof (join_relative _ _ _ Hv Hx) as Hj.
  apply resolve_on_volume. eexists; split; [exact Hj|].
  destruct (ends_with_sep rest) eqn:E.
  - apply ends_with_sep_split in E as (a & c & -> & Hc).
    rewrite <- app_assoc. simpl.
    now rewrite (components_app_sep a _ x Hc), (components_snoc_sep a _ Hc).
  - rewrite <- app_assoc. simpl. now rewrite (components_app_sep rest _ x is_sep_BACKSLASH).
Qed.

Lemma splitdrive_plain_head x t :
  plain x = true -> t = [] \/ starts_with_sep t = true ->
  splitdrive (x ++ t) = ([], x ++ t).
Proof.
  intros Hx Ht. destruct x as [|a x]; [discriminate|].
  unfold plain in Hx. simpl in Hx.
  apply andb_true_iff in Hx as [Ha Hx]. apply andb_true_iff in Ha as [Ha1 Ha2].
  apply negb_true_iff in Ha1.
  destruct x as [|b x].
  - destruct Ht as [-> | Ht]; [reflexivity|].
    destruct t as [|c t]; [discriminate|]. simpl in *.
    unfold splitdrive. rewrite Ha1. simpl.
    replace (c =? COLON) with false; [reflexivity|].
    unfold is_sep in Ht. apply orb_true_iff in Ht as [Ht|Ht]; apply N.eqb_eq in Ht; now subst.
  - simpl in Hx. apply andb_true_iff in Hx as [Hb _]. apply andb_true_iff in Hb as [_ Hb].
    apply negb_true_iff in Hb. simpl. unfold splitdrive. rewrite Ha1, Hb. reflexivity.
Qed.

Lemma sep_join_cons c x y t : sep_join c (x :: y :: t) = x ++ c :: sep_join c (y :: t).
Proof. reflexivity. Qed.

Lemma sep_join_relative c l :
  is_sep c = true -> l <> [] -> forallb plain l = true -> relative (sep_join c l).
Proof.
  intros Hc Hl H. destruct l as [|x [|y t]]; [congruence| |].
  - simpl in *. apply andb_true_iff in H as [H _]. now apply plain_relative.
  - rewrite sep_join_cons. simpl in H. apply andb_true_iff in H as [Hx _]. split.
    + apply splitdrive_plain_head; auto.
    + destruct x; [discriminate|]. now apply plain_starts in Hx.
Qed.

Lemma fields_sep_join c l :
  is_sep c = true -> l <> [] -> forallb sep_free l = true -> fields (sep_join c l) = l.
Proof.
  intros Hc. induction l as [|x t IH]; intros Hl H; [congruence|].
  simpl in H. apply andb_true_iff in H as [Hx Ht].
  destruct t as [|y t].
  - simpl. now apply fields_sep_free.
  - rewrite sep_join_cons, (fields_app_sep x _ _ Hc), (fields_sep_free _ Hx).
    simpl. f_equal. apply IH; [discriminate|assumption].
Qed.

(** Appending to a path that has no drive and does not end in a separator. *)
Lemma join_plain_tail x t n :
  plain x = true -> t = [] \/ starts_with_sep t = true ->
  ends_with_sep (x ++ t) = false -> plain n = true ->
  join (x ++ t) n = (x ++ t) ++ BACKSLASH :: n.
Proof.
  intros Hx Ht He Hn. unfold join.
  rewrite (splitdrive_plain_head _ _ Hx Ht), (plain_splitdrive _ Hn), (plain_starts _ Hn).
  simpl. rewrite He.
  assert (Hne : nonempty (x ++ t) = true) by (destruct x; [discriminate|reflexivity]).
  rewrite Hne. simpl. rewrite andb_false_r. simpl. now rewrite <- app_assoc.
Qed.

Lemma ends_with_sep_app a b : b <> [] -> ends_with_sep (a ++ b) = ends_with_sep b.
Proof.
  intro Hb. unfold ends_with_sep. rewrite rev_app_distr.
  destruct (rev b) eqn:E; [|reflexivity].
  apply (f_equal (@rev N)) in E. rewrite rev_involutive in E. contradiction.
Qed.

Lemma plain_ends n : plain n = true -> ends_with_sep n = false.
Proof.
  intro H. pose proof (plain_sep_free _ H) as Hf. unfold sep_free in Hf.
  unfold ends_with_sep. destruct (rev n) as [|c r] eqn:E.
  - reflexivity.
  - simpl. rewrite forallb_forall in Hf. apply negb_true_iff, Hf.
    apply in_rev. rewrite E. now left.
Qed.

Lemma fold_join_sep_join l : forall x t,
  plain x = true -> t = [] \/ starts_with_sep t = true ->
  ends_with_sep (x ++ t) = false -> forallb plain l = true ->
  fold_left join l (x ++ t) = sep_join BACKSLASH ((x ++ t) :: l).
Proof.
  induction l as [|n l IH]; intros x t Hx Ht He Hl; [reflexivity|].
  simpl in Hl. apply andb_true_iff in Hl as [Hn Hl].
  simpl fold_left. rewrite (join_plain_tail _ _ _ Hx Ht He Hn).
  rewrite <- app_assoc. rewrite IH; auto.
  - rewrite sep_join_cons.
    destruct l as [|m l]; simpl; now rewrite <- ?app_assoc.
  - right. destruct t; [reflexivity|].
    destruct Ht as [Ht|Ht]; [discriminate|exact Ht].
  - rewrite app_assoc, ends_with_sep_app by discriminate.
    change (BACKSLASH :: n) with ([BACKSLASH] ++ n).
    rewrite ends_with_sep_app by now apply plain_nonempty.
    now apply plain_ends.
Qed.

Lemma join_all_plain l :
  forallb plain l = true -> join_all l = sep_join BACKSLASH l.
Proof.
  destruct l as [|x l]; [reflexivity|]. simpl forallb. intro H.
  apply andb_true_iff in H as [Hx Hl]. unfold join_all.
  rewrite <- (app_nil_r x) at 1. rewrite fold_join_sep_join; auto.
  - now rewrite app_nil_r.
  - rewrite app_nil_r. now apply plain_ends.
Qed.

Lemma common_prefix_firstn a : forall b,
  List.map normcase (firstn (common_prefix_length a b) a)
  = List.map normcase (firstn (common_prefix_length a b) b)
  /\ (common_prefix_length a b <= List.length a)%nat.
Proof.
  induction a as [|x a IH]; intros [|y b]; simpl; try (split; [reflexivity|lia]).
  destruct (str_eqb (normcase x) (normcase y)) eqn:E; [|split; [reflexivity|lia]].
  apply str_eqb_eq in E. destruct (IH b) as [H1 H2].
  simpl. split; [now rewrite E, H1|lia].
Qed.

Lemma fold_comp_pardir B : fold_comp B pardir = removelast B.
Proof. reflexivity. Qed.

Lemma fold_pardir k : forall B,
  fold_left fold_comp (repeat pardir k) B = firstn (List.length B - k) B.
Proof.
  induction k as [|k IH]; intro B; simpl.
  - now rewrite Nat.sub_0_r, firstn_all.
  - rewrite fold_comp_pardir, IH, removelast_firstn_len, firstn_firstn.
    rewrite length_firstn. f_equal. lia.
Qed.

Lemma fold_valid names : forall B,
  forallb valid_name names = true -> fold_left fold_comp names B = B ++ names.
Proof.
  induction names as [|n names IH]; intros B H; simpl.
  - now rewrite app_nil_r.
  - simpl in H. apply andb_true_iff in H as [Hn H].
    rewrite (fold_comp_valid _ _ Hn), IH by assumption. now rewrite <- app_assoc.
Qed.

Lemma replace_backslash_sep_free x : sep_free x = true -> replace_backslash x = x.
Proof.
  unfold sep_free, replace_backslash. induction x as [|c x IH]; simpl; intro H; [reflexivity|].
  apply andb_true_iff in H as [Hc Hx]. rewrite IH by assumption.
  apply negb_true_iff in Hc. unfold is_sep in Hc. apply orb_false_iff in Hc as [Hc _].
  now rewrite Hc.
Qed.

Lemma replace_backslash_sep_join l :
  forallb sep_free l = true ->
  replace_backslash (sep_join BACKSLASH l) = sep_join SLASH l.
Proof.
  induction l as [|x t IH]; intro H; [reflexivity|].
  simpl in H. apply andb_true_iff in H as [Hx Ht].
  destruct t as [|y t].
  - simpl. now apply replace_backslash_sep_free.
  - rewrite !sep_join_cons.
    assert (E : forall a b, replace_backslash (a ++ BACKSLASH :: b)
                            = replace_backslash a ++ SLASH :: replace_backslash b)
      by (intros; unfold replace_backslash; now rewrite map_app).
    now rewrite E, IH, replace_backslash_sep_free.
Qed.

Lemma forallb_impl {A} (f g : A -> bool) l :
  (forall x, f x = true -> g x = true) -> forallb f l = true -> forallb g l = true.
Proof.
  intros Hfg H. rewrite forallb_forall in *. auto.
Qed.

Lemma forallb_skipn {A} (f : A -> bool) n l :
  forallb f l = true -> forallb f (skipn n l) = true.
Proof.
  intro H. rewrite forallb_forall in *. intros x Hx. apply H.
  rewrite <- (firstn_skipn n l). apply in_or_app. now right.
Qed.

Lemma forallb_repeat {A} (f : A -> bool) x n :
  f x = true -> forallb f (repeat x n) = true.
Proof. intro H. induction n; simpl; [reflexivity|now rewrite H]. Qed.

Lemma relative_list_plain B P :
  forallb valid_name P = true -> forallb plain (relative_list B P) = true.
Proof.
  intro H. unfold relative_list. rewrite forallb_app. apply andb_true_iff. split.
  - now apply forallb_repeat.
  - apply forallb_skipn. eapply forallb_impl; [|exact H]. apply valid_name_plain.
Qed.

(** Where the components of [relpath] lead from the start: to the path, but
    for the spelling of the components the two share. *)
Lemma fold_relative_list B P :
  forallb valid_name P = true ->
  fold_left fold_comp (relative_list B P) B
  = firstn (common_prefix_length B P) B ++ skipn (common_prefix_length B P) P.
Proof.
  intro H. unfold relative_list.
  destruct (common_prefix_firstn B P) as [_ H2].
  rewrite fold_left_app, fold_pardir, fold_valid by now apply forallb_skipn.
  replace (List.length B - (List.length B - common_prefix_length B P))%nat
    with (common_prefix_length B P) by lia.
  reflexivity.
Qed.

(** The text [relpath] returns, with its separators replaced, leads from the
    start back to the path. *)
Lemma relative_to_resolves start B P :
  resolve start = Some B -> forallb valid_name P = true ->
  resolve (join start (replace_backslash (relative_to B P)))
  = Some (firstn (common_prefix_length B P) B ++ skipn (common_prefix_length B P) P)
  /\ replace_backslash (relative_to B P)
     = match relative_list B P with [] => curdir | l => sep_join SLASH l end.
Proof.
  intros Hs HP. pose proof (fold_relative_list B P HP) as Hf.
  pose proof (relative_list_plain B P HP) as Hpl.
  unfold relative_to. destruct (relative_list B P) as [|x l] eqn:E.
  - split; [|reflexivity]. simpl in Hf. rewrite <- Hf.
    change (replace_backslash curdir) with curdir.
    now rewrite (resolve_join _ _ curdir Hs).
  - rewrite join_all_plain by assumption.
    assert (Hsf : forallb sep_free (x :: l) = true)
      by (eapply forallb_impl; [|exact Hpl]; apply plain_sep_free).
    rewrite replace_backslash_sep_join by assumption.
    split; [|reflexivity].
    rewrite (resolve_join_relative _ _ _ Hs).
    + rewrite fields_sep_join; [now rewrite Hf|reflexivity|discriminate|assumption].
    + apply sep_join_relative; [reflexivity|discriminate|assumption].
Qed.

Lemma sep_join_no_backslash l :
  forallb sep_free l = true ->
  forallb (fun c => negb (c =? BACKSLASH)) (sep_join SLASH l) = true.
Proof.
  assert (Hx : forall x, sep_free x = true ->
                 forallb (fun c => negb (c =? BACKSLASH)) x = true).
  { intros x. unfold sep_free. apply forallb_impl. intros c Hc.
    apply negb_true_iff in Hc. unfold is_sep in Hc. apply orb_false_iff in Hc as [Hc _].
    now rewrite Hc. }
  induction l as [|x t IH]; intro H; [reflexivity|].
  simpl in H. apply andb_true_iff in H as [H1 H2].
  destruct t as [|y t]; [now apply Hx|].
  rewrite sep_join_cons, forallb_app. rewrite (Hx x H1). simpl forallb at 1.
  change (negb (SLASH =? BACKSLASH)) with true. simpl. now apply IH.
Qed.

(** *** More on the tree *)

Lemma prefixb_spec a : forall b, prefixb a b = true <-> exists r, b = a ++ r.
Proof.
  induction a as [|x a IH]; intros b; simpl.
  - split; [intros _; now exists b | reflexivity].
  - destruct b as [|y b].
    + split; [discriminate | intros [r Hr]; discriminate].
    + rewrite andb_true_iff, str_eqb_eq, IH. split.
      * intros [-> [r ->]]. now exists r.
      * intros [r Hr]. inversion Hr; subst. split; [reflexivity | now exists r].
Qed.

Lemma prefixb_refl a : prefixb a a = true.
Proof. apply prefixb_spec. exists []. now rewrite app_nil_r. Qed.

Lemma lookup_below_file n a b r d :
  lookup n a = Some (File r d) -> prefixb a b = true -> a <> b -> lookup n b = None.
Proof.
  intros Ha Hp Hne. apply prefixb_spec in Hp as [t ->].
  rewrite lookup_app, Ha. destruct t; [now rewrite app_nil_r in Hne|reflexivity].
Qed.

Lemma files_apart n a b r d r' d' :
  lookup n a = Some (File r d) -> lookup n b = Some (File r' d') -> a <> b ->
  prefixb a b = false /\ prefixb b a = false.
Proof.
  intros Ha Hb Hne. split.
  - destruct (prefixb a b) eqn:E; [|reflexivity].
    rewrite (lookup_below_file _ _ _ _ _ Ha E Hne) in Hb. discriminate.
  - destruct (prefixb b a) eqn:E; [|reflexivity].
    rewrite (lookup_below_file _ _ _ _ _ Hb E (not_eq_sym Hne)) in Ha. discriminate.
Qed.

Lemma place_child cs : forall n es k m,
  lookup n cs = Some (Dir es) ->
  place n (cs ++ [k]) m
  = match cs with
    | [] => Some (Dir (set_entry k m es))
    | _ => place n cs (Dir (set_entry k m es))
    end.
Proof.
  induction cs as [|c cs IH]; intros n es k m H.
  - simpl in *. inversion H; subst. reflexivity.
  - simpl in H. destruct n as [r d|es0]; [discriminate|].
    destruct (find_entry c es0) as [x|] eqn:E; [|discriminate].
    simpl app. simpl place. rewrite E.
    destruct cs as [|c2 cs].
    + simpl in *. inversion H; subst. reflexivity.
    + rewrite (IH x es k m H). reflexivity.
Qed.

Lemma place_child_some cs n es k m :
  lookup n cs = Some (Dir es) ->
  exists n', place n (cs ++ [k]) m = Some n'
    /\ lookup n' cs = Some (Dir (set_entry k m es))
    /\ lookup n' (cs ++ [k]) = Some m.
Proof.
  intro H. rewrite (place_child cs n es k m H).
  destruct cs as [|c cs].
  - simpl in H. inversion H; subst. eexists; split; [reflexivity|].
    split; [reflexivity|]. simpl. now rewrite find_set_entry_same.
  - assert (E : exists n', place n (c :: cs) (Dir (set_entry k m es)) = Some n').
    { clear -H. revert n H. generalize (Dir (set_entry k m es)) as x.
      induction (c :: cs) as [|a l IH]; intros x n H; [simpl; eauto|].
      simpl in H. destruct n as [r d|es0]; [discriminate|].
      destruct (find_entry a es0) as [y|] eqn:E; [|discriminate].
      simpl. destruct l as [|c2 l]; [eauto|].
      rewrite E. destruct (IH x y H) as [y' ->]. eauto. }
    destruct E as [n' E]. exists n'. split; [exact E|].
    pose proof (place_lookup_same _ _ _ _ E) as Hl. split; [exact Hl|].
    rewrite lookup_app, Hl. simpl. now rewrite find_set_entry_same.
Qed.

Lemma place_some cs : forall n m x,
  lookup n cs = Some x -> exists n', place n cs m = Some n'.
Proof.
  induction cs as [|c cs IH]; intros n m x H; [simpl; eauto|].
  simpl in H. destruct n as [r d|es0]; [discriminate|].
  destruct (find_entry c es0) as [y|] eqn:E; [|discriminate].
  simpl. destruct cs as [|c2 cs]; [eauto|].
  rewrite E. destruct (IH y m x H) as [y' ->]. eauto.
Qed.

(** *** Actions on files *)

Lemma ends_with_sep_last p c : ends_with_sep (p ++ [c]) = is_sep c.
Proof. unfold ends_with_sep. now rewrite rev_app_distr. Qed.

Lemma node_at_file n p r d :
  node_at n p = Some (File r d) ->
  exists cs, resolve p = Some cs /\ lookup n cs = Some (File r d) /\ ends_with_sep p = false.
Proof.
  unfold node_at. destruct (resolve p) as [cs|]; [|discriminate].
  destruct (lookup n cs) as [[r' d'|es]|] eqn:E; try discriminate.
  destruct (ends_with_sep p); [discriminate|]. intro H; inversion H; subst. eauto.
Qed.

Lemma node_at_dir n p es :
  node_at n p = Some (Dir es) <-> exists cs, resolve p = Some cs /\ lookup n cs = Some (Dir es).
Proof.
  unfold node_at. split.
  - destruct (resolve p) as [cs|]; [|discriminate].
    destruct (lookup n cs) as [[r' d'|es']|] eqn:E.
    + destruct (ends_with_sep p); discriminate.
    + intro H; inversion H; subst. eauto.
    + discriminate.
  - intros (cs & -> & ->). reflexivity.
Qed.

Lemma lookup_removelast n cs m :
  lookup n cs = Some m -> cs <> [] -> exists es, lookup n (removelast cs) = Some (Dir es).
Proof.
  intros H Hne. destruct (exists_last Hne) as (cs' & k & ->).
  rewrite removelast_last. rewrite lookup_app in H.
  destruct (lookup n cs') as [[r d|es]|]; try discriminate. eauto.
Qed.

Lemma apart_sym a b : apart a b = apart b a.
Proof. unfold apart. apply andb_comm. Qed.

Lemma apart_spec a b :
  apart a b = true <-> prefixb a b = false /\ prefixb b a = false.
Proof.
  unfold apart. rewrite andb_true_iff, !negb_true_iff. reflexivity.
Qed.

(** Writing a file that is there: only its bytes change. *)
Lemma store_existing {L} (s : state L) p r0 d0 d :
  node_at (fs s) p = Some (File r0 d0) ->
  exists n', store p d s = (mkState n' (stdout s) (locals s), Ok tt)
    /\ node_at n' p = Some (File r0 d)
    /\ (forall q r1 d1, node_at (fs s) q = Some (File r1 d1) ->
          resolve q <> resolve p -> node_at n' q = Some (File r1 d1))
    /\ (forall q cq cp, resolve q = Some cq -> resolve p = Some cp ->
          apart cq cp = true -> node_at n' q = node_at (fs s) q).
Proof.
  intro H. destruct (node_at_file _ _ _ _ H) as (cs & Hr & Hl & He).
  destruct (place_some cs (fs s) (File r0 d) _ Hl) as [n' Hn'].
  exists n'. cbv [store bind get]. rewrite Hr, Hl, He, Hn'. split; [reflexivity|].
  split; [|split].
  - unfold node_at. now rewrite Hr, (place_lookup_same _ _ _ _ Hn'), He.
  - intros q r1 d1 Hq Hne.
    destruct (node_at_file _ _ _ _ Hq) as (cq & Hrq & Hlq & Heq).
    assert (Hc : cq <> cs) by (intro; subst; now apply Hne).
    destruct (files_apart _ _ _ _ _ _ _ Hlq Hl Hc) as [A1 A2].
    unfold node_at. rewrite Hrq.
    destruct cs as [|c0 cs'].
    + destruct cq; [congruence|discriminate].
    + now rewrite (place_lookup_other _ _ _ _ _ Hn' A1 A2), Hlq, Heq.
  - intros q cq cp Hrq Hrp Ha. inversion Hrp; subst cp.
    apply apart_spec in Ha as [A1 A2].
    unfold node_at. rewrite Hrq.
    destruct cs as [|c0 cs']; [destruct cq; discriminate|].
    now rewrite (place_lookup_other _ _ _ _ _ Hn' A1 A2).
Qed.

Lemma set_entry_same k m es : find_entry k es = Some m -> set_entry k m es = es.
Proof.
  induction es as [|[j x] es IH]; simpl; [discriminate|].
  destruct (str_eqb k j) eqn:E; intro H.
  - now inversion H.
  - now rewrite IH.
Qed.

Lemma make_dirs_lookup cs : forall n n',
  make_dirs n cs = inl n' -> exists es, lookup n' cs = Some (Dir es).
Proof.
  induction cs as [|c cs IH]; intros n n' H; destruct n as [r d|es]; simpl in H;
    try discriminate.
  - inversion H; subst. simpl. eauto.
  - destruct (make_dirs _ cs) as [m'|b] eqn:E; [|discriminate].
    inversion H; subst. simpl. rewrite find_set_entry_same. eauto.
Qed.

Lemma make_dirs_other cs : forall n n' p,
  make_dirs n cs = inl n' -> prefixb p cs = false -> lookup n' p = lookup n p.
Proof.
  induction cs as [|c cs IH]; intros n n' p H Hp; destruct n as [r d|es]; simpl in H;
    try discriminate.
  - now inversion H.
  - destruct (make_dirs _ cs) as [m'|b] eqn:E; [|discriminate].
    inversion H; subst. destruct p as [|x p]; [discriminate|].
    simpl in Hp. simpl. destruct (str_eqb x c) eqn:Exc.
    + apply str_eqb_eq in Exc; subst x. simpl in Hp.
      rewrite find_set_entry_same, (IH _ _ _ E Hp).
      destruct (find_entry c es); [reflexivity|].
      destruct p; [discriminate|reflexivity].
    + apply str_eqb_neq in Exc. now rewrite find_set_entry_other.
Qed.

Lemma make_dirs_existing cs : forall n es,
  lookup n cs = Some (Dir es) -> make_dirs n cs = inl n.
Proof.
  induction cs as [|c cs IH]; intros n es H; simpl in H.
  - inversion H; subst. reflexivity.
  - destruct n as [r d|es0]; [discriminate|].
    destruct (find_entry c es0) as [m|] eqn:E; [|discriminate].
    simpl. rewrite E, (IH _ _ H). now rewrite set_entry_same.
Qed.

(** *** Constants of the scripts *)

Lemma resolve_base_dir : resolve base_dir = Some base_components.
Proof. reflexivity. Qed.

Lemma resolve_output_dir : resolve output_dir = Some output_components.
Proof. reflexivity. Qed.

Lemma resolve_prompt_file :
  resolve prompt_file = Some (base_components ++ [lit "prompt_file_list.txt"])
  /\ ends_with_sep prompt_file = false.
Proof. split; reflexivity. Qed.

Lemma dirname_output_file : dirname output_file = output_dir.
Proof. reflexivity. Qed.

Lemma resolve_output_file :
  resolve output_file = Some (output_components ++ [lit "all_files_combined.txt"])
  /\ ends_with_sep output_file = false.
Proof. split; reflexivity. Qed.

Lemma makedirs_ok {L} n o (l : L) n' :
  make_dirs n output_components = inl n' ->
  makedirs output_dir (mkState n o l) = (mkState n' o l, Ok tt).
Proof.
  intro H. cbv [makedirs bind get fs]. rewrite resolve_output_dir, H. reflexivity.
Qed.

Lemma node_at_make_dirs_prompt n n' :
  make_dirs n output_components = inl n' ->
  node_at n' prompt_file = node_at n prompt_file.
Proof.
  intro H. unfold node_at. destruct resolve_prompt_file as [-> _].
  now rewrite (make_dirs_other _ _ _ _ H).
Qed.

Lemma store_keeps {L} p d (s : state L) :
  stdout (fst (store p d s)) = stdout s /\ locals (fst (store p d s)) = locals s.
Proof.
  cbv [store bind get raise set_fs]. destruct (resolve p) as [cs|]; [|split; reflexivity].
  destruct (lookup (fs s) cs) as [[r d'|es]|]; try (split; reflexivity).
  - destruct (ends_with_sep p); [split; reflexivity|].
    destruct (place _ _ _); split; reflexivity.
  - destruct (ends_with_sep p); [split; reflexivity|].
    destruct (place _ _ _); split; reflexivity.
Qed.

Lemma read_bytes_keeps {L} p (s : state L) : fst (read_bytes p s) = s.
Proof.
  cbv [read_bytes bind get raise ret]. destruct (node_at (fs s) p) as [[[|] d|es]|]; reflexivity.
Qed.

Lemma copyfile_keeps {L} src dst (s : state L) :
  stdout (fst (copyfile src dst s)) = stdout s
  /\ locals (fst (copyfile src dst s)) = locals s.
Proof.
  cbv [copyfile bind get raise].
  destruct (samefile (fs s) src dst); [split; reflexivity|].
  pose proof (read_bytes_keeps src s) as Hr.
  destruct (read_bytes src s) as [s1 [data|e]]; simpl in Hr; subst s1.
  - apply store_keeps.
  - split; reflexivity.
Qed.

Lemma common_prefix_length_app B r : common_prefix_length B (B ++ r) = List.length B.
Proof.
  induction B as [|x B IH]; simpl; [now destruct r|].
  now rewrite str_eqb_refl, IH.
Qed.

Lemma relative_list_below B r : relative_list B (B ++ r) = r.
Proof.
  unfold relative_list. rewrite common_prefix_length_app, Nat.sub_diag. simpl.
  rewrite skipn_app, skipn_all, Nat.sub_diag. reflexivity.
Qed.

Lemma fst_bind_ret {L A} (m : M L A) (s : state L) :
  fst (bind m (fun _ => ret tt) s) = fst (m s).
Proof. unfold bind, ret. destruct (m s) as [s' [a|e]]; reflexivity. Qed.

Lemma copy_step_locals x src dst line (s : state (list pystr)) :
  locals (fst (bind (processed_files_append x)
                 (fun _ => bind (copyfile src dst) (fun _ => print line)) s))
  = locals s ++ [x].
Proof.
  cbv [processed_files_append bind get set_locals].
  set (s1 := mkState (fs s) (stdout s) (locals s ++ [x])).
  destruct (copyfile_keeps src dst s1) as [_ Hl].
  destruct (copyfile src dst s1) as [s2 [u|e]]; simpl in *; exact Hl.
Qed.

(** *** Base names *)

Lemma take_drop_while f l : take_while f l ++ drop_while f l = l.
Proof.
  induction l as [|c l IH]; simpl; [reflexivity|].
  destruct (f c); simpl; [now rewrite IH|reflexivity].
Qed.

Lemma take_while_all f l : forallb f (take_while f l) = true.
Proof.
  induction l as [|c l IH]; simpl; [reflexivity|].
  destruct (f c) eqn:E; simpl; [now rewrite E|reflexivity].
Qed.

Lemma drop_while_head f l :
  drop_while f l = [] \/ exists c t, drop_while f l = c :: t /\ f c = false.
Proof.
  induction l as [|c l IH]; simpl; [now left|].
  destruct (f c) eqn:E; [exact IH|]. right. eauto.
Qed.

Lemma take_while_app_stop f a c t :
  forallb f a = true -> f c = false -> take_while f (a ++ c :: t) = a.
Proof.
  intros Ha Hc. induction a as [|x a IH]; simpl in *.
  - now rewrite Hc.
  - apply andb_true_iff in Ha as [Hx Ha]. now rewrite Hx, IH.
Qed.

Lemma basename_on_volume p rest :
  on_volume p rest -> basename p = rev (take_while not_sep (rev rest)).
Proof.
  intro H. destruct (on_volume_splitdrive _ _ H) as (d & -> & Hsd).
  unfold basename, split. rewrite Hsd. reflexivity.
Qed.

Lemma basename_sep_free p rest : on_volume p rest -> sep_free (basename p) = true.
Proof.
  intro H. rewrite (basename_on_volume _ _ H). unfold sep_free.
  rewrite forallb_rev'. apply (take_while_all not_sep).
Qed.

(** A rooted path is a head that ends in a separator, then its base name. *)
Lemma on_volume_head_tail p rest :
  on_volume p rest ->
  exists a c, is_sep c = true /\ rest = a ++ c :: basename p.
Proof.
  intro H. rewrite (basename_on_volume _ _ H).
  destruct H as (d & _ & _ & Hs).
  pose proof (take_drop_while not_sep (rev rest)) as E.
  apply (f_equal (@rev N)) in E. rewrite rev_app_distr, rev_involutive in E.
  destruct (drop_while_head not_sep (rev rest)) as [Hd | (c & t & Hd & Hc)].
  - rewrite Hd in E. simpl in E.
    pose proof (take_while_all not_sep (rev rest)) as Ha.
    rewrite <- forallb_rev', E in Ha.
    destruct rest as [|x rest]; [discriminate|]. simpl in Hs, Ha.
    unfold not_sep in Ha. now rewrite Hs in Ha.
  - rewrite Hd in E. simpl in E. rewrite <- app_assoc in E. simpl in E.
    exists (rev t), c. split; [|now symmetry].
    unfold not_sep in Hc. now apply negb_false_iff in Hc.
Qed.

Lemma resolve_basename p cs :
  resolve p = Some cs -> valid_name (basename p) = true ->
  exists cs', cs = cs' ++ [basename p].
Proof.
  intros Hr Hv. apply resolve_on_volume in Hr as (rest & Hp & ->).
  destruct (on_volume_head_tail _ _ Hp) as (a & c & Hc & E).
  exists (components a). rewrite E at 1.
  rewrite (components_app_name a c _ Hc (basename_sep_free _ _ Hp)).
  now apply fold_comp_valid.
Qed.

Lemma basename_join p rest n :
  on_volume p rest -> plain n = true -> basename (join p n) = n.
Proof.
  intros Hp Hn. destruct (join_on_volume _ _ _ Hp Hn) as [_ Hj].
  rewrite (basename_on_volume _ _ Hj).
  assert (G : forall a c, is_sep c = true ->
            rev (take_while not_sep (rev ((a ++ [c]) ++ n))) = n).
  { intros a c Hc. rewrite !rev_app_distr. simpl.
    rewrite take_while_app_stop.
    - apply rev_involutive.
    - rewrite forallb_rev'. apply (plain_sep_free _ Hn).
    - unfold not_sep. now rewrite Hc. }
  destruct (ends_with_sep rest) eqn:Ee.
  - apply ends_with_sep_split in Ee as (a & c & -> & Hc). now apply G.
  - now apply G.
Qed.

Lemma comps_eqb_eq a : forall b, comps_eqb a b = true <-> a = b.
Proof.
  induction a as [|x a IH]; intros [|y b]; simpl; split; intro H;
    try discriminate; try reflexivity.
  - apply andb_true_iff in H as [H1 H2]. apply str_eqb_eq in H1. apply IH in H2. congruence.
  - inversion H; subst. rewrite str_eqb_refl. simpl. now apply IH.
Qed.

Lemma plain_app a b : plain a = true -> plain b = true -> plain (a ++ b) = true.
Proof.
  unfold plain. intros Ha Hb.
  apply andb_true_iff in Ha as [Ha1 Ha2]. apply andb_true_iff in Hb as [_ Hb2].
  rewrite forallb_app, Ha2, Hb2. destruct a; [discriminate|reflexivity].
Qed.

Lemma valid_name_txt b : valid_name b = true -> valid_name (b ++ lit ".txt") = true.
Proof.
  intro H. pose proof (valid_name_plain _ H) as Hp.
  assert (Ht : plain (lit ".txt") = true) by reflexivity.
  unfold valid_name. rewrite (plain_app _ _ Hp Ht). simpl.
  destruct b as [|x [|y b]]; [discriminate| |]; simpl.
  - now rewrite !andb_false_r.
  - destruct b; simpl; now rewrite !andb_false_r.
Qed.

Lemma on_volume_output_dir : on_volume output_dir (skipn 2 output_dir).
Proof. exists 99. repeat split. now left. Qed.

Lemma join_output_dir n :
  plain n = true -> join output_dir n = output_dir ++ BACKSLASH :: n.
Proof.
  intro H. destruct (join_on_volume _ _ _ on_volume_output_dir H) as [-> _].
  reflexivity.
Qed.

Section Entries.
Variable locale_decode : list byte -> option pystr.
Variable flushed : list byte -> list byte.

Lemma read_file_paths_missing {L} (s : state L) :
  node_at (fs s) prompt_file = None ->
  read_file_paths locale_decode s = (s, Raise FileNotFoundError).
Proof.
  intro H. cbv [read_file_paths bind read_bytes get]. now rewrite H.
Qed.

Lemma export_manifest_missing (n n' : node) :
  make_dirs n output_components = inl n' ->
  node_at n prompt_file = None ->
  txtexport locale_decode n = (mkState n' [] [], Raise FileNotFoundError).
Proof.
  intros Hm Hp. unfold txtexport, txtexport_main, bind. rewrite (makedirs_ok _ _ _ _ Hm).
  rewrite read_file_paths_missing; [reflexivity|].
  simpl. now rewrite (node_at_make_dirs_prompt _ _ Hm).
Qed.

Lemma onefile_manifest_missing (n n' : node) :
  make_dirs n output_components = inl n' ->
  node_at n prompt_file = None ->
  txtexport_onefile locale_decode flushed n = (mkState n' [] [], Raise FileNotFoundError).
Proof.
  intros Hm Hp. unfold txtexport_onefile, txtexport_onefile_main, bind.
  rewrite dirname_output_file, (makedirs_ok _ _ _ _ Hm).
  rewrite read_file_paths_missing; [reflexivity|].
  simpl. now rewrite (node_at_make_dirs_prompt _ _ Hm).
Qed.

(** Claim C7.  When [prompt_file_list.txt] is missing from the base directory
    and the output directory can be made, a run of either script ends with
    [FileNotFoundError], raised by the [open] of the manifest and caught
    nowhere: the result is the exception, nothing is printed, no path is
    recorded, no text is written, and the tree is the one [os.makedirs]
    left. *)
Theorem manifest_missing_is_fatal (n n' : node) :
  make_dirs n output_components = inl n' ->
  node_at n prompt_file = None ->
  txtexport locale_decode n = (mkState n' [] [], Raise FileNotFoundError)
  /\ txtexport_onefile locale_decode flushed n = (mkState n' [] [], Raise FileNotFoundError).
Proof.
  intros Hm Hp. split.
  - now apply export_manifest_missing.
  - now apply onefile_manifest_missing.
Qed.

(** Claim C10.  Both scripts call [os.makedirs] before they open the manifest:
    after a run that the missing manifest ends, the output directory is
    there, so a tree that had none is not the tree the run leaves. *)
Theorem output_dir_made_before_manifest (n n' : node) :
  make_dirs n output_components = inl n' ->
  node_at n prompt_file = None ->
  fs (fst (txtexport locale_decode n)) = n'
  /\ fs (fst (txtexport_onefile locale_decode flushed n)) = n'
  /\ isdir n' output_dir = true
  /\ (isdir n output_dir = false -> n' <> n).
Proof.
  intros Hm Hp.
  rewrite (export_manifest_missing _ _ Hm Hp), (onefile_manifest_missing _ _ Hm Hp).
  assert (Hd : isdir n' output_dir = true).
  { unfold isdir, node_at. rewrite resolve_output_dir.
    destruct (make_dirs_lookup _ _ _ Hm) as [es ->]. reflexivity. }
  repeat split; auto.
  intros Hn E. subst n'. congruence.
Qed.

(** Claim C4.  A manifest entry that names neither a directory nor a file:
    both scripts print the line [Path not found: ...] for it, leave the tree,
    the recorded paths and the combined text as they were, and go on with the
    entries after it. *)
Theorem missing_entry_is_skipped (relative_path : pystr) :
  let source_path := join base_dir (lstrip_slash relative_path) in
  (forall s : state (list pystr),
     isdir (fs s) source_path = false -> isfile (fs s) source_path = false ->
     copy_entry relative_path s = (not_found_logged s source_path, Ok tt)
     /\ forall rest, for_each (relative_path :: rest) copy_entry s
                     = for_each rest copy_entry (not_found_logged s source_path))
  /\ (forall s : state pystr,
     isdir (fs s) source_path = false -> isfile (fs s) source_path = false ->
     combine_entry flushed relative_path s = (not_found_logged s source_path, Ok tt)
     /\ forall rest, for_each (relative_path :: rest) (combine_entry flushed) s
                     = for_each rest (combine_entry flushed) (not_found_logged s source_path)).
Proof.
  intro source_path. split; intros s Hd Hf.
  - assert (E : copy_entry relative_path s = (not_found_logged s source_path, Ok tt)).
    { cbv [copy_entry bind get]. fold source_path. now rewrite Hd, Hf. }
    split; [exact E|]. intro rest. simpl. unfold bind. now rewrite E.
  - assert (E : combine_entry flushed relative_path s = (not_found_logged s source_path, Ok tt)).
    { cbv [combine_entry bind get]. fold source_path. now rewrite Hd, Hf. }
    split; [exact E|]. intro rest. simpl. unfold bind. now rewrite E.
Qed.

(** Claim C6, amended.  The manifest reader decodes the file, strips the
    white space at both ends of the text and splits what is left at the line
    ends: for a text that is the lines [lines], the first starting and the
    last ending with a character that is not white space, with white space
    around them, the entries are exactly [lines], in order.  Blank lines
    before the first such line are stripped with the rest, not kept. *)
Theorem manifest_lines_read {L} (s : state L) data text ws1 lines ws2 :
  node_at (fs s) prompt_file = Some (File true data) ->
  locale_decode data = Some text ->
  universal_newlines text = ws1 ++ join_lines lines ++ ws2 ->
  forallb isspace ws1 = true -> forallb isspace ws2 = true ->
  forallb no_linebreak lines = true ->
  starts_nonspace (hd [] lines) = true -> ends_nonspace (last lines []) = true ->
  read_file_paths locale_decode s = (s, Ok lines).
Proof.
  intros Hn Hd Hu H1 H2 Hl Hs He.
  cbv [read_file_paths bind read_bytes get]. rewrite Hn. cbv [ret]. rewrite Hd, Hu.
  now rewrite entries_of_padded_lines.
Qed.

(** What the two branches of [txtexport.py] append to [processed_files]: for
    a file found by walking a directory, [/] and its path from the base
    directory with [/] for separators, which joined to the base directory
    leads to the file again but for the case of letters; for an entry that
    names a file, the manifest line as it stands. *)
Lemma appended_paths (s : state (list pystr)) :
  (forall root file cs,
     resolve root = Some cs -> forallb valid_name (cs ++ [file]) = true ->
     let rel := match relative_list base_components (cs ++ [file]) with
                | [] => curdir
                | l => sep_join SLASH l
                end in
     locals (fst (copy_files root [file] s)) = locals s ++ [SLASH :: rel]
     /\ normalized_relative_path (join root file) = rel
     /\ forallb (fun c => negb (c =? BACKSLASH)) rel = true
     /\ (exists back, resolve (join base_dir rel) = Some back
                      /\ List.map normcase back = List.map normcase (cs ++ [file]))
     /\ (forall rest, rest <> [] -> cs ++ [file] = base_components ++ rest ->
           rel = sep_join SLASH rest))
  /\ (forall relative_path,
        let source_path := join base_dir (lstrip_slash relative_path) in
        isdir (fs s) source_path = false -> isfile (fs s) source_path = true ->
        locals (fst (copy_entry relative_path s)) = locals s ++ [relative_path]).
Proof.
  split.
  - intros root file cs Hr Hv rel.
    assert (Hf : valid_name file = true).
    { rewrite forallb_app in Hv. apply andb_true_iff in Hv as [_ Hv].
      simpl in Hv. now rewrite andb_true_r in Hv. }
    destruct (relative_to_resolves base_dir base_components (cs ++ [file])
                resolve_base_dir Hv) as [H1 H2].
    fold rel in H2. rewrite H2 in H1.
    assert (Hn : normalized_relative_path (join root file) = rel).
    { unfold normalized_relative_path, relpath.
      now rewrite resolve_base_dir, (resolve_join_name _ _ _ Hr Hf). }
    split; [|split; [|split; [|split]]].
    + unfold copy_files, for_each. rewrite fst_bind_ret.
      unfold relpath. rewrite resolve_base_dir, (resolve_join_name _ _ _ Hr Hf).
      rewrite H2. apply copy_step_locals.
    + exact Hn.
    + subst rel. pose proof (relative_list_plain base_components _ Hv) as Hp.
      destruct (relative_list base_components (cs ++ [file])); [reflexivity|].
      apply sep_join_no_backslash.
      eapply forallb_impl; [|exact Hp]. apply plain_sep_free.
    + eexists. split; [exact H1|].
      destruct (common_prefix_firstn base_components (cs ++ [file])) as [E _].
      rewrite map_app, E, <- map_app. now rewrite firstn_skipn.
    + intros rest Hne E. subst rel. rewrite E, relative_list_below.
      destruct rest; [congruence|reflexivity].
  - intros relative_path source_path Hd Hf.
    cbv [copy_entry]. fold source_path. unfold bind at 1, get. cbv beta iota.
    rewrite Hd, Hf. apply copy_step_locals.
Qed.

Lemma copyfile_verbatim {L} (s : state L) (src : pystr) (data : list byte) :
  node_at (fs s) src = Some (File true data) ->
  valid_name (basename src) = true ->
  isdir (fs s) output_dir = true ->
  let destination_path := join output_dir (basename src ++ lit ".txt") in
  isdir (fs s) destination_path = false ->
  destination_path = output_dir ++ BACKSLASH :: basename src ++ lit ".txt"
  /\ exists n' r,
       copyfile src destination_path s = (mkState n' (stdout s) (locals s), Ok tt)
       /\ node_at n' destination_path = Some (File r data).
Proof.
  intros Hsrc Hb Hout dst Hdst.
  pose proof (valid_name_txt _ Hb) as Hk.
  assert (Ej : dst = output_dir ++ BACKSLASH :: basename src ++ lit ".txt")
    by (apply join_output_dir; now apply valid_name_plain).
  split; [exact Ej|].
  assert (Hrd : resolve dst = Some (output_components ++ [basename src ++ lit ".txt"]))
    by (apply resolve_join_name; [exact resolve_output_dir|exact Hk]).
  assert (Hed : ends_with_sep dst = false).
  { rewrite Ej. change (BACKSLASH :: basename src ++ lit ".txt")
      with ((BACKSLASH :: basename src) ++ lit ".txt").
    rewrite app_assoc, ends_with_sep_app by discriminate. reflexivity. }
  destruct (node_at_file _ _ _ _ Hsrc) as (cs & Hrs & Hls & Hes).
  destruct (resolve_basename _ _ Hrs Hb) as [cs' ->].
  assert (Hsame : samefile (fs s) src dst = false).
  { unfold samefile. rewrite Hsrc, Hrs, Hrd.
    destruct (node_at (fs s) dst); [|reflexivity].
    destruct (comps_eqb _ _) eqn:E; [|reflexivity].
    apply comps_eqb_eq, app_inj_tail in E as [_ E].
    apply (f_equal (@List.length N)) in E. rewrite length_app in E. simpl in E. lia. }
  assert (Hod : exists es, lookup (fs s) output_components = Some (Dir es)).
  { unfold isdir in Hout. destruct (node_at (fs s) output_dir) as [[|es]|] eqn:E;
      try discriminate.
    apply node_at_dir in E as (c & Hc & Hl). rewrite resolve_output_dir in Hc.
    inversion Hc; subst. eauto. }
  destruct Hod as [es Hes'].
  set (k := basename src ++ lit ".txt") in *.
  assert (Hlk : lookup (fs s) (output_components ++ [k]) = find_entry k es)
    by (rewrite lookup_app, Hes'; simpl; now destruct (find_entry k es)).
  assert (Hnd : forall es', find_entry k es <> Some (Dir es')).
  { intros es' E. unfold isdir, node_at in Hdst. rewrite Hrd, Hlk, E in Hdst. discriminate. }
  set (r := match find_entry k es with Some (File r _) => r | _ => true end).
  destruct (place_child_some output_components (fs s) es k (File r data) Hes')
    as (n' & Hn' & _ & Hl').
  exists n', r. split.
  - cbv [copyfile bind get read_bytes]. rewrite Hsame, Hsrc. cbv [ret store bind get].
    rewrite Hrd, Hlk, Hed.
    unfold r in Hn'.
    destruct (find_entry k es) as [[r1 d1|es1]|] eqn:E.
    + now rewrite Hn'.
    + now destruct (Hnd es1).
    + now rewrite Hn'.
  - unfold node_at. now rewrite Hrd, Hl', Hed.
Qed.

End Entries.

(** *** Loops *)

Lemma bind_cong {L A B} (m m' : M L A) (k k' : A -> M L B) (s : state L) :
  m s = m' s -> (forall a, k a (fst (m s)) = k' a (fst (m s))) ->
  bind m k s = bind m' k' s.
Proof.
  intros Hm Hk. unfold bind. rewrite <- Hm. destruct (m s) as [s1 [a|e]]; [|reflexivity].
  apply Hk.
Qed.

Lemma bind_assoc {L A B C} (m : M L A) (k : A -> M L B) (h : B -> M L C) (s : state L) :
  bind (bind m k) h s = bind m (fun a => bind (k a) h) s.
Proof. unfold bind. destruct (m s) as [s1 [a|e]]; reflexivity. Qed.

Lemma for_each_app {L A} (l1 l2 : list A) (g : A -> M L unit) (s : state L) :
  for_each (l1 ++ l2) g s = bind (for_each l1 g) (fun _ => for_each l2 g) s.
Proof.
  revert s. induction l1 as [|x l1 IH]; intro s; simpl.
  - reflexivity.
  - rewrite bind_assoc. apply bind_cong; [reflexivity|]. intros _. apply IH.
Qed.

Lemma for_each_map {L A B} (f : A -> B) (l : list A) (g : B -> M L unit) (s : state L) :
  for_each (List.map f l) g s = for_each l (fun x => g (f x)) s.
Proof.
  revert s. induction l as [|x l IH]; intro s; simpl; [reflexivity|].
  unfold bind. destruct (g (f x) s) as [s1 [u|e]]; [apply IH|reflexivity].
Qed.

Lemma for_each_flat_map {L A B} (f : A -> list B) (l : list A) (g : B -> M L unit)
    (s : state L) :
  for_each (flat_map f l) g s = for_each l (fun x => for_each (f x) g) s.
Proof.
  revert s. induction l as [|x l IH]; intro s; simpl; [reflexivity|].
  rewrite for_each_app. apply bind_cong; [reflexivity|]. intros _. apply IH.
Qed.

Lemma for_each_steps {L A} (g : A -> M L unit) (l : list A) (s : state L) :
  steps g s (fst (for_each l g s)).
Proof.
  revert s. induction l as [|x l IH]; intro s; simpl.
  - apply steps_refl.
  - apply steps_next with (x := x). unfold bind.
    specialize (IH (fst (g x s))).
    destruct (g x s) as [s1 [u|e]]; simpl in *; [exact IH|apply steps_refl].
Qed.

(** A property every element of a loop keeps is kept by the loop. *)
Lemma for_each_keeps {L A} (P : state L -> Prop) (Q : A -> Prop) (g : A -> M L unit) :
  (forall x s, Q x -> P s -> P (fst (g x s))) ->
  forall l s, Forall Q l -> P s -> P (fst (for_each l g s)).
Proof.
  intros Hg l. induction l as [|x l IH]; intros s Hl Hs; simpl; [exact Hs|].
  inversion Hl; subst. unfold bind.
  pose proof (Hg x s H1 Hs) as H1'. specialize (IH (fst (g x s)) H2 H1').
  destruct (g x s) as [s1 [u|e]]; simpl in *; assumption.
Qed.

Lemma for_each_ext {L A} (P : state L -> Prop) (Q : A -> Prop) (g g' : A -> M L unit) :
  (forall x s, Q x -> P s -> P (fst (g x s))) ->
  (forall x s, Q x -> P s -> g x s = g' x s) ->
  forall l s, Forall Q l -> P s -> for_each l g s = for_each l g' s.
Proof.
  intros Hk He l. induction l as [|x l IH]; intros s Hl Hs; simpl; [reflexivity|].
  inversion Hl; subst. apply bind_cong; [now apply He|].
  intros _. apply IH; [assumption|now apply Hk].
Qed.

(** *** Heights and well-formed trees *)

Lemma height_entry es e : In e es -> (height (snd e) < height (Dir es))%nat.
Proof.
  simpl. induction es as [|x es IH]; intro H; [contradiction|].
  simpl. destruct H as [-> | H]; [lia|]. specialize (IH H). lia.
Qed.

Lemma find_entry_in k es m : find_entry k es = Some m -> In (k, m) es.
Proof.
  induction es as [|[j x] es IH]; simpl; [discriminate|].
  destruct (str_eqb k j) eqn:E; intro H.
  - apply str_eqb_eq in E. inversion H; subst. now left.
  - right. now apply IH.
Qed.

Lemma unique_find k m es : unique_names es = true -> In (k, m) es -> find_entry k es = Some m.
Proof.
  induction es as [|[j x] es IH]; simpl; intros Hu Hi; [contradiction|].
  destruct (find_entry j es) as [y|] eqn:Ej; [discriminate|].
  destruct Hi as [Hi | Hi].
  - inversion Hi; subst. now rewrite str_eqb_refl.
  - destruct (str_eqb k j) eqn:E.
    + apply str_eqb_eq in E; subst j. rewrite (IH Hu Hi) in Ej. discriminate.
    + now apply IH.
Qed.

Lemma well_formed_entry es k m :
  well_formed (Dir es) = true -> In (k, m) es ->
  valid_name k = true /\ well_formed m = true.
Proof.
  simpl. intros H Hi. apply andb_true_iff in H as [_ H].
  rewrite forallb_forall in H. specialize (H _ Hi). simpl in H.
  now apply andb_true_iff in H.
Qed.

Lemma well_formed_unique es : well_formed (Dir es) = true -> unique_names es = true.
Proof. simpl. intro H. now apply andb_true_iff in H as [H _]. Qed.

Lemma height_lookup cs : forall n m,
  lookup n cs = Some m -> (height m + List.length cs <= height n)%nat.
Proof.
  induction cs as [|c cs IH]; intros n m H; simpl in H.
  - inversion H; subst. simpl. lia.
  - destruct n as [r d|es]; [discriminate|].
    destruct (find_entry c es) as [x|] eqn:E; [|discriminate].
    specialize (IH _ _ H). pose proof (height_entry es (c, x) (find_entry_in _ _ _ E)).
    simpl in *. lia.
Qed.

Lemma well_formed_lookup cs : forall n m,
  well_formed n = true -> lookup n cs = Some m ->
  well_formed m = true /\ forallb valid_name cs = true.
Proof.
  induction cs as [|c cs IH]; intros n m Hw H; simpl in H.
  - inversion H; subst. now split.
  - destruct n as [r d|es]; [discriminate|].
    destruct (find_entry c es) as [x|] eqn:E; [|discriminate].
    destruct (well_formed_entry _ _ _ Hw (find_entry_in _ _ _ E)) as [Hc Hx].
    destruct (IH _ _ Hx H) as [H1 H2]. split; [exact H1|]. simpl. now rewrite Hc, H2.
Qed.

(** Induction on a tree, with the property at hand for every entry of a
    directory. *)
Lemma node_induction (P : node -> Prop) :
  (forall r d, P (File r d)) ->
  (forall es, Forall (fun e => P (snd e)) es -> P (Dir es)) ->
  forall n, P n.
Proof.
  intros HF HD. fix IH 1. intros [r d|es]; [apply HF|].
  apply HD. induction es as [|[k m] es IHes]; constructor; [apply IH|exact IHes].
Qed.

(** *** A walk over a tree whose listings stay as they are *)

Section WalkStatic.
Context {L : Type}.
Variable F : node.
Variable Inv : state L -> Prop.
Variable region : list pystr -> bool.
Variable inner : pystr -> M L unit.

Hypothesis region_child : forall cs k, region cs = true -> region (cs ++ [k]) = true.
Hypothesis Inv_alike : forall s cs,
  Inv s -> region cs = true -> alike (lookup (fs s) cs) (lookup F cs).
Hypothesis Inv_inner : forall root c name s,
  resolve root = Some c -> region c = true -> valid_name name = true ->
  Inv s -> Inv (fst (inner (join root name) s)).

Lemma inner_keeps p s : walked_path region p -> Inv s -> Inv (fst (inner p s)).
Proof. intros (root & c & name & -> & Hr & Hc & Hn). now apply Inv_inner with (c := c). Qed.

Lemma scandir_static s top cs es :
  resolve top = Some cs -> region cs = true -> lookup F cs = Some (Dir es) -> Inv s ->
  scandir (fs s) top = Some (listing es).
Proof.
  intros Hr Hc Hl Hs. pose proof (Inv_alike s cs Hs Hc) as Ha. rewrite Hl in Ha.
  unfold scandir, node_at. rewrite Hr.
  destruct (lookup (fs s) cs) as [[r d|es']|]; simpl in Ha; try contradiction.
  now rewrite Ha.
Qed.

Lemma tree_files_walked : forall n top cs,
  resolve top = Some cs -> region cs = true -> well_formed n = true ->
  Forall (walked_path region) (tree_files n top).
Proof.
  induction n as [r d|es IH] using node_induction; intros top cs Hr Hc Hw; [constructor|].
  simpl. apply Forall_app. split.
  - apply Forall_forall. intros p Hp. apply in_map_iff in Hp as ([k m] & <- & Hi).
    apply filter_In in Hi as [Hi _].
    destruct (well_formed_entry _ _ _ Hw Hi) as [Hk _].
    exists top, cs, k. auto.
  - apply Forall_flat_map. rewrite Forall_forall in IH |- *. intros [k m] Hi. simpl.
    destruct (well_formed_entry _ _ _ Hw Hi) as [Hk Hm].
    destruct (is_dir_node m); [|constructor].
    apply (IH _ Hi) with (cs := cs ++ [k]); auto.
    now apply resolve_join_name.
Qed.

Lemma walk_static : forall fuel top cs es s,
  resolve top = Some cs -> region cs = true -> lookup F cs = Some (Dir es) ->
  well_formed (Dir es) = true -> (height (Dir es) <= fuel)%nat -> Inv s ->
  walk fuel (walk_body inner) top s = for_each (tree_files (Dir es) top) inner s.
Proof.
  induction fuel as [|fuel IH]; intros top cs es s Hr Hc Hl Hw Hh Hs.
  - simpl in Hh. lia.
  - cbn [walk]. unfold bind at 1, get. cbv beta iota.
    rewrite (scandir_static s top cs es Hr Hc Hl Hs). unfold listing.
    cbn [tree_files]. rewrite for_each_app.
    assert (Hfiles : Forall (walked_path region)
              (List.map (fun e : pystr * node => join top (fst e))
                 (filter (fun e => negb (is_dir_node (snd e))) es))).
    { pose proof (tree_files_walked (Dir es) top cs Hr Hc Hw) as Ht.
      cbn [tree_files] in Ht. now apply Forall_app in Ht as [Ht _]. }
    assert (E1 : walk_body inner top
                   (List.map fst (filter (fun e => negb (is_dir_node (snd e))) es)) s
                 = for_each (List.map (fun e : pystr * node => join top (fst e))
                      (filter (fun e => negb (is_dir_node (snd e))) es)) inner s)
      by (unfold walk_body; now rewrite !for_each_map).
    apply bind_cong; [exact E1|].
    + intros _. rewrite E1.
      set (s1 := fst (for_each _ inner s)).
      assert (Hs1 : Inv s1) by (apply (for_each_keeps Inv (walked_path region) inner inner_keeps); auto).
      clearbody s1. clear E1 Hfiles Hs s.
      assert (Hsub : incl es es) by apply incl_refl.
      revert s1 Hs1 Hsub. generalize es at 1 3 4 as es'.
      induction es' as [|[k m] es' IHes]; intros s1 Hs1 Hsub; [reflexivity|].
      assert (Hi : In (k, m) es) by (apply Hsub; now left).
      assert (Hsub' : incl es' es) by (intros x Hx; apply Hsub; now right).
      destruct (well_formed_entry _ _ _ Hw Hi) as [Hk Hm].
      simpl. destruct m as [r d|esm]; simpl.
      * now apply IHes.
      * rewrite for_each_app.
        assert (Hrk : resolve (join top k) = Some (cs ++ [k])) by now apply resolve_join_name.
        assert (Hlk : lookup F (cs ++ [k]) = Some (Dir esm)).
        { rewrite lookup_app, Hl. simpl.
          now rewrite (unique_find _ _ _ (well_formed_unique _ Hw) Hi). }
        assert (Hhk : (height (Dir esm) <= fuel)%nat).
        { pose proof (height_entry es (k, Dir esm) Hi). simpl in *. lia. }
        assert (E : walk fuel (walk_body inner) (join top k) s1
                    = for_each (tree_files (Dir esm) (join top k)) inner s1)
          by (apply IH with (cs := cs ++ [k]); auto).
        apply bind_cong; [exact E|].
        intros _. apply IHes; [|exact Hsub'].
        rewrite E. apply (for_each_keeps Inv (walked_path region) inner inner_keeps); [|exact Hs1].
        apply tree_files_walked with (cs := cs ++ [k]); auto.
Qed.

End WalkStatic.

(** *** Replacing a node *)

Lemma set_entry_twice k m m' es : set_entry k m' (set_entry k m es) = set_entry k m' es.
Proof.
  induction es as [|[j x] es IH]; simpl.
  - now rewrite str_eqb_refl.
  - destruct (str_eqb k j) eqn:E; simpl; rewrite E; [reflexivity|now rewrite IH].
Qed.

Lemma place_cons2 c c2 cs es m :
  place (Dir es) (c :: c2 :: cs) m
  = match find_entry c es with
    | Some x =>
        match place x (c2 :: cs) m with
        | Some x' => Some (Dir (set_entry c x' es))
        | None => None
        end
    | None => None
    end.
Proof. reflexivity. Qed.

Lemma place_place cs : forall n m n' m',
  place n cs m = Some n' -> place n' cs m' = place n cs m'.
Proof.
  induction cs as [|c cs IH]; intros n m n' m' H; [reflexivity|].
  simpl in H. destruct n as [r d|es]; [discriminate|].
  destruct cs as [|c2 cs].
  - inversion H; subst. simpl. now rewrite set_entry_twice.
  - destruct (find_entry c es) as [x|] eqn:E; [|discriminate].
    destruct (place x (c2 :: cs) m) as [x'|] eqn:P; [|discriminate].
    inversion H; subst. rewrite !place_cons2, find_set_entry_same, E.
    rewrite (IH _ _ _ m' P). destruct (place x (c2 :: cs) m'); [|reflexivity].
    now rewrite set_entry_twice.
Qed.

Lemma place_same cs : forall n m, lookup n cs = Some m -> place n cs m = Some n.
Proof.
  induction cs as [|c cs IH]; intros n m H; simpl in H.
  - now inversion H.
  - destruct n as [r d|es]; [discriminate|].
    destruct (find_entry c es) as [x|] eqn:E; [|discriminate].
    destruct cs as [|c2 cs].
    + simpl in H. inversion H; subst. simpl. now rewrite set_entry_same.
    + rewrite place_cons2, E, (IH _ _ H). now rewrite set_entry_same.
Qed.

Lemma alike_refl a : alike a a.
Proof. destruct a as [[r d|es]|]; simpl; auto. Qed.

Lemma listing_set_entry k x x' es :
  find_entry k es = Some x -> is_dir_node x' = is_dir_node x ->
  listing (set_entry k x' es) = listing es.
Proof.
  intros Hf Hk. unfold listing. revert Hf.
  induction es as [|[j y] es IH]; simpl; [discriminate|].
  destruct (str_eqb k j) eqn:E; intro Hf.
  - inversion Hf; subst y. simpl. rewrite Hk. now destruct (is_dir_node x).
  - simpl. specialize (IH Hf). inversion IH as [[H1 H2]].
    destruct (is_dir_node y); simpl; now rewrite ?H1, ?H2.
Qed.

Lemma place_kind cs : forall n m m0 n',
  place n cs m = Some n' -> lookup n cs = Some m0 ->
  is_dir_node m = is_dir_node m0 -> is_dir_node n' = is_dir_node n.
Proof.
  intros n m m0 n' H Hl Hk. destruct cs as [|c cs].
  - simpl in *. inversion H; inversion Hl; subst. exact Hk.
  - simpl in H. destruct n as [r d|es]; [discriminate|].
    destruct cs; [now inversion H|].
    destruct (find_entry c es); [|discriminate].
    destruct (place _ _ _); [|discriminate]. now inversion H.
Qed.

(** Replacing a file by a file leaves every listing as it was. *)
Lemma alike_place cs : forall n r d r0 d0 n' p,
  place n cs (File r d) = Some n' -> lookup n cs = Some (File r0 d0) ->
  alike (lookup n' p) (lookup n p).
Proof.
  induction cs as [|c cs IH]; intros n r d r0 d0 n' p H Hl.
  - simpl in *. inversion H; inversion Hl; subst. destruct p; simpl; auto.
  - simpl in Hl. destruct n as [r1 d1|es]; [discriminate|].
    destruct (find_entry c es) as [x|] eqn:E; [|discriminate].
    assert (Hx : exists x', place x cs (File r d) = Some x'
                            /\ n' = Dir (set_entry c x' es)).
    { simpl in H. destruct cs as [|c2 cs].
      - simpl. inversion H; subst. eauto.
      - rewrite E in H. destruct (place x (c2 :: cs) (File r d)) as [x'|]; [|discriminate].
        inversion H; subst. eauto. }
    destruct Hx as (x' & Hx & ->).
    destruct p as [|y p].
    + simpl. apply listing_set_entry with (x := x); [exact E|].
      now apply (place_kind _ _ _ _ _ Hx Hl).
    + simpl. destruct (str_eqb y c) eqn:Eyc.
      * apply str_eqb_eq in Eyc; subst y. rewrite find_set_entry_same, E.
        now apply (IH _ _ _ _ _ _ p Hx Hl).
      * apply str_eqb_neq in Eyc. rewrite find_set_entry_other by assumption.
        apply alike_refl.
Qed.

Lemma height_set_entry k x x' es :
  find_entry k es = Some x -> height x' = height x ->
  height (Dir (set_entry k x' es)) = height (Dir es).
Proof.
  intros Hf Hh. simpl. f_equal. revert Hf.
  induction es as [|[j y] es IH]; simpl; [discriminate|].
  destruct (str_eqb k j) eqn:E; intro Hf.
  - inversion Hf; subst y. simpl. now rewrite Hh.
  - simpl. now rewrite IH.
Qed.

Lemma height_place cs : forall n m m0 n',
  place n cs m = Some n' -> lookup n cs = Some m0 -> height m = height m0 ->
  height n' = height n.
Proof.
  induction cs as [|c cs IH]; intros n m m0 n' H Hl Hh.
  - simpl in *. inversion H; inversion Hl; subst. exact Hh.
  - simpl in Hl. destruct n as [r1 d1|es]; [discriminate|].
    destruct (find_entry c es) as [x|] eqn:E; [|discriminate].
    assert (Hx : exists x', place x cs m = Some x' /\ n' = Dir (set_entry c x' es)).
    { simpl in H. destruct cs as [|c2 cs].
      - simpl. inversion H; subst. eauto.
      - rewrite E in H. destruct (place x (c2 :: cs) m) as [x'|]; [|discriminate].
        inversion H; subst. eauto. }
    destruct Hx as (x' & Hx & ->).
    apply height_set_entry with (x := x); [exact E|]. now apply (IH _ _ _ _ Hx Hl).
Qed.

(** *** The combined file while it is open *)

Section CombinedOpen.
Variable flushed : list byte -> list byte.
Variable F : node.
Variable r0 : bool.
Variable d0 : list byte.
Hypothesis HF : lookup F combined_components = Some (File r0 d0).

Lemma set_data_place d :
  place F combined_components (File r0 d) = Some (set_data F combined_components d).
Proof.
  unfold set_data. rewrite HF.
  destruct (place_some combined_components F (File r0 d) _ HF) as [n' ->]. reflexivity.
Qed.

Lemma lookup_set_data d :
  lookup (set_data F combined_components d) combined_components = Some (File r0 d).
Proof. apply (place_lookup_same _ _ _ _ (set_data_place d)). Qed.

Lemma set_data_twice d d' :
  set_data (set_data F combined_components d) combined_components d'
  = set_data F combined_components d'.
Proof.
  unfold set_data at 1. rewrite lookup_set_data.
  rewrite (place_place _ _ _ _ (File r0 d') (set_data_place d)), set_data_place. reflexivity.
Qed.

Lemma set_data_same : set_data F combined_components d0 = F.
Proof.
  pose proof (set_data_place d0) as H. rewrite (place_same _ _ _ HF) in H. congruence.
Qed.

Lemma alike_set_data d p :
  alike (lookup (set_data F combined_components d) p) (lookup F p).
Proof. apply (alike_place _ _ _ _ _ _ _ p (set_data_place d) HF). Qed.

Lemma height_set_data d : height (set_data F combined_components d) = height F.
Proof. apply (height_place _ _ _ _ _ (set_data_place d) HF). reflexivity. Qed.

Lemma resolve_combined :
  resolve output_file = Some combined_components /\ ends_with_sep output_file = false.
Proof. split; reflexivity. Qed.

Lemma store_combined {L} (s : state L) d d' :
  fs s = set_data F combined_components d ->
  store output_file d' s
  = (mkState (set_data F combined_components d') (stdout s) (locals s), Ok tt).
Proof.
  intro Hs. cbv [store bind get]. destruct resolve_combined as [-> ->].
  rewrite Hs, lookup_set_data.
  rewrite (place_place _ _ _ _ (File r0 d') (set_data_place d)), set_data_place.
  reflexivity.
Qed.

Lemma combined_file_write_framed (s : state pystr) d text :
  fs s = set_data F combined_components d ->
  combined_file_write flushed text s
  = (mkState (set_data F combined_components (flushed (text_file_bytes (locals s ++ text))))
       (stdout s) (locals s ++ text), Ok tt).
Proof.
  intro Hs. unfold combined_file_write, bind at 1, get. cbv beta iota.
  unfold bind, set_locals. cbv beta iota.
  now rewrite (store_combined _ d _) by exact Hs.
Qed.

Lemma read_text_framed (s : state pystr) p :
  fs s = set_data F combined_components (flushed (text_file_bytes (locals s))) ->
  read_text p s
  = match text_read flushed F (locals s) p with
    | Ok text => (s, Ok text)
    | Raise e => (s, Raise e)
    end.
Proof.
  intro Hs. cbv [read_text bind read_bytes get text_read]. rewrite Hs.
  destruct (node_at _ p) as [[[|] data|es]|]; reflexivity.
Qed.

Lemma write_block_framed (s : state pystr) d label p :
  fs s = set_data F combined_components d ->
  write_block flushed label p s
  = match text_read flushed F (locals s ++ start_line label) p with
    | Ok text =>
        let written := (locals s ++ start_line label) ++ text ++ end_line label in
        (mkState (set_data F combined_components (flushed (text_file_bytes written)))
           (stdout s) written, Ok tt)
    | Raise e =>
        let written := locals s ++ start_line label in
        (mkState (set_data F combined_components (flushed (text_file_bytes written)))
           (stdout s) written, Raise e)
    end.
Proof.
  intro Hs. unfold write_block, bind at 1.
  rewrite (combined_file_write_framed s d _ Hs).
  unfold bind at 1. rewrite read_text_framed by reflexivity. cbn [locals stdout].
  destruct (text_read flushed F (locals s ++ start_line label) p) as [text|e];
    [|reflexivity].
  unfold bind. erewrite combined_file_write_framed by reflexivity. cbn [locals stdout].
  erewrite combined_file_write_framed by reflexivity. cbn [locals stdout].
  cbv zeta. now rewrite <- !app_assoc.
Qed.

Lemma combine_walked_good p :
  resolve p <> None ->
  combine_walked flushed p = write_block flushed (normalized_relative_path p) p.
Proof.
  intro H. unfold combine_walked, normalized_relative_path, relpath.
  rewrite resolve_base_dir. destruct (resolve p); [reflexivity|congruence].
Qed.

(** The loop over resolved items is [combined_run]. *)
Lemma combine_items_framed items : forall (s : state pystr) d,
  Forall item_good items -> fs s = set_data F combined_components d ->
  exists d',
    for_each items (combine_item flushed) s
    = (mkState (set_data F combined_components d')
         (snd (fst (combined_run flushed F items (locals s) (stdout s))))
         (fst (fst (combined_run flushed F items (locals s) (stdout s)))),
       snd (combined_run flushed F items (locals s) (stdout s))).
Proof.
  induction items as [|it items IH]; intros s d Hg Hs.
  - exists d. simpl. unfold ret. rewrite <- Hs. now destruct s.
  - inversion Hg as [|? ? Hit Hitems]; subst.
    assert (Hblock : forall label p,
      combine_item flushed it = write_block flushed label p ->
      combined_run flushed F (it :: items) (locals s) (stdout s)
      = match text_read flushed F (locals s ++ start_line label) p with
        | Ok text => combined_run flushed F items
                       ((locals s ++ start_line label) ++ text ++ end_line label) (stdout s)
        | Raise e => (locals s ++ start_line label, stdout s, Raise e)
        end ->
      exists d',
        for_each (it :: items) (combine_item flushed) s
        = (mkState (set_data F combined_components d')
             (snd (fst (combined_run flushed F (it :: items) (locals s) (stdout s))))
             (fst (fst (combined_run flushed F (it :: items) (locals s) (stdout s)))),
           snd (combined_run flushed F (it :: items) (locals s) (stdout s)))).
    { intros label p Hc Hr. rewrite Hr. cbn [for_each]. unfold bind. rewrite Hc.
      rewrite (write_block_framed s d label p Hs).
      destruct (text_read flushed F (locals s ++ start_line label) p) as [text|e].
      - cbv beta iota zeta.
        match goal with
        | |- exists d', for_each _ _ ?st = _ =>
            destruct (IH st _ Hitems eq_refl) as [d' Hd']; exists d'; exact Hd'
        end.
      - cbv beta iota zeta. eexists. reflexivity. }
    destruct it as [p|e p|p].
    + apply (Hblock (normalized_relative_path p) p).
      * now apply combine_walked_good.
      * reflexivity.
    + apply (Hblock e p); reflexivity.
    + clear Hblock. cbn [for_each combined_run combine_item]. unfold bind, print.
      cbv beta iota.
      match goal with
      | |- exists d', for_each _ _ ?st = _ =>
          destruct (IH st d Hitems Hs) as [d' Hd']; exists d'; exact Hd'
      end.
Qed.

End CombinedOpen.

(** *** Well-formed trees stay well-formed *)

Lemma unique_set_entry k m es : unique_names (set_entry k m es) = unique_names es.
Proof.
  induction es as [|[j x] es IH]; simpl; [reflexivity|].
  destruct (str_eqb k j) eqn:E; simpl.
  - reflexivity.
  - apply str_eqb_neq in E.
    rewrite find_set_entry_other by (intro; subst; now apply E). now rewrite IH.
Qed.

Lemma forallb_set_entry (P : pystr * node -> bool) k m es :
  (forall j, P (j, m) = P (k, m)) ->
  P (k, m) = true -> forallb P es = true -> forallb P (set_entry k m es) = true.
Proof.
  intros Hj Hk. induction es as [|[j x] es IH]; simpl; intro H.
  - now rewrite Hk.
  - apply andb_true_iff in H as [H1 H2].
    destruct (str_eqb k j) eqn:E; simpl.
    + apply str_eqb_eq in E; subst j. now rewrite Hk, H2.
    + now rewrite H1, IH.
Qed.

Lemma well_formed_set_entry k m es :
  well_formed (Dir es) = true -> valid_name k = true -> well_formed m = true ->
  well_formed (Dir (set_entry k m es)) = true.
Proof.
  simpl. intros H Hk Hm. apply andb_true_iff in H as [H1 H2].
  rewrite unique_set_entry, H1. simpl.
  induction es as [|[j x] es IH]; simpl in *.
  - now rewrite Hk, Hm.
  - apply andb_true_iff in H2 as [H2 H3].
    destruct (find_entry j es); [discriminate|].
    destruct (str_eqb k j) eqn:E; simpl.
    + apply str_eqb_eq in E; subst j. now rewrite Hk, Hm, H3.
    + rewrite H2. now apply IH.
Qed.

Lemma make_dirs_well_formed cs : forall n n',
  well_formed n = true -> forallb valid_name cs = true ->
  make_dirs n cs = inl n' -> well_formed n' = true.
Proof.
  induction cs as [|c cs IH]; intros n n' Hw Hv H; destruct n as [r d|es]; simpl in H;
    try discriminate.
  - now inversion H.
  - simpl in Hv. apply andb_true_iff in Hv as [Hc Hv].
    destruct (make_dirs _ cs) as [m'|b] eqn:E; [|discriminate].
    inversion H; subst. apply well_formed_set_entry; auto.
    refine (IH _ _ _ Hv E).
    destruct (find_entry c es) as [x|] eqn:Ef; [|reflexivity].
    apply (well_formed_entry _ _ _ Hw (find_entry_in _ _ _ Ef)).
Qed.

Lemma place_well_formed cs : forall n m n',
  well_formed n = true -> forallb valid_name cs = true -> well_formed m = true ->
  place n cs m = Some n' -> well_formed n' = true.
Proof.
  induction cs as [|c cs IH]; intros n m n' Hw Hv Hm H.
  - simpl in H. inversion H; subst. exact Hm.
  - simpl in Hv. apply andb_true_iff in Hv as [Hc Hv].
    simpl in H. destruct n as [r d|es]; [discriminate|].
    destruct cs as [|c2 cs].
    + inversion H; subst. now apply well_formed_set_entry.
    + destruct (find_entry c es) as [x|] eqn:Ef; [|discriminate].
      destruct (place x (c2 :: cs) m) as [x'|] eqn:P; [|discriminate].
      inversion H; subst. apply well_formed_set_entry; auto.
      refine (IH _ _ _ _ Hv Hm P).
      apply (well_formed_entry _ _ _ Hw (find_entry_in _ _ _ Ef)).
Qed.

Lemma valid_output_components : forallb valid_name output_components = true.
Proof. reflexivity. Qed.

Lemma valid_combined_components : forallb valid_name combined_components = true.
Proof. reflexivity. Qed.

Lemma for_each_single {L A} (g : A -> M L unit) (x : A) (s : state L) :
  for_each [x] g s = g x s.
Proof.
  simpl. unfold bind, ret. destruct (g x s) as [s1 [[]|e]]; reflexivity.
Qed.

Lemma kinds_alike n n' p :
  (forall cs, alike (lookup n' cs) (lookup n cs)) ->
  isdir n' p = isdir n p /\ isfile n' p = isfile n p.
Proof.
  intro H. unfold isdir, isfile, node_at. destruct (resolve p) as [cs|]; [|now split].
  specialize (H cs).
  destruct (lookup n' cs) as [[r d|es]|], (lookup n cs) as [[r1 d1|es1]|];
    simpl in H; try contradiction; try (now split).
  destruct (ends_with_sep p); now split.
Qed.

(** *** [txtexport_onefile.py]: the loop over the manifest *)

Section CombineLoop.
Variable flushed : list byte -> list byte.
Variable F : node.
Variable r0 : bool.
Variable d0 : list byte.
Hypothesis HF : lookup F combined_components = Some (File r0 d0).
Hypothesis HW : well_formed F = true.

Lemma combine_walked_keeps p s :
  combined_open F s -> combined_open F (fst (combine_walked flushed p s)).
Proof.
  intros [d Hs]. unfold combine_walked.
  destruct (relpath p base_dir) as [rel|]; [|now exists d].
  rewrite (write_block_framed flushed F r0 d0 HF s d _ _ Hs).
  destruct (text_read _ _ _ _); eexists; reflexivity.
Qed.

Lemma combine_files_body :
  combine_files flushed = walk_body (combine_walked flushed).
Proof. reflexivity. Qed.

Lemma resolved_files_good e : Forall item_good (resolved_files F e).
Proof.
  unfold resolved_files.
  destruct (node_at F (join base_dir (lstrip_slash e))) as [[r d|es]|] eqn:E;
    try (constructor; [exact I|constructor]).
  apply node_at_dir in E as (cs & Hr & Hl).
  destruct (well_formed_lookup _ _ _ HW Hl) as [Hes _].
  pose proof (tree_files_walked (fun _ => true) (fun _ _ _ => eq_refl)
                (Dir es) _ cs Hr eq_refl Hes) as Hf.
  apply Forall_map. eapply Forall_impl; [|exact Hf].
  intros p (root & c & name & -> & Hroot & _ & Hn). simpl.
  now rewrite (resolve_join_name _ _ _ Hroot Hn).
Qed.

Lemma combine_entry_items e s :
  combined_open F s ->
  combine_entry flushed e s = for_each (resolved_files F e) (combine_item flushed) s.
Proof.
  intros [d Hs]. unfold combine_entry, resolved_files.
  set (source_path := join base_dir (lstrip_slash e)).
  unfold bind at 1, get. cbv beta iota.
  assert (Ha : forall cs, alike (lookup (fs s) cs) (lookup F cs))
    by (intro cs; rewrite Hs; apply (alike_set_data F r0 d0 HF)).
  destruct (kinds_alike F (fs s) source_path Ha) as [-> ->].
  unfold isdir, isfile.
  destruct (node_at F source_path) as [[r d1|es]|] eqn:E.
  - now rewrite for_each_single.
  - apply node_at_dir in E as (cs & Hr & Hl).
    destruct (well_formed_lookup _ _ _ HW Hl) as [Hes _].
    rewrite for_each_map. unfold os_walk, bind, get. cbv beta iota.
    rewrite combine_files_body.
    apply (walk_static F (combined_open F) (fun _ => true) (combine_walked flushed)
             (fun _ _ _ => eq_refl)) with (cs := cs); auto.
    + intros s1 c [d1 Hs1] _. rewrite Hs1. apply (alike_set_data F r0 d0 HF).
    + intros. now apply combine_walked_keeps.
    + rewrite Hs, (height_set_data F r0 d0 HF).
      pose proof (height_lookup _ _ _ Hl). lia.
    + now exists d.
  - now rewrite for_each_single.
Qed.

Lemma combine_item_keeps it s :
  item_good it -> combined_open F s -> combined_open F (fst (combine_item flushed it s)).
Proof.
  intros Hg [d Hs].
  destruct (combine_items_framed flushed F r0 d0 HF [it] s d
              (Forall_cons _ Hg (Forall_nil _)) Hs) as [d' H].
  rewrite for_each_single in H. rewrite H. now exists d'.
Qed.

Lemma combine_entry_keeps e s :
  combined_open F s -> combined_open F (fst (combine_entry flushed e s)).
Proof.
  intros Hs. rewrite (combine_entry_items e s Hs).
  apply (for_each_keeps (combined_open F) item_good _ combine_item_keeps); auto.
  apply resolved_files_good.
Qed.

(** The loop over the manifest is [combined_run] over what it resolves to. *)
Lemma combine_loop entries s d :
  fs s = set_data F combined_components d ->
  exists d',
    let items := flat_map (resolved_files F) entries in
    for_each entries (combine_entry flushed) s
    = (mkState (set_data F combined_components d')
         (snd (fst (combined_run flushed F items (locals s) (stdout s))))
         (fst (fst (combined_run flushed F items (locals s) (stdout s)))),
       snd (combined_run flushed F items (locals s) (stdout s))).
Proof.
  intro Hs.
  assert (E : for_each entries (combine_entry flushed) s
              = for_each (flat_map (resolved_files F) entries) (combine_item flushed) s).
  { rewrite for_each_flat_map.
    apply (for_each_ext (combined_open F) (fun _ => True)).
    - intros. now apply combine_entry_keeps.
    - intros. now apply combine_entry_items.
    - apply Forall_forall. auto.
    - now exists d. }
  cbv zeta. rewrite E.
  apply (combine_items_framed flushed F r0 d0 HF _ s d); [|exact Hs].
  apply Forall_flat_map, Forall_forall. intros e _. apply resolved_files_good.
Qed.

End CombineLoop.

(** *** [txtexport_onefile.py]: the run *)

Lemma read_file_paths_entries {L} locale_decode (s : state L) entries :
  manifest_entries locale_decode (fs s) = Some entries ->
  read_file_paths locale_decode s = (s, Ok entries).
Proof.
  unfold manifest_entries. cbv [read_file_paths bind read_bytes get].
  destruct (node_at (fs s) prompt_file) as [[[|] data|es]|]; try discriminate.
  cbv [ret]. destruct (locale_decode data); [|discriminate].
  intro H. inversion H. reflexivity.
Qed.

Lemma lookup_output_dir n :
  isdir n output_dir = true -> exists es, lookup n output_components = Some (Dir es).
Proof.
  unfold isdir. destruct (node_at n output_dir) as [[|es]|] eqn:E; try discriminate.
  apply node_at_dir in E as (c & Hc & Hl). rewrite resolve_output_dir in Hc.
  inversion Hc; subst. eauto.
Qed.

Lemma make_dirs_isdir n n' :
  make_dirs n output_components = inl n' -> isdir n' output_dir = true.
Proof.
  intro H. unfold isdir, node_at. rewrite resolve_output_dir.
  destruct (make_dirs_lookup _ _ _ H) as [es ->]. reflexivity.
Qed.

(** Opening the combined file for writing, in a tree that has the output
    directory and no directory where the file goes. *)
Lemma opened_spec n :
  isdir n output_dir = true -> isdir n output_file = false ->
  exists r,
    place n combined_components (File r []) = Some (opened n)
    /\ lookup (opened n) combined_components = Some (File r [])
    /\ (forall L o (l : L),
          store output_file [] (mkState n o l) = (mkState (opened n) o l, Ok tt)).
Proof.
  intros Hd Hf. destruct (lookup_output_dir _ Hd) as [es Hes].
  set (r := match lookup n combined_components with Some (File r _) => r | _ => true end).
  destruct (place_child_some output_components n es (lit "all_files_combined.txt")
              (File r []) Hes) as (n' & Hp & _ & Hl).
  fold combined_components in Hp, Hl.
  assert (Ho : opened n = n') by (unfold opened; fold r; now rewrite Hp).
  exists r. rewrite Ho. split; [exact Hp|]. split; [exact Hl|].
  intros L o l. cbv [store bind get fs]. destruct resolve_combined as [-> ->].
  unfold isdir, node_at in Hf. destruct resolve_combined as [Hr He]. rewrite Hr in Hf.
  subst r. destruct (lookup n combined_components) as [[r1 d1|es1]|].
  - now rewrite Hp.
  - discriminate.
  - now rewrite Hp.
Qed.

Section OnefileRun.
Variable locale_decode : list byte -> option pystr.
Variable flushed : list byte -> list byte.

Lemma onefile_run fs0 F0 entries :
  make_dirs fs0 output_components = inl F0 ->
  manifest_entries locale_decode F0 = Some entries ->
  isdir F0 output_file = false ->
  well_formed fs0 = true ->
  txtexport_onefile locale_decode flushed fs0 = onefile_outcome flushed (opened F0) entries.
Proof.
  intros Hm He Hf Hw.
  destruct (opened_spec F0 (make_dirs_isdir _ _ Hm) Hf) as (r & Hp & Hl & Hst).
  assert (HW1 : well_formed (opened F0) = true).
  { apply (place_well_formed combined_components F0 (File r []) _
             (make_dirs_well_formed _ _ _ Hw valid_output_components Hm)
             valid_combined_components eq_refl Hp). }
  unfold txtexport_onefile, txtexport_onefile_main.
  rewrite dirname_output_file. unfold bind at 1. rewrite (makedirs_ok _ _ _ _ Hm).
  unfold bind at 1. rewrite (read_file_paths_entries _ _ entries) by exact He.
  unfold bind at 1, set_locals at 1. cbv beta iota. cbn [fs stdout locals].
  unfold bind at 1. rewrite Hst.
  destruct (combine_loop flushed (opened F0) r [] Hl HW1 entries
              (mkState (opened F0) [] []) []) as [d' Hloop].
  { cbn [fs]. symmetry. apply (set_data_same _ _ _ Hl). }
  cbv zeta in Hloop. cbn [locals stdout] in Hloop.
  unfold bind, finally. rewrite Hloop.
  unfold combined_file_close, bind, get. cbv beta iota.
  erewrite (store_combined (opened F0) r [] Hl) by reflexivity. cbn [locals stdout].
  unfold onefile_outcome. cbv zeta.
  destruct (snd (combined_run flushed (opened F0)
                   (flat_map (resolved_files (opened F0)) entries) [] [])) as [[]|e].
  - reflexivity.
  - now rewrite app_nil_r.
Qed.

End OnefileRun.

Section CombinedBlocks.
Variable locale_decode : list byte -> option pystr.
Variable flushed : list byte -> list byte.

Lemma node_at_set_data_other F r0 d0 p r d cs x :
  lookup F combined_components = Some (File r0 d0) ->
  node_at F p = Some (File r d) -> resolve p = Some cs -> cs <> combined_components ->
  node_at (set_data F combined_components x) p = Some (File r d).
Proof.
  intros HF Hp Hr Hne.
  destruct (node_at_file _ _ _ _ Hp) as (cs' & Hr' & Hl & He).
  rewrite Hr in Hr'. inversion Hr'; subst cs'.
  destruct (files_apart _ _ _ _ _ _ _ Hl HF Hne) as [A1 A2].
  unfold node_at. rewrite Hr.
  now rewrite (place_lookup_other _ _ _ _ _ (set_data_place F r0 d0 HF x) A1 A2), Hl, He.
Qed.

Lemma text_read_readable F r0 d0 it written :
  lookup F combined_components = Some (File r0 d0) ->
  item_readable F it = true ->
  match it with
  | Missing _ => True
  | _ => text_read flushed F written (item_path it)
         = Ok (read_text_utf8_ignore (item_data F it))
  end.
Proof.
  intros HF H. destruct it as [p|e p|p]; [| |exact I]; simpl in *.
  all: unfold text_read, item_data; simpl.
  all: destruct (node_at F p) as [[[|] d|es]|] eqn:E; try discriminate.
  all: destruct (resolve p) as [cs|] eqn:Er; try discriminate.
  all: apply negb_true_iff in H.
  all: rewrite (node_at_set_data_other F r0 d0 p true d cs _ HF E Er); [reflexivity|].
  all: intro; subst cs; now rewrite (proj2 (comps_eqb_eq _ _) eq_refl) in H.
Qed.

Lemma combined_run_readable F r0 d0 items : forall written printed,
  lookup F combined_components = Some (File r0 d0) ->
  forallb (item_readable F) items = true ->
  exists printed',
    combined_run flushed F items written printed
    = (written ++ flat_map (item_block F) items, printed', Ok tt).
Proof.
  induction items as [|it items IH]; intros written printed HF H.
  - exists printed. simpl. now rewrite app_nil_r.
  - simpl in H. apply andb_true_iff in H as [Hit H].
    pose proof (text_read_readable F r0 d0 it (written ++ start_line (item_label it))
                  HF Hit) as E.
    destruct it as [p|e p|p].
    + cbn [combined_run]. cbv zeta. rewrite E.
      destruct (IH ((written ++ start_line (item_label (Walked p)))
                      ++ read_text_utf8_ignore (item_data F (Walked p))
                      ++ end_line (item_label (Walked p))) printed HF H) as [printed' ->].
      exists printed'. cbn [flat_map item_block]. unfold file_block.
      now rewrite <- !app_assoc.
    + cbn [combined_run]. cbv zeta. rewrite E.
      destruct (IH ((written ++ start_line (item_label (Direct e p)))
                      ++ read_text_utf8_ignore (item_data F (Direct e p))
                      ++ end_line (item_label (Direct e p))) printed HF H) as [printed' ->].
      exists printed'. cbn [flat_map item_block]. unfold file_block.
      now rewrite <- !app_assoc.
    + cbn [combined_run flat_map item_block]. simpl app. now apply IH.
Qed.

(** Claim C1, amended.  In [txtexport_onefile.py], when every resolved file can
    be read and none is the combined file itself, the combined text is the
    blocks of the resolved files in discovery order, each block the start line with the label, the text of
    the file decoded as UTF-8 with undecodable bytes dropped, a line end, the
    end line with the same label, an empty line.  The label is the normalised
    relative path for a file found by walking a directory, and the manifest
    line as it stands for an entry that names a file. *)
Theorem combined_output_blocks (fs0 F0 : node) (entries : list pystr) :
  well_formed fs0 = true ->
  make_dirs fs0 output_components = inl F0 ->
  manifest_entries locale_decode F0 = Some entries ->
  isdir F0 output_file = false ->
  let n := opened F0 in
  let items := flat_map (resolved_files n) entries in
  forallb (item_readable n) items = true ->
  let text := flat_map (item_block n) items in
  exists printed,
    txtexport_onefile locale_decode flushed fs0
    = (mkState (set_data n combined_components (text_file_bytes text)) printed text, Ok tt).
Proof.
  intros Hw Hm He Hf n items Hr text.
  rewrite (onefile_run locale_decode flushed fs0 F0 entries Hm He Hf Hw).
  destruct (opened_spec F0 (make_dirs_isdir _ _ Hm) Hf) as (r & _ & Hl & _).
  unfold onefile_outcome. cbv zeta. fold n. fold items.
  destruct (combined_run_readable n r [] items [] [] Hl Hr) as [printed' ->].
  simpl. eexists. reflexivity.
Qed.

(** Running [txtexport_onefile.py] on the tree it left leaves the same
    tree. *)
Lemma onefile_rerun (fs0 F0 : node) (entries : list pystr) :
  well_formed fs0 = true ->
  make_dirs fs0 output_components = inl F0 ->
  manifest_entries locale_decode F0 = Some entries ->
  isdir F0 output_file = false ->
  txtexport_onefile locale_decode flushed
    (fs (fst (txtexport_onefile locale_decode flushed fs0)))
  = txtexport_onefile locale_decode flushed fs0.
Proof.
  intros Hw Hm He Hf.
  destruct (opened_spec F0 (make_dirs_isdir _ _ Hm) Hf) as (r & Hp & Hl & _).
  assert (HW0 : well_formed F0 = true)
    by apply (make_dirs_well_formed _ _ _ Hw valid_output_components Hm).
  assert (HW1 : well_formed (opened F0) = true)
    by apply (place_well_formed combined_components F0 (File r []) _ HW0
                valid_combined_components eq_refl Hp).
  rewrite (onefile_run locale_decode flushed fs0 F0 entries Hm He Hf Hw).
  unfold onefile_outcome at 1. cbv zeta. cbn [fst fs].
  set (bytes := text_file_bytes _).
  set (fs1 := set_data (opened F0) combined_components bytes).
  assert (Hp1 : place (opened F0) combined_components (File r bytes) = Some fs1)
    by apply (set_data_place _ _ _ Hl).
  assert (Hl1 : lookup fs1 combined_components = Some (File r bytes))
    by apply (lookup_set_data _ _ _ Hl).
  assert (HWf : well_formed fs1 = true)
    by apply (place_well_formed combined_components _ (File r bytes) _ HW1
                valid_combined_components eq_refl Hp1).
  assert (Hother : forall p, prefixb p combined_components = false ->
                     prefixb combined_components p = false ->
                     lookup fs1 p = lookup F0 p).
  { intros p A1 A2.
    rewrite (place_lookup_other _ _ _ _ _ Hp1 A1 A2).
    apply (place_lookup_other _ _ _ _ _ Hp A1 A2). }
  assert (Hout : exists es, lookup fs1 output_components = Some (Dir es)).
  { pose proof (alike_set_data _ _ _ Hl bytes output_components) as Ha. fold fs1 in Ha.
    destruct (lookup_output_dir _ (make_dirs_isdir _ _ Hm)) as [es0 Hes0].
    destruct (place_child_some output_components F0 es0 (lit "all_files_combined.txt")
                (File r []) Hes0) as (n' & Hp' & Hl' & _).
    fold combined_components in Hp'. rewrite Hp in Hp'. inversion Hp'; subst n'.
    rewrite Hl' in Ha. destruct (lookup fs1 output_components) as [[|es]|];
      simpl in Ha; try contradiction. eauto. }
  destruct Hout as [es1 Hes1].
  assert (Hm1 : make_dirs fs1 output_components = inl fs1)
    by apply (make_dirs_existing _ _ _ Hes1).
  assert (He1 : manifest_entries locale_decode fs1 = Some entries).
  { unfold manifest_entries, node_at in *. destruct resolve_prompt_file as [-> ->].
    now rewrite Hother. }
  assert (Hf1 : isdir fs1 output_file = false).
  { unfold isdir, node_at. destruct resolve_combined as [-> ->]. now rewrite Hl1. }
  assert (Ho1 : opened fs1 = opened F0).
  { unfold opened at 1. rewrite Hl1, (place_place _ _ _ _ (File r []) Hp1).
    now rewrite (place_same _ _ _ Hl). }
  rewrite (onefile_run locale_decode flushed fs1 fs1 entries Hm1 He1 Hf1 HWf).
  now rewrite Ho1.
Qed.

End CombinedBlocks.

(** *** Writing files into one directory *)

Lemma find_put_file_same k d es :
  exists r, find_entry k (put_file k d es) = Some (File r d)
            /\ r = match find_entry k es with Some (File r _) => r | _ => true end.
Proof. unfold put_file. rewrite find_set_entry_same. eauto. Qed.

Lemma find_put_file_other k k' d es :
  k <> k' -> find_entry k (put_file k' d es) = find_entry k es.
Proof. intro H. unfold put_file. now apply find_set_entry_other. Qed.

Lemma put_file_twice k d d' es : put_file k d (put_file k d' es) = put_file k d es.
Proof.
  unfold put_file at 1. destruct (find_put_file_same k d' es) as (r & -> & ->).
  unfold put_file. now rewrite set_entry_twice.
Qed.

Lemma set_entry_comm k k' m m' es :
  k <> k' -> find_entry k es <> None ->
  set_entry k m (set_entry k' m' es) = set_entry k' m' (set_entry k m es).
Proof.
  intros Hne. induction es as [|[j x] es IH]; simpl; intro Hp; [congruence|].
  destruct (str_eqb k j) eqn:E.
  - apply str_eqb_eq in E; subst j.
    assert (E' : str_eqb k' k = false) by (apply str_eqb_neq; congruence).
    rewrite E'. simpl. rewrite str_eqb_refl, E'. reflexivity.
  - destruct (str_eqb k' j) eqn:E2; simpl.
    + apply str_eqb_eq in E2; subst j. rewrite E, str_eqb_refl. reflexivity.
    + rewrite E, E2. now rewrite IH.
Qed.

Lemma put_file_comm k k' d d' es :
  k <> k' -> find_entry k es <> None ->
  put_file k d (put_file k' d' es) = put_file k' d' (put_file k d es).
Proof.
  intros Hne Hp. unfold put_file at 1 3.
  rewrite (find_put_file_other k k' d' es Hne).
  rewrite (find_put_file_other k' k d es (not_eq_sym Hne)).
  unfold put_file. now apply set_entry_comm.
Qed.

Lemma put_file_present k k' d es :
  find_entry k es <> None -> find_entry k (put_file k' d es) <> None.
Proof.
  intro H. destruct (list_eq_dec N.eq_dec k k') as [->|Hne].
  - destruct (find_put_file_same k' d es) as (r & -> & _). discriminate.
  - now rewrite find_put_file_other.
Qed.

Lemma put_files_present w : forall k es,
  find_entry k es <> None -> find_entry k (put_files w es) <> None.
Proof.
  induction w as [|[k' d] w IH]; intros k es H; [exact H|].
  simpl. apply IH. now apply put_file_present.
Qed.

Lemma put_files_after w : forall k d es,
  find_entry k es <> None ->
  put_files w (put_file k d es)
  = if written_to k w then put_files w es else put_file k d (put_files w es).
Proof.
  induction w as [|[k1 d1] w IH]; intros k d es Hp; [reflexivity|].
  unfold written_to. simpl. destruct (str_eqb k k1) eqn:E.
  - apply str_eqb_eq in E; subst k1. simpl. now rewrite put_file_twice.
  - apply str_eqb_neq in E. simpl.
    rewrite <- (put_file_comm k k1 d d1 es E Hp).
    apply IH. now apply put_file_present.
Qed.

(** Writing the same files a second time changes nothing. *)
Lemma put_files_twice w : forall es, put_files w (put_files w es) = put_files w es.
Proof.
  induction w as [|[k d] w IH]; intro es; [reflexivity|].
  simpl. set (z := put_file k d es).
  assert (Hz : find_entry k z <> None).
  { subst z. destruct (find_put_file_same k d es) as (r & -> & _). discriminate. }
  rewrite (put_files_after w k d (put_files w z) (put_files_present w k z Hz)).
  rewrite IH. destruct (written_to k w) eqn:E; [reflexivity|].
  assert (Ez : z = put_file k d z) by (subst z; now rewrite put_file_twice).
  rewrite Ez at 2. rewrite (put_files_after w k d z Hz), E. reflexivity.
Qed.

Lemma put_files_app w1 w2 es : put_files (w1 ++ w2) es = put_files w2 (put_files w1 es).
Proof. unfold put_files. apply fold_left_app. Qed.

Lemma put_files_snoc w k d es :
  put_files (w ++ [(k, d)]) es = put_file k d (put_files w es).
Proof. rewrite put_files_app. reflexivity. Qed.

Lemma is_dir_put_file k k' d es :
  is_dir_entry k (put_file k' d es) = true -> is_dir_entry k es = true /\ k <> k'.
Proof.
  unfold is_dir_entry. destruct (list_eq_dec N.eq_dec k k') as [->|Hne].
  - destruct (find_put_file_same k' d es) as (r & -> & _). discriminate.
  - rewrite find_put_file_other by assumption. auto.
Qed.

Lemma no_new_dirs_put k d a b :
  no_new_dirs a b -> no_new_dirs (put_file k d a) (put_file k d b).
Proof.
  intros H j Hj. apply is_dir_put_file in Hj as [Hj Hne].
  unfold is_dir_entry. rewrite find_put_file_other by assumption. now apply H.
Qed.

Lemma no_new_dirs_put_files w : forall es, no_new_dirs (put_files w es) es.
Proof.
  induction w as [|[k d] w IH]; intros es j Hj; [exact Hj|].
  simpl in Hj. apply IH in Hj. now apply is_dir_put_file in Hj as [Hj _].
Qed.

(** *** Off the output directory *)

Lemma prefixb_app_l a b c : prefixb (a ++ b) c = true -> prefixb a c = true.
Proof.
  intro H. apply prefixb_spec in H as [r ->]. apply prefixb_spec.
  exists (b ++ r). now rewrite app_assoc.
Qed.

Lemma off_output_child cs k : off_output cs = true -> off_output (cs ++ [k]) = true.
Proof.
  unfold off_output. rewrite !apart_spec. intros [H1 H2]. split.
  - destruct (prefixb (cs ++ [k]) output_components) eqn:E; [|reflexivity].
    apply prefixb_app_l in E. congruence.
  - destruct (prefixb output_components (cs ++ [k])) eqn:E; [|reflexivity].
    apply prefixb_spec in E as [r E].
    destruct (exists_last (l := r)) as (r' & x & ->).
    + intro Hr. subst r. rewrite app_nil_r in E.
      assert (prefixb cs output_components = true)
        by (apply prefixb_spec; exists [k]; now rewrite E).
      congruence.
    + rewrite app_assoc in E. apply app_inj_tail in E as [E _].
      assert (prefixb output_components cs = true)
        by (apply prefixb_spec; now exists r').
      congruence.
Qed.

Lemma off_output_not_child cs k : off_output cs = true -> cs <> output_components ++ [k].
Proof.
  unfold off_output. rewrite apart_spec. intros [_ H] E. subst cs.
  assert (prefixb output_components (output_components ++ [k]) = true)
    by (apply prefixb_spec; now exists [k]).
  congruence.
Qed.

Lemma place_child_ne cs n es k m :
  cs <> [] -> lookup n cs = Some (Dir es) ->
  place n (cs ++ [k]) m = place n cs (Dir (set_entry k m es)).
Proof.
  intros Hne H. rewrite (place_child cs n es k m H). destruct cs; [congruence|reflexivity].
Qed.

Lemma output_components_ne : output_components <> [].
Proof. discriminate. Qed.

(** *** The output directory while the copies go on *)

Section OutputFramed.
Variable F : node.
Variable es0 : list (pystr * node).
Hypothesis HF : lookup F output_components = Some (Dir es0).

Lemma set_entries_place es :
  place F output_components (Dir es) = Some (set_entries F output_components es).
Proof.
  unfold set_entries.
  destruct (place_some output_components F (Dir es) _ HF) as [n' ->]. reflexivity.
Qed.

Lemma lookup_set_entries es :
  lookup (set_entries F output_components es) output_components = Some (Dir es).
Proof. apply (place_lookup_same _ _ _ _ (set_entries_place es)). Qed.

Lemma lookup_set_entries_off es p :
  off_output p = true ->
  lookup (set_entries F output_components es) p = lookup F p.
Proof.
  unfold off_output. rewrite apart_spec. intros [A1 A2].
  apply (place_lookup_other _ _ _ _ _ (set_entries_place es) A1 A2).
Qed.

Lemma set_entries_same : set_entries F output_components es0 = F.
Proof.
  pose proof (set_entries_place es0) as H. rewrite (place_same _ _ _ HF) in H. congruence.
Qed.

Lemma place_child_framed es k m :
  place (set_entries F output_components es) (output_components ++ [k]) m
  = Some (set_entries F output_components (set_entry k m es)).
Proof.
  rewrite (place_child_ne _ _ es k m output_components_ne (lookup_set_entries es)).
  rewrite (place_place _ _ _ _ _ (set_entries_place es)). apply set_entries_place.
Qed.

Lemma node_at_framed es p cs :
  resolve p = Some cs -> off_output cs = true ->
  node_at (set_entries F output_components es) p = node_at F p.
Proof.
  intros Hr Ho. unfold node_at. now rewrite Hr, (lookup_set_entries_off es cs Ho).
Qed.

Lemma store_child {L} (s : state L) es dst k data :
  fs s = set_entries F output_components es ->
  resolve dst = Some (output_components ++ [k]) -> ends_with_sep dst = false ->
  store dst data s
  = if is_dir_entry k es then (s, Raise PermissionError)
    else (mkState (set_entries F output_components (put_file k data es))
            (stdout s) (locals s), Ok tt).
Proof.
  destruct s as [n o l]. cbn [fs stdout locals]. intros -> Hr He.
  cbv [store bind get fs stdout locals set_fs ret raise]. rewrite Hr, He.
  rewrite lookup_app, lookup_set_entries. unfold is_dir_entry, put_file.
  cbn [lookup].
  destruct (find_entry k es) as [[r d|esd]|] eqn:E.
  - now rewrite place_child_framed.
  - reflexivity.
  - now rewrite place_child_framed.
Qed.

End OutputFramed.

(** *** Copying one file *)

Lemma plain_txt b : plain b = true -> valid_name (b ++ lit ".txt") = true.
Proof.
  intro Hp. assert (Ht : plain (lit ".txt") = true) by reflexivity.
  unfold valid_name. rewrite (plain_app _ _ Hp Ht). simpl.
  destruct b as [|x [|y b]]; [discriminate| |]; simpl.
  - now rewrite !andb_false_r.
  - destruct b; simpl; now rewrite !andb_false_r.
Qed.

Lemma destination_resolves b :
  plain b = true ->
  let dst := join output_dir (b ++ lit ".txt") in
  resolve dst = Some (output_components ++ [b ++ lit ".txt"])
  /\ ends_with_sep dst = false.
Proof.
  intros Hp dst. pose proof (plain_txt _ Hp) as Hk. split.
  - apply resolve_join_name; [exact resolve_output_dir|exact Hk].
  - unfold dst. rewrite (join_output_dir _ (valid_name_plain _ Hk)).
    change (BACKSLASH :: b ++ lit ".txt") with ((BACKSLASH :: b) ++ lit ".txt").
    rewrite app_assoc, ends_with_sep_app by discriminate. reflexivity.
Qed.

Lemma samefile_off n p cs k :
  resolve p = Some cs -> off_output cs = true ->
  forall dst, resolve dst = Some (output_components ++ [k]) -> samefile n p dst = false.
Proof.
  intros Hr Ho dst Hd. unfold samefile. rewrite Hr, Hd.
  destruct (node_at n p); [|reflexivity]. destruct (node_at n dst); [|reflexivity].
  destruct (comps_eqb cs (output_components ++ [k])) eqn:E; [|reflexivity].
  apply comps_eqb_eq in E. now destruct (off_output_not_child cs k Ho).
Qed.

Section CopyFramed.
Variable F : node.
Variable es0 : list (pystr * node).
Hypothesis HF : lookup F output_components = Some (Dir es0).

Lemma copy_one_framed rec p es o l :
  copyable p ->
  copy_one rec p (mkState (set_entries F output_components es) o l)
  = match node_at F p with
    | Some (File true data) =>
        if is_dir_entry (basename p ++ lit ".txt") es
        then (mkState (set_entries F output_components es) o (l ++ [rec]),
              Raise PermissionError)
        else (mkState (set_entries F output_components
                         (put_file (basename p ++ lit ".txt") data es))
                (o ++ [copied_line p]) (l ++ [rec]), Ok tt)
    | Some _ => (mkState (set_entries F output_components es) o (l ++ [rec]),
                 Raise PermissionError)
    | None => (mkState (set_entries F output_components es) o (l ++ [rec]),
               Raise FileNotFoundError)
    end.
Proof.
  intros (cs & Hr & Ho & Hb).
  destruct (destination_resolves _ Hb) as [Hd He].
  unfold copy_one, processed_files_append.
  cbv [bind get set_locals fs stdout locals copyfile].
  rewrite (samefile_off _ p cs _ Hr Ho _ Hd).
  cbv [read_bytes bind get fs raise ret].
  rewrite (node_at_framed F es0 HF es p cs Hr Ho).
  destruct (node_at F p) as [[[|] data|esd]|]; try reflexivity.
  rewrite (store_child F es0 HF (mkState (set_entries F output_components es) o (l ++ [rec]))
             es _ _ data eq_refl Hd He). cbn [fs stdout locals].
  destruct (is_dir_entry _ es); reflexivity.
Qed.

End CopyFramed.

(** *** The copy loop on the tree off the output directory *)

Section CopyLoop.
Variable F : node.
Variable es0 : list (pystr * node).
Hypothesis HF : lookup F output_components = Some (Dir es0).
Hypothesis HW : well_formed F = true.

Lemma copy_walked_good p :
  resolve p <> None -> copy_walked p = copy_one (SLASH :: normalized_relative_path p) p.
Proof.
  intro H. unfold copy_walked, normalized_relative_path, relpath.
  rewrite resolve_base_dir. destruct (resolve p); [reflexivity|congruence].
Qed.

Lemma copy_files_body : copy_files = walk_body copy_walked.
Proof. reflexivity. Qed.

Lemma copy_item_one it :
  item_good it ->
  match it with
  | Missing _ => True
  | _ => copy_item it = copy_one (item_record it) (item_path it)
  end.
Proof. destruct it; simpl; intro H; [now apply copy_walked_good|reflexivity|exact I]. Qed.

Lemma copy_item_keeps it s :
  item_fit it -> output_framed F s -> output_framed F (fst (copy_item it s)).
Proof.
  intros [Hg Hc] [es Hs]. destruct s as [n o l]. simpl in Hs. subst n.
  pose proof (copy_item_one it Hg) as H1.
  destruct it as [p|e p|p]; [| |now exists es]; rewrite H1;
    rewrite (copy_one_framed F es0 HF _ _ es o l Hc); simpl;
    (destruct (node_at F p) as [[[|] data|esd]|]; [|now exists es..]);
    (destruct (is_dir_entry _ es); [now exists es|]); eexists; reflexivity.
Qed.

(** A loop that went through on the output directory [es] goes through, with
    the same writes, on one that has no directory more. *)
Lemma copy_items_again items : forall es es' o l s1,
  Forall item_fit items ->
  for_each items copy_item (mkState (set_entries F output_components es) o l) = (s1, Ok tt) ->
  no_new_dirs es' es ->
  let w := flat_map (item_copy F) items in
  fs s1 = set_entries F output_components (put_files w es)
  /\ no_new_dirs (put_files w es') (put_files w es)
  /\ for_each items copy_item (mkState (set_entries F output_components es') o l)
     = (mkState (set_entries F output_components (put_files w es')) (stdout s1) (locals s1),
        Ok tt).
Proof.
  induction items as [|it items IH]; intros es es' o l s1 Hfit Hrun Hd.
  - simpl in Hrun. inversion Hrun; subst. repeat split; assumption.
  - inversion Hfit as [|? ? [Hg Hc] Hfits]; subst.
    cbn [for_each flat_map] in Hrun |- *. unfold bind in Hrun |- * .
    pose proof (copy_item_one it Hg) as H1.
    destruct it as [p|e p|p].
    + rewrite H1 in Hrun |- *.
      rewrite (copy_one_framed F es0 HF _ _ es o l Hc) in Hrun.
      rewrite (copy_one_framed F es0 HF _ _ es' o l Hc). cbn [item_path item_copy] in *.
      destruct (node_at F p) as [[[|] data|esd]|]; try discriminate.
      destruct (is_dir_entry _ es) eqn:Ed; [discriminate|].
      destruct (is_dir_entry _ es') eqn:Ed'; [apply Hd in Ed'; congruence|].
      apply (IH _ _ _ _ _ Hfits Hrun (no_new_dirs_put _ data _ _ Hd)).
    + rewrite H1 in Hrun |- *.
      rewrite (copy_one_framed F es0 HF _ _ es o l Hc) in Hrun.
      rewrite (copy_one_framed F es0 HF _ _ es' o l Hc). cbn [item_path item_copy] in *.
      destruct (node_at F p) as [[[|] data|esd]|]; try discriminate.
      destruct (is_dir_entry _ es) eqn:Ed; [discriminate|].
      destruct (is_dir_entry _ es') eqn:Ed'; [apply Hd in Ed'; congruence|].
      apply (IH _ _ _ _ _ Hfits Hrun (no_new_dirs_put _ data _ _ Hd)).
    + cbn [copy_item print fs stdout locals item_copy app] in Hrun |- *.
      apply (IH _ _ _ _ _ Hfits Hrun Hd).
Qed.

Lemma walked_fit p : walked_path off_output p -> item_fit (Walked p).
Proof.
  intros (root & c & name & -> & Hr & Hc & Hn).
  pose proof (resolve_join_name _ _ _ Hr Hn) as Hj. split.
  - simpl. congruence.
  - exists (c ++ [name]). split; [exact Hj|]. split; [now apply off_output_child|].
    simpl. apply resolve_on_volume in Hr as (rest & Hv & _).
    rewrite (basename_join _ _ _ Hv (valid_name_plain _ Hn)). now apply valid_name_plain.
Qed.

(** The last segment of a path that names a file. *)
Lemma file_basename p r d : node_at F p = Some (File r d) -> plain (basename p) = true.
Proof.
  intro H. destruct (node_at_file _ _ _ _ H) as (cs & Hr & Hl & He).
  apply resolve_on_volume in Hr as (rest & Hv & ->).
  destruct (on_volume_head_tail _ _ Hv) as (a & c & Hc & E).
  pose proof (basename_sep_free _ _ Hv) as Hsf.
  assert (Hne : basename p <> []).
  { intro Hb. destruct Hv as (dl & -> & _ & _). rewrite Hb in E.
    assert (X : ends_with_sep (dl :: COLON :: rest) = true).
    { rewrite E. change (dl :: COLON :: a ++ [c]) with ((dl :: COLON :: a) ++ [c]).
      rewrite ends_with_sep_app by discriminate. unfold ends_with_sep. simpl. exact Hc. }
    congruence. }
  rewrite E in Hl. rewrite (components_app_name a c _ Hc Hsf) in Hl.
  unfold fold_comp in Hl.
  destruct (basename p) as [|x b] eqn:Eb; [congruence|]. cbn [nonempty negb orb] in Hl.
  destruct (str_eqb (x :: b) curdir) eqn:E1; [apply str_eqb_eq in E1; now rewrite E1|].
  destruct (str_eqb (x :: b) pardir) eqn:E2; [apply str_eqb_eq in E2; now rewrite E2|].
  destruct (well_formed_lookup _ _ _ HW Hl) as [_ Hv'].
  rewrite forallb_app in Hv'. apply andb_true_iff in Hv' as [_ Hv']. simpl in Hv'.
  rewrite andb_true_r in Hv'. now apply valid_name_plain.
Qed.

Lemma resolved_files_fit e : outside e = true -> Forall item_fit (resolved_files F e).
Proof.
  unfold outside, resolved_files. intro Ho.
  destruct (node_at F (join base_dir (lstrip_slash e))) as [[r d|es]|] eqn:E.
  - constructor; [|constructor]. split; [exact I|].
    destruct (node_at_file _ _ _ _ E) as (cs & Hr & _ & _). rewrite Hr in Ho.
    exists cs. repeat split; [exact Hr|exact Ho|]. apply (file_basename _ _ _ E).
  - apply node_at_dir in E as (cs & Hr & Hl). rewrite Hr in Ho.
    destruct (well_formed_lookup _ _ _ HW Hl) as [Hes _].
    pose proof (tree_files_walked off_output off_output_child (Dir es) _ cs Hr Ho Hes) as Hf.
    apply Forall_map. eapply Forall_impl; [|exact Hf]. intros p. apply walked_fit.
  - constructor; [|constructor]. split; exact I.
Qed.

Lemma framed_alike {L} (s : state L) cs :
  output_framed F s -> off_output cs = true -> alike (lookup (fs s) cs) (lookup F cs).
Proof.
  intros [es Hs] Ho. rewrite Hs, (lookup_set_entries_off F es0 HF es cs Ho). apply alike_refl.
Qed.

Lemma copy_entry_items e s :
  outside e = true -> output_framed F s ->
  copy_entry e s = for_each (resolved_files F e) copy_item s.
Proof.
  intros Ho Hs. pose proof Hs as [es Hfs]. unfold copy_entry, resolved_files.
  set (source_path := join base_dir (lstrip_slash e)).
  unfold bind at 1, get. cbv beta iota.
  assert (Hn : node_at (fs s) source_path = node_at F source_path).
  { unfold outside in Ho. fold source_path in Ho. rewrite Hfs.
    destruct (resolve source_path) as [cs|] eqn:Hr.
    - apply (node_at_framed F es0 HF es _ cs Hr Ho).
    - unfold node_at. now rewrite Hr. }
  unfold isdir, isfile. rewrite Hn.
  destruct (node_at F source_path) as [[r d1|es1]|] eqn:E.
  - now rewrite for_each_single.
  - apply node_at_dir in E as (cs & Hr & Hl).
    unfold outside in Ho. fold source_path in Ho. rewrite Hr in Ho.
    destruct (well_formed_lookup _ _ _ HW Hl) as [Hes _].
    unfold os_walk, bind, get. rewrite copy_files_body, for_each_map.
    apply (walk_static F (output_framed F) off_output copy_walked off_output_child)
      with (cs := cs); auto.
    + intros s' cs' Hs' Hc'. now apply framed_alike.
    + intros root c name s' Hr' Hc' Hn' Hs'.
      apply (copy_item_keeps (Walked (join root name))); [|exact Hs'].
      apply walked_fit. exists root, c, name. auto.
    + assert (Hl' : lookup (fs s) cs = Some (Dir es1))
        by (rewrite Hfs, (lookup_set_entries_off F es0 HF es cs Ho); exact Hl).
      pose proof (height_lookup _ _ _ Hl'). lia.
  - now rewrite for_each_single.
Qed.

Lemma copy_entry_keeps e s :
  outside e = true -> output_framed F s -> output_framed F (fst (copy_entry e s)).
Proof.
  intros Ho Hs. rewrite (copy_entry_items e s Ho Hs).
  apply (for_each_keeps (output_framed F) item_fit copy_item); auto.
  - intros x s'. apply copy_item_keeps.
  - now apply resolved_files_fit.
Qed.

(** The loop over the manifest is the loop over the resolved items. *)
Lemma copy_loop entries s :
  forallb outside entries = true -> output_framed F s ->
  for_each entries copy_entry s
  = for_each (flat_map (resolved_files F) entries) copy_item s.
Proof.
  intros Ho Hs. rewrite for_each_flat_map.
  apply (for_each_ext (output_framed F) (fun e => outside e = true)).
  - intros x s'. apply copy_entry_keeps.
  - intros x s'. apply copy_entry_items.
  - apply Forall_forall. now apply forallb_forall.
  - exact Hs.
Qed.

Lemma resolved_items_fit entries :
  forallb outside entries = true -> Forall item_fit (flat_map (resolved_files F) entries).
Proof.
  intro Ho. apply Forall_flat_map, Forall_forall. intros e He.
  apply resolved_files_fit. rewrite forallb_forall in Ho. now apply Ho.
Qed.

End CopyLoop.

(** *** A run of [txtexport.py], from the first statement to the last *)

Lemma resolve_project_file_system :
  resolve project_file_system_path
  = Some (output_components ++ [lit "project_file_system.txt"])
  /\ ends_with_sep project_file_system_path = false.
Proof. split; reflexivity. Qed.

Lemma off_output_prompt : off_output (base_components ++ [lit "prompt_file_list.txt"]) = true.
Proof. reflexivity. Qed.

Lemma lookup_set_entries_inj F es0 a b :
  lookup F output_components = Some (Dir es0) ->
  set_entries F output_components a = set_entries F output_components b -> a = b.
Proof.
  intros HF E. pose proof (lookup_set_entries F es0 HF a) as Ha.
  rewrite E, (lookup_set_entries F es0 HF b) in Ha. congruence.
Qed.

Section ExportRun.
Variable locale_decode : list byte -> option pystr.

Lemma makedirs_fails {L} n o (l : L) b :
  make_dirs n output_components = inr b ->
  exists e, makedirs output_dir (mkState n o l) = (mkState n o l, Raise e).
Proof.
  intro H. cbv [makedirs bind get fs]. rewrite resolve_output_dir, H.
  destruct b; eexists; reflexivity.
Qed.

Lemma read_file_paths_fails {L} (s : state L) :
  manifest_entries locale_decode (fs s) = None ->
  exists e, read_file_paths locale_decode s = (s, Raise e).
Proof.
  unfold manifest_entries. cbv [read_file_paths bind read_bytes get raise ret].
  destruct (node_at (fs s) prompt_file) as [[[|] data|es]|]; try (eexists; reflexivity).
  destruct (locale_decode data); [discriminate|]. eexists; reflexivity.
Qed.

Lemma txtexport_run fs0 F0 entries :
  make_dirs fs0 output_components = inl F0 ->
  manifest_entries locale_decode F0 = Some entries ->
  txtexport locale_decode fs0
  = bind (for_each entries copy_entry) (fun _ => write_index) (mkState F0 [] []).
Proof.
  intros Hm He. unfold txtexport, txtexport_main.
  unfold bind at 1. rewrite (makedirs_ok _ _ _ _ Hm).
  unfold bind at 1.
  rewrite (read_file_paths_entries locale_decode (mkState F0 [] []) entries He).
  reflexivity.
Qed.

(** A run that went through made the output directory and read the
    manifest. *)
Lemma txtexport_started fs0 s1 :
  txtexport locale_decode fs0 = (s1, Ok tt) ->
  exists F0 entries,
    make_dirs fs0 output_components = inl F0
    /\ manifest_entries locale_decode F0 = Some entries.
Proof.
  intro H. unfold txtexport, txtexport_main in H. unfold bind at 1 in H.
  destruct (make_dirs fs0 output_components) as [F0|b] eqn:Hm.
  - rewrite (makedirs_ok _ _ _ _ Hm) in H. exists F0.
    destruct (manifest_entries locale_decode F0) as [entries|] eqn:He; [eauto|].
    unfold bind at 1 in H.
    destruct (read_file_paths_fails (mkState F0 (@nil pystr) (@nil pystr)) He) as [e Hr].
    rewrite Hr in H. discriminate.
  - destruct (makedirs_fails fs0 [] (@nil pystr) b Hm) as [e Hr]. rewrite Hr in H.
    discriminate.
Qed.

Lemma write_index_framed F es0 es o l :
  lookup F output_components = Some (Dir es0) ->
  let k := lit "project_file_system.txt" in
  let data := text_file_bytes (project_file_text l) in
  write_index (mkState (set_entries F output_components es) o l)
  = if is_dir_entry k es
    then (mkState (set_entries F output_components es) o l, Raise PermissionError)
    else (mkState (set_entries F output_components (put_file k data es))
            (o ++ [lit "Exported processed files to: " ++ project_file_system_path]) l,
          Ok tt).
Proof.
  intros HF k data. destruct resolve_project_file_system as [Hr He].
  unfold write_index. unfold bind at 1, get. cbv beta iota. cbn [locals]. unfold bind.
  subst k data.
  rewrite (store_child F es0 HF (mkState (set_entries F output_components es) o l)
             es _ _ _ eq_refl Hr He).
  cbn [fs stdout locals]. destruct (is_dir_entry _ es); reflexivity.
Qed.

(** Running [txtexport.py] on the tree a run left comes to the same state,
    when no manifest entry leads into the output directory. *)
Lemma export_rerun fs0 s1 :
  well_formed fs0 = true ->
  (forall F0 entries,
     make_dirs fs0 output_components = inl F0 ->
     manifest_entries locale_decode F0 = Some entries ->
     forallb outside entries = true) ->
  txtexport locale_decode fs0 = (s1, Ok tt) ->
  txtexport locale_decode (fs s1) = (s1, Ok tt).
Proof.
  intros Hw Hout Hrun.
  destruct (txtexport_started _ _ Hrun) as (F0 & entries & Hm & He).
  specialize (Hout _ _ Hm He).
  assert (HW0 : well_formed F0 = true)
    by apply (make_dirs_well_formed _ _ _ Hw valid_output_components Hm).
  destruct (make_dirs_lookup _ _ _ Hm) as [es1 HF].
  pose proof (set_entries_same F0 es1 HF) as Hsame.
  rewrite (txtexport_run _ _ _ Hm He) in Hrun. unfold bind in Hrun.
  rewrite <- Hsame in Hrun at 1.
  rewrite (copy_loop F0 es1 HF HW0 entries) in Hrun;
    [|exact Hout|now exists es1].
  set (items := flat_map (resolved_files F0) entries) in *.
  pose proof (resolved_items_fit F0 HW0 entries Hout) as Hfit. fold items in Hfit.
  destruct (for_each items copy_item _) as [sa [[]|e]] eqn:Eloop; [|discriminate].
  set (w := flat_map (item_copy F0) items).
  destruct (copy_items_again F0 es1 HF items es1 es1 [] [] sa Hfit Eloop (fun _ H => H))
    as (Hsa & _ & Hsa').
  fold w in Hsa, Hsa'. rewrite Eloop in Hsa'.
  assert (Esa : sa = mkState (set_entries F0 output_components (put_files w es1))
                       (stdout sa) (locals sa)) by congruence.
  rewrite Esa in Hrun. rewrite (write_index_framed F0 es1 _ _ _ HF) in Hrun.
  set (k := lit "project_file_system.txt") in *.
  set (data := text_file_bytes (project_file_text (locals sa))) in *.
  destruct (is_dir_entry k (put_files w es1)) eqn:Ek; [discriminate|].
  set (W := w ++ [(k, data)]).
  assert (EW : forall es, put_file k data (put_files w es) = put_files W es)
    by (intro es; unfold W; symmetry; apply put_files_snoc).
  rewrite EW in Hrun. inversion Hrun as [Hs1]. clear Hrun.
  cbn [fs].
  assert (HF1 : lookup (set_entries F0 output_components (put_files W es1)) output_components
                = Some (Dir (put_files W es1))) by apply (lookup_set_entries F0 es1 HF).
  assert (Hm1 : make_dirs (set_entries F0 output_components (put_files W es1))
                  output_components
                = inl (set_entries F0 output_components (put_files W es1)))
    by apply (make_dirs_existing _ _ _ HF1).
  assert (He1 : manifest_entries locale_decode
                  (set_entries F0 output_components (put_files W es1)) = Some entries).
  { unfold manifest_entries in He |- *. destruct resolve_prompt_file as [Hr _].
    now rewrite (node_at_framed F0 es1 HF _ _ _ Hr off_output_prompt). }
  rewrite (txtexport_run _ _ _ Hm1 He1). unfold bind.
  rewrite (copy_loop F0 es1 HF HW0 entries); [|exact Hout|eexists; reflexivity].
  fold items.
  destruct (copy_items_again F0 es1 HF items es1 (put_files W es1) [] [] sa Hfit Eloop
              (no_new_dirs_put_files W es1)) as (_ & Hd & ->).
  fold w in Hd |- *.
  rewrite (write_index_framed F0 es1 _ _ _ HF). fold k data.
  destruct (is_dir_entry k (put_files w (put_files W es1))) eqn:Ek'.
  - apply Hd in Ek'. congruence.
  - now rewrite EW, put_files_twice.
Qed.

End ExportRun.

(** *** Trees that only grow *)

Lemma grown_refl n : grown n n.
Proof. intro cs. split; auto. Qed.

Lemma grown_trans a b c : grown a b -> grown b c -> grown a c.
Proof. intros H1 H2 cs. destruct (H1 cs), (H2 cs). split; auto. Qed.

Lemma grown_entry c x x' es :
  find_entry c es = Some x -> grown x x' -> grown (Dir es) (Dir (set_entry c x' es)).
Proof.
  intros Hf Hg [|k cs]; [split; auto|].
  unfold file_at, dir_at. cbn [lookup].
  destruct (list_eq_dec N.eq_dec k c) as [->|Hne].
  - rewrite find_set_entry_same, Hf. apply (Hg cs).
  - rewrite (find_set_entry_other _ _ _ _ Hne). split; auto.
Qed.

(** A file put where no directory is leaves every other node its kind. *)
Lemma place_file_grown cs : forall n n' r d,
  place n cs (File r d) = Some n' -> dir_at n cs = false -> grown n n'.
Proof.
  induction cs as [|c cs IH]; intros n n' r d Hp Hd.
  - simpl in Hp. inversion Hp; subst. unfold dir_at in Hd. simpl in Hd.
    destruct n as [r0 d0|es]; [|discriminate].
    intros [|k cs]; split; auto; unfold dir_at; simpl; discriminate.
  - destruct n as [r0 d0|es]; [discriminate|].
    destruct cs as [|c2 cs].
    + simpl in Hp. inversion Hp; subst. intros [|k cs]; [split; auto|].
      unfold file_at, dir_at in *. cbn [lookup] in *.
      destruct (list_eq_dec N.eq_dec k c) as [->|Hne].
      * rewrite find_set_entry_same.
        destruct (find_entry c es) as [[r1 d1|es1]|]; try discriminate.
        -- destruct cs; split; auto.
        -- split; discriminate.
      * rewrite (find_set_entry_other _ _ _ _ Hne). split; auto.
    + rewrite place_cons2 in Hp.
      destruct (find_entry c es) as [x|] eqn:Ef; [|discriminate].
      destruct (place x (c2 :: cs) (File r d)) as [x'|] eqn:Ex; [|discriminate].
      inversion Hp; subst. apply (grown_entry _ _ _ _ Ef).
      apply (IH _ _ _ _ Ex). unfold dir_at in *. cbn [lookup] in Hd.
      now rewrite Ef in Hd.
Qed.

Lemma store_grown {L} p data (s : state L) : grown (fs s) (fs (fst (store p data s))).
Proof.
  cbv [store bind get raise set_fs].
  destruct (resolve p) as [cs|]; [|apply grown_refl].
  destruct (lookup (fs s) cs) as [[r d|es]|] eqn:El; [|apply grown_refl|].
  - destruct (ends_with_sep p); [apply grown_refl|].
    destruct (place (fs s) cs (File r data)) as [n'|] eqn:Ep; [|apply grown_refl].
    cbn [fst fs]. apply (place_file_grown _ _ _ _ _ Ep). unfold dir_at. now rewrite El.
  - destruct (ends_with_sep p); [apply grown_refl|].
    destruct (place (fs s) cs (File true data)) as [n'|] eqn:Ep; [|apply grown_refl].
    cbn [fst fs]. apply (place_file_grown _ _ _ _ _ Ep). unfold dir_at. now rewrite El.
Qed.

Lemma copyfile_grown {L} src dst (s : state L) :
  grown (fs s) (fs (fst (copyfile src dst s))).
Proof.
  cbv [copyfile bind get raise].
  destruct (samefile (fs s) src dst); [apply grown_refl|].
  pose proof (read_bytes_keeps src s) as Hr.
  destruct (read_bytes src s) as [s1 [data|e]]; simpl in Hr; subst s1.
  - apply store_grown.
  - apply grown_refl.
Qed.

(** *** Loops that go through *)

Lemma for_each_in {L A} (g : A -> M L unit) (l : list A) x : forall s s',
  for_each l g s = (s', Ok tt) -> In x l ->
  exists s1 s2, steps g s s1 /\ g x s1 = (s2, Ok tt) /\ steps g s2 s'.
Proof.
  induction l as [|y l IH]; intros s s' H Hi; [contradiction|].
  simpl in H. unfold bind in H. destruct (g y s) as [sy [[]|e]] eqn:Ey; [|discriminate].
  destruct Hi as [->|Hi].
  - exists s, sy. split; [apply steps_refl|]. split; [exact Ey|].
    pose proof (for_each_steps g l sy) as Hs. now rewrite H in Hs.
  - destruct (IH _ _ H Hi) as (s1 & s2 & H1 & H2 & H3).
    exists s1, s2. split; [|now split].
    apply steps_next with (x := y). now rewrite Ey.
Qed.

Lemma steps_keeps {L A} (P : state L -> Prop) (g : A -> M L unit) :
  (forall x s, P s -> P (fst (g x s))) ->
  forall s s', steps g s s' -> P s -> P s'.
Proof. intros Hg s s' H. induction H; auto. Qed.

Lemma file_at_below n a b :
  file_at n (a ++ b) = true -> b <> [] ->
  exists es, lookup n a = Some (Dir es) /\ file_at (Dir es) b = true.
Proof.
  unfold file_at. rewrite lookup_app. intros H Hb.
  destruct (lookup n a) as [[r d|es]|]; [|eauto|discriminate].
  destruct b; [congruence|discriminate].
Qed.

Lemma find_entry_key k es m : find_entry k es = Some m -> In (k, m) es.
Proof.
  induction es as [|[j x] es IH]; simpl; [discriminate|].
  destruct (str_eqb k j) eqn:E.
  - apply str_eqb_eq in E. subst j. intro H; inversion H. now left.
  - intro H. right. now apply IH.
Qed.

(** *** What a walk that goes through has visited *)

Section WalkVisits.
Context {L : Type}.
Variable inner : pystr -> M L unit.
Variable Seen : list pystr -> state L -> Prop.

Hypothesis inner_grown : forall p s, grown (fs s) (fs (fst (inner p s))).
Hypothesis Seen_keeps : forall P p s, Seen P s -> Seen P (fst (inner p s)).
Hypothesis Seen_made : forall top cs name s s',
  resolve top = Some cs -> valid_name name = true ->
  inner (join top name) s = (s', Ok tt) -> Seen (cs ++ [name]) s'.

Lemma walk_keeps (P : state L -> Prop) :
  (forall p s, P s -> P (fst (inner p s))) ->
  forall fuel top s, P s -> P (fst (walk fuel (walk_body inner) top s)).
Proof.
  intros Hp. induction fuel as [|k IH]; intros top s Hs; [exact Hs|].
  cbn [walk]. unfold bind at 1, get. cbv beta iota.
  destruct (scandir (fs s) top) as [[dirs nondirs]|]; [|exact Hs].
  unfold bind.
  assert (Hb : P (fst (walk_body inner top nondirs s))).
  { unfold walk_body. apply (for_each_keeps P (fun _ => True)); auto.
    apply Forall_forall. auto. }
  destruct (walk_body inner top nondirs s) as [sa [[]|e]]; [|exact Hb].
  apply (for_each_keeps P (fun _ => True)); auto.
  apply Forall_forall. auto.
Qed.

Lemma file_at_keeps T p s : file_at (fs s) T = true -> file_at (fs (fst (inner p s))) T = true.
Proof. apply (inner_grown p s T). Qed.

Lemma walk_visits : forall fuel top cs rest name s s',
  resolve top = Some cs -> forallb valid_name (rest ++ [name]) = true ->
  file_at (fs s) (cs ++ rest ++ [name]) = true -> (List.length rest < fuel)%nat ->
  walk fuel (walk_body inner) top s = (s', Ok tt) ->
  Seen (cs ++ rest ++ [name]) s'.
Proof.
  induction fuel as [|k IH]; intros top cs rest name s s' Hr Hv Hf Hlen Hrun; [lia|].
  destruct (file_at_below _ _ _ Hf) as (es & Hl & Hb);
    [destruct rest; discriminate|].
  cbn [walk] in Hrun. unfold bind at 1, get in Hrun. cbv beta iota in Hrun.
  assert (Hsc : scandir (fs s) top = Some (listing es))
    by (unfold scandir, node_at; now rewrite Hr, Hl).
  rewrite Hsc in Hrun. unfold listing in Hrun. unfold bind in Hrun.
  destruct (walk_body inner top _ s) as [sa [[]|e]] eqn:Eb; [|discriminate].
  assert (Hs' : s' = fst (for_each (List.map fst (filter (fun e => is_dir_node (snd e)) es))
                            (fun dirname => walk k (walk_body inner) (join top dirname)) sa))
    by now rewrite Hrun.
  destruct rest as [|d rest].
  - cbn [app] in *. simpl in Hv. rewrite andb_true_r in Hv.
    unfold file_at in Hb. cbn [lookup] in Hb.
    destruct (find_entry name es) as [[r0 d0|es1]|] eqn:Ef; try discriminate.
    assert (Hin : In name (List.map fst (filter (fun e => negb (is_dir_node (snd e))) es))).
    { apply in_map_iff. exists (name, File r0 d0). split; [reflexivity|].
      apply filter_In. split; [now apply find_entry_key|reflexivity]. }
    unfold walk_body in Eb.
    destruct (for_each_in _ _ _ _ _ Eb Hin) as (s1 & s2 & _ & H2 & H3).
    pose proof (Seen_made _ _ _ _ _ Hr Hv H2) as Hseen.
    assert (Hsa : Seen (cs ++ [name]) sa).
    { revert Hseen. apply steps_keeps with (g := fun file => inner (join top file)); auto. }
    rewrite Hs'. apply (for_each_keeps (Seen (cs ++ [name])) (fun _ => True)); auto.
    + intros x s0 _. apply (walk_keeps (Seen (cs ++ [name]))). intros p s3. apply Seen_keeps.
    + apply Forall_forall. auto.
  - simpl in Hv. apply andb_true_iff in Hv as [Hd Hv].
    change (cs ++ (d :: rest) ++ [name]) with (cs ++ [d] ++ (rest ++ [name])) in *.
    rewrite app_assoc in Hf |- *.
    assert (Hdir : exists esd, find_entry d es = Some (Dir esd)).
    { cbn [app] in Hb. unfold file_at in Hb. cbn [lookup] in Hb.
      destruct (find_entry d es) as [[r0 d0|esd]|]; [|eauto|discriminate].
      destruct rest; discriminate. }
    destruct Hdir as [esd Hfd].
    assert (Hin : In d (List.map fst (filter (fun e => is_dir_node (snd e)) es))).
    { apply in_map_iff. exists (d, Dir esd). split; [reflexivity|].
      apply filter_In. split; [now apply find_entry_key|reflexivity]. }
    assert (Hfa : file_at (fs sa) ((cs ++ [d]) ++ rest ++ [name]) = true).
    { assert (X : sa = fst (walk_body inner top
                (List.map fst (filter (fun e => negb (is_dir_node (snd e))) es)) s))
        by now rewrite Eb.
      rewrite X. unfold walk_body.
      apply (for_each_keeps (fun s => file_at (fs s) _ = true) (fun _ => True)); auto.
      - intros x s0 _. apply file_at_keeps.
      - apply Forall_forall. auto. }
    destruct (for_each_in _ _ _ _ _ Hrun Hin) as (s1 & s2 & H1 & H2 & H3).
    assert (Hf1 : file_at (fs s1) ((cs ++ [d]) ++ rest ++ [name]) = true).
    { revert Hfa.
      apply (steps_keeps (fun s => file_at (fs s) ((cs ++ [d]) ++ rest ++ [name]) = true)
               (fun dirname => walk k (walk_body inner) (join top dirname))); auto.
      intros x s0.
      apply (walk_keeps (fun s => file_at (fs s) ((cs ++ [d]) ++ rest ++ [name]) = true)).
      intros p s3. apply file_at_keeps. }
    assert (Hseen : Seen ((cs ++ [d]) ++ rest ++ [name]) s2).
    { apply (IH (join top d) (cs ++ [d]) rest name s1 s2); auto.
      - now apply resolve_join_name.
      - simpl in Hlen. lia. }
    revert Hseen.
    apply (steps_keeps (Seen ((cs ++ [d]) ++ rest ++ [name]))
             (fun dirname => walk k (walk_body inner) (join top dirname))); auto.
    intros x s0. apply (walk_keeps (Seen ((cs ++ [d]) ++ rest ++ [name]))).
    intros p s3. apply Seen_keeps.
Qed.

End WalkVisits.

(** *** The loop bodies, in any state *)

Lemma store_made {L} dst data (s s2 : state L) cs :
  store dst data s = (s2, Ok tt) -> resolve dst = Some cs -> file_at (fs s2) cs = true.
Proof.
  cbv [store bind get raise set_fs]. intros H Hr. rewrite Hr in H.
  unfold file_at.
  destruct (lookup (fs s) cs) as [[r d|es]|]; [|discriminate|];
    (destruct (ends_with_sep dst); [discriminate|]);
    (destruct (place (fs s) cs _) as [n'|] eqn:Ep; [|discriminate]);
    inversion H; subst; cbn [fs]; now rewrite (place_lookup_same _ _ _ _ Ep).
Qed.

Lemma copyfile_made {L} src dst (s s2 : state L) cs :
  copyfile src dst s = (s2, Ok tt) -> resolve dst = Some cs -> file_at (fs s2) cs = true.
Proof.
  cbv [copyfile bind get raise]. destruct (samefile (fs s) src dst); [discriminate|].
  pose proof (read_bytes_keeps src s) as Hk.
  destruct (read_bytes src s) as [s1 [data|e]]; [|discriminate]. simpl in Hk. subst s1.
  apply store_made.
Qed.

Lemma copy_one_grown rec p s : grown (fs s) (fs (fst (copy_one rec p s))).
Proof.
  unfold copy_one, processed_files_append. cbv [bind get set_locals].
  set (s1 := mkState (fs s) (stdout s) (locals s ++ [rec])).
  pose proof (copyfile_grown p (join output_dir (basename p ++ lit ".txt")) s1) as H.
  destruct (copyfile _ _ s1) as [s2 [[]|e]]; exact H.
Qed.

Lemma copy_one_locals rec p s : locals (fst (copy_one rec p s)) = locals s ++ [rec].
Proof. apply copy_step_locals. Qed.

Lemma copy_one_made rec p s s' cs :
  copy_one rec p s = (s', Ok tt) ->
  resolve (join output_dir (basename p ++ lit ".txt")) = Some cs ->
  file_at (fs s') cs = true.
Proof.
  unfold copy_one, processed_files_append. cbv [bind get set_locals].
  set (s1 := mkState (fs s) (stdout s) (locals s ++ [rec])).
  intros H Hr.
  destruct (copyfile _ _ s1) as [s2 [[]|e]] eqn:Ec; [|discriminate].
  pose proof (copyfile_made _ _ _ _ _ Ec Hr) as Hm.
  unfold print in H. inversion H; subst. exact Hm.
Qed.

Lemma copy_walked_grown p s : grown (fs s) (fs (fst (copy_walked p s))).
Proof.
  unfold copy_walked. destruct (relpath p base_dir); [apply copy_one_grown|apply grown_refl].
Qed.

Lemma copied_keeps cs p s : copied cs s -> copied cs (fst (copy_walked p s)).
Proof.
  intros [H1 H2]. split.
  - unfold copy_walked. destruct (relpath p base_dir); [|exact H1].
    rewrite copy_one_locals. apply in_or_app. now left.
  - now apply (copy_walked_grown p s).
Qed.

Lemma copied_made top cs name s s' :
  resolve top = Some cs -> valid_name name = true ->
  copy_walked (join top name) s = (s', Ok tt) -> copied (cs ++ [name]) s'.
Proof.
  intros Hr Hn H. pose proof (resolve_join_name _ _ _ Hr Hn) as Hj.
  rewrite copy_walked_good in H by congruence.
  assert (Hl : normalized_relative_path (join top name) = label_of (cs ++ [name])).
  { unfold normalized_relative_path, relpath, label_of.
    now rewrite resolve_base_dir, Hj. }
  rewrite Hl in H. split.
  - pose proof (copy_one_locals (SLASH :: label_of (cs ++ [name])) (join top name) s) as X.
    rewrite H in X. simpl in X. rewrite X. apply in_or_app. right. now left.
  - rewrite last_last. apply (copy_one_made _ _ _ _ _ H).
    apply resolve_on_volume in Hr as (rest & Hv & _).
    rewrite (basename_join _ _ _ Hv (valid_name_plain _ Hn)).
    apply destination_resolves. now apply valid_name_plain.
Qed.

(** The text written only grows. *)
Lemma combined_file_write_grown flushed text (s : state pystr) :
  grown (fs s) (fs (fst (combined_file_write flushed text s)))
  /\ locals (fst (combined_file_write flushed text s)) = locals s ++ text.
Proof.
  unfold combined_file_write. cbv [bind get set_locals].
  set (s1 := mkState (fs s) (stdout s) (locals s ++ text)).
  split.
  - apply (store_grown output_file _ s1).
  - now destruct (store_keeps output_file (flushed (text_file_bytes (locals s ++ text))) s1).
Qed.

Lemma read_text_keeps p (s : state pystr) : fst (read_text p s) = s.
Proof.
  unfold read_text, bind. pose proof (read_bytes_keeps p s) as H.
  destruct (read_bytes p s) as [s1 [d|e]]; exact H.
Qed.

Lemma write_block_grown flushed label p (s : state pystr) :
  grown (fs s) (fs (fst (write_block flushed label p s)))
  /\ exists x, locals (fst (write_block flushed label p s)) = locals s ++ x.
Proof.
  unfold write_block. cbv [bind].
  destruct (combined_file_write_grown flushed (start_line label) s) as [G1 L1].
  destruct (combined_file_write flushed (start_line label) s) as [s1 [[]|e]];
    simpl in G1, L1; [|split; [exact G1|eauto]].
  pose proof (read_text_keeps p s1) as Hk.
  destruct (read_text p s1) as [s1' [text|e]]; simpl in Hk; subst s1';
    [|split; [exact G1|eauto]].
  destruct (combined_file_write_grown flushed text s1) as [G2 L2].
  destruct (combined_file_write flushed text s1) as [s2 [[]|e]]; simpl in G2, L2.
  - destruct (combined_file_write_grown flushed (end_line label) s2) as [G3 L3].
    split; [exact (grown_trans _ _ _ (grown_trans _ _ _ G1 G2) G3)|].
    rewrite L3, L2, L1, <- !app_assoc. eauto.
  - cbn [fst]. split; [exact (grown_trans _ _ _ G1 G2)|].
    rewrite L2, L1, <- app_assoc. eauto.
Qed.

Lemma write_block_made flushed label p (s s' : state pystr) :
  write_block flushed label p s = (s', Ok tt) ->
  exists text, locals s' = locals s ++ file_block label text.
Proof.
  unfold write_block. cbv [bind].
  destruct (combined_file_write_grown flushed (start_line label) s) as [_ L1].
  destruct (combined_file_write flushed (start_line label) s) as [s1 [[]|e]];
    simpl in L1; [|discriminate].
  pose proof (read_text_keeps p s1) as Hk.
  destruct (read_text p s1) as [s1' [text|e]]; simpl in Hk; subst s1'; [|discriminate].
  destruct (combined_file_write_grown flushed text s1) as [_ L2].
  destruct (combined_file_write flushed text s1) as [s2 [[]|e]]; simpl in L2; [|discriminate].
  destruct (combined_file_write_grown flushed (end_line label) s2) as [_ L3].
  intro H. rewrite H in L3. simpl in L3. exists text.
  rewrite L3, L2, L1. unfold file_block. now rewrite <- !app_assoc.
Qed.

Lemma combine_walked_grown flushed p s :
  grown (fs s) (fs (fst (combine_walked flushed p s))).
Proof.
  unfold combine_walked.
  destruct (relpath p base_dir); [apply write_block_grown|apply grown_refl].
Qed.

Lemma combined_keeps flushed cs p s : combined cs s -> combined cs (fst (combine_walked flushed p s)).
Proof.
  intros (a & text & b & H). unfold combine_walked.
  destruct (relpath p base_dir) as [rel|]; [|now exists a, text, b].
  destruct (write_block_grown flushed (replace_backslash rel) p s) as [_ [x Hx]].
  exists a, text, (b ++ x). rewrite Hx, H, <- !app_assoc. reflexivity.
Qed.

Lemma combined_made flushed top cs name s s' :
  resolve top = Some cs -> valid_name name = true ->
  combine_walked flushed (join top name) s = (s', Ok tt) -> combined (cs ++ [name]) s'.
Proof.
  intros Hr Hn H. pose proof (resolve_join_name _ _ _ Hr Hn) as Hj.
  rewrite combine_walked_good in H by congruence.
  assert (Hl : normalized_relative_path (join top name) = label_of (cs ++ [name])).
  { unfold normalized_relative_path, relpath, label_of.
    now rewrite resolve_base_dir, Hj. }
  rewrite Hl in H. destruct (write_block_made _ _ _ _ _ H) as [text Ht].
  exists (locals s), text, []. now rewrite app_nil_r.
Qed.

(** *** A manifest line of slashes *)

Lemma lstrip_all_slashes e : all_slashes e = true -> lstrip_slash e = [].
Proof.
  unfold all_slashes. induction e as [|c e IH]; [reflexivity|].
  cbn [forallb lstrip_slash]. intro H. apply andb_true_iff in H as [Hc He].
  apply N.eqb_eq in Hc. subst c. rewrite N.eqb_refl. now apply IH.
Qed.

Lemma join_base_dir_empty :
  join base_dir [] = base_dir ++ [BACKSLASH]
  /\ resolve (join base_dir []) = Some base_components.
Proof. split; reflexivity. Qed.

Lemma isdir_base_dir n : isdir n (join base_dir []) = isdir n base_dir.
Proof.
  unfold isdir, node_at. destruct join_base_dir_empty as [_ ->].
  rewrite resolve_base_dir. destruct (lookup n base_components) as [[r d|es]|]; reflexivity.
Qed.

Lemma label_of_below rest :
  forallb valid_name (base_components ++ rest) = true -> rest <> [] ->
  label_of (base_components ++ rest) = sep_join SLASH rest.
Proof.
  intros Hv Hne. unfold label_of.
  destruct (relative_to_resolves base_dir base_components _ resolve_base_dir Hv) as [_ ->].
  rewrite relative_list_below. destruct rest; [congruence|reflexivity].
Qed.

Lemma last_below (a rest : list pystr) : rest <> [] -> last (a ++ rest) [] = last rest [].
Proof.
  intro H. destruct (exists_last H) as (r & x & ->).
  now rewrite app_assoc, !last_last.
Qed.

Section WalkBase.
Context {L : Type}.
Variable inner : pystr -> M L unit.
Variable Seen : list pystr -> state L -> Prop.
Hypothesis inner_grown : forall p s, grown (fs s) (fs (fst (inner p s))).
Hypothesis Seen_keeps : forall P p s, Seen P s -> Seen P (fst (inner p s)).
Hypothesis Seen_made : forall top cs name s s',
  resolve top = Some cs -> valid_name name = true ->
  inner (join top name) s = (s', Ok tt) -> Seen (cs ++ [name]) s'.

(** A walk of the base directory that goes through has visited every file
    that was below it. *)
Lemma os_walk_base s s' rest :
  well_formed (fs s) = true -> rest <> [] ->
  file_at (fs s) (base_components ++ rest) = true ->
  os_walk (walk_body inner) (join base_dir []) s = (s', Ok tt) ->
  Seen (base_components ++ rest) s'.
Proof.
  intros Hw Hne Hf Hrun. destruct (exists_last Hne) as (r & name & ->).
  assert (Hl : exists x d, lookup (fs s) (base_components ++ r ++ [name]) = Some (File x d)).
  { unfold file_at in Hf. destruct (lookup (fs s) _) as [[x d|es]|]; try discriminate. eauto. }
  destruct Hl as (x & d & Hl).
  destruct (well_formed_lookup _ _ _ Hw Hl) as [_ Hv].
  pose proof (height_lookup _ _ _ Hl) as Hh. rewrite !length_app in Hh.
  rewrite forallb_app in Hv. apply andb_true_iff in Hv as [_ Hv].
  unfold os_walk, bind, get in Hrun.
  apply (walk_visits inner Seen inner_grown Seen_keeps Seen_made
           (S (height (fs s))) (join base_dir []) base_components r name s s');
    auto; try apply join_base_dir_empty. simpl in Hh. lia.
Qed.

End WalkBase.

Lemma base_is_dir n rest :
  rest <> [] -> file_at n (base_components ++ rest) = true -> isdir n base_dir = true.
Proof.
  intros Hne Hf. destruct (file_at_below _ _ _ Hf Hne) as (es & Hl & _).
  unfold isdir, node_at. now rewrite resolve_base_dir, Hl.
Qed.

Lemma copy_entry_base e (s s' : state (list pystr)) rest :
  all_slashes e = true -> well_formed (fs s) = true -> rest <> [] ->
  file_at (fs s) (base_components ++ rest) = true ->
  copy_entry e s = (s', Ok tt) ->
  copied (base_components ++ rest) s'.
Proof.
  intros He Hw Hne Hf Hrun. unfold copy_entry in Hrun.
  rewrite (lstrip_all_slashes _ He) in Hrun. unfold bind at 1, get in Hrun.
  cbv beta iota in Hrun.
  rewrite isdir_base_dir, (base_is_dir _ _ Hne Hf) in Hrun.
  rewrite copy_files_body in Hrun.
  apply (os_walk_base copy_walked copied copy_walked_grown copied_keeps copied_made
           s s' rest Hw Hne Hf Hrun).
Qed.

Lemma combine_entry_base flushed e (s s' : state pystr) rest :
  all_slashes e = true -> well_formed (fs s) = true -> rest <> [] ->
  file_at (fs s) (base_components ++ rest) = true ->
  combine_entry flushed e s = (s', Ok tt) ->
  combined (base_components ++ rest) s'.
Proof.
  intros He Hw Hne Hf Hrun. unfold combine_entry in Hrun.
  rewrite (lstrip_all_slashes _ He) in Hrun. unfold bind at 1, get in Hrun.
  cbv beta iota in Hrun.
  rewrite isdir_base_dir, (base_is_dir _ _ Hne Hf) in Hrun.
  rewrite combine_files_body in Hrun.
  apply (os_walk_base (combine_walked flushed) combined
           (combine_walked_grown flushed) (combined_keeps flushed) (combined_made flushed)
           s s' rest Hw Hne Hf Hrun).
Qed.

(** *** A file that cannot be read *)

Section Unreadable.
Variable locale_decode : list byte -> option pystr.
Variable flushed : list byte -> list byte.

Lemma combined_run_app F r0 d0 rest before : forall written printed,
  lookup F combined_components = Some (File r0 d0) ->
  forallb (item_readable F) before = true ->
  exists printed',
    combined_run flushed F (before ++ rest) written printed
    = combined_run flushed F rest (written ++ flat_map (item_block F) before) printed'.
Proof.
  induction before as [|it before IH]; intros written printed HF H.
  - exists printed. simpl. now rewrite app_nil_r.
  - simpl in H. apply andb_true_iff in H as [Hit H].
    pose proof (text_read_readable flushed F r0 d0 it (written ++ start_line (item_label it))
                  HF Hit) as E.
    destruct it as [p|e p|p].
    + cbn [combined_run app]. cbv zeta. rewrite E.
      destruct (IH ((written ++ start_line (item_label (Walked p)))
                      ++ read_text_utf8_ignore (item_data F (Walked p))
                      ++ end_line (item_label (Walked p))) printed HF H) as [printed' ->].
      exists printed'. cbn [flat_map item_block]. unfold file_block.
      now rewrite <- !app_assoc.
    + cbn [combined_run app]. cbv zeta. rewrite E.
      destruct (IH ((written ++ start_line (item_label (Direct e p)))
                      ++ read_text_utf8_ignore (item_data F (Direct e p))
                      ++ end_line (item_label (Direct e p))) printed HF H) as [printed' ->].
      exists printed'. cbn [flat_map item_block]. unfold file_block.
      now rewrite <- !app_assoc.
    + cbn [combined_run flat_map item_block app]. now apply IH.
Qed.

Lemma text_read_unreadable F r0 d0 written p data :
  lookup F combined_components = Some (File r0 d0) ->
  node_at F p = Some (File false data) ->
  text_read flushed F written p = Raise PermissionError.
Proof.
  intros HF Hp. unfold text_read.
  destruct (node_at_file _ _ _ _ Hp) as (cs & Hr & Hl & He).
  destruct (list_eq_dec (list_eq_dec N.eq_dec) cs combined_components) as [->|Hne].
  - rewrite HF in Hl. inversion Hl; subst.
    unfold node_at. rewrite Hr, (lookup_set_data F false data HF), He. reflexivity.
  - now rewrite (node_at_set_data_other F r0 d0 p false data cs _ HF Hp Hr Hne).
Qed.

Lemma missing_item_absent n entries p :
  In (Missing p) (flat_map (resolved_files n) entries) -> node_at n p = None.
Proof.
  intro H. apply in_flat_map in H as (e & _ & H). unfold resolved_files in H.
  destruct (node_at n (join base_dir (lstrip_slash e))) as [[r d|es]|] eqn:E.
  - destruct H as [H|[]]. discriminate.
  - apply in_map_iff in H as (x & Hx & _). discriminate.
  - destruct H as [H|[]]. inversion H; subst. exact E.
Qed.

(** Claim C5, amended.  In [txtexport_onefile.py] undecodable bytes never stop
    a run: when every resolved file can be read (and none is the combined file
    itself), whatever its bytes, the run goes through and every file has its
    block.  A file that cannot be read
    does stop it: the [open] raises [PermissionError], nothing catches it,
    the text ends with the start line of that file and the files after it are
    not exported. *)
Theorem unreadable_file_stops_run (fs0 F0 : node) (entries : list pystr) :
  well_formed fs0 = true ->
  make_dirs fs0 output_components = inl F0 ->
  manifest_entries locale_decode F0 = Some entries ->
  isdir F0 output_file = false ->
  let n := opened F0 in
  let items := flat_map (resolved_files n) entries in
  let run := txtexport_onefile locale_decode flushed fs0 in
  (forallb (item_readable n) items = true ->
     snd run = Ok tt /\ locals (fst run) = flat_map (item_block n) items)
  /\ (forall before it after data,
        items = before ++ it :: after ->
        forallb (item_readable n) before = true ->
        node_at n (item_path it) = Some (File false data) ->
        snd run = Raise PermissionError
        /\ locals (fst run) = flat_map (item_block n) before ++ start_line (item_label it)).
Proof.
  intros Hw Hm He Hf n items run. unfold run.
  rewrite (onefile_run locale_decode flushed fs0 F0 entries Hm He Hf Hw).
  destruct (opened_spec F0 (make_dirs_isdir _ _ Hm) Hf) as (r & _ & Hl & _).
  unfold onefile_outcome. cbv zeta. fold n. fold items. split.
  - intro Hr. destruct (combined_run_readable flushed n r [] items [] [] Hl Hr) as [printed' ->].
    now split.
  - intros before it after data Hitems Hb Hit.
    assert (Hin : In it items) by (rewrite Hitems; apply in_or_app; right; now left).
    rewrite Hitems.
    destruct (combined_run_app n r [] (it :: after) before [] [] Hl Hb) as [printed' ->].
    cbn [app].
    destruct it as [p|e p|p].
    + cbn [combined_run]. cbv zeta.
      rewrite (text_read_unreadable n r [] _ _ data Hl Hit). now split.
    + cbn [combined_run]. cbv zeta.
      rewrite (text_read_unreadable n r [] _ _ data Hl Hit). now split.
    + apply missing_item_absent in Hin. simpl in Hit. congruence.
Qed.

End Unreadable.

(** *** Running a script again *)

Lemma store_on_dir {L} p data (s : state L) :
  isdir (fs s) p = true -> store p data s = (s, Raise PermissionError).
Proof.
  unfold isdir. destruct (node_at (fs s) p) as [[r d|es]|] eqn:E; try discriminate.
  intros _. apply node_at_dir in E as (cs & Hr & Hl).
  cbv [store bind get raise]. now rewrite Hr, Hl.
Qed.

Lemma manifest_entries_make_dirs locale_decode n n' :
  make_dirs n output_components = inl n' ->
  manifest_entries locale_decode n' = manifest_entries locale_decode n.
Proof.
  intro H. unfold manifest_entries. now rewrite (node_at_make_dirs_prompt _ _ H).
Qed.

Section Rerun.
Variable locale_decode : list byte -> option pystr.
Variable flushed : list byte -> list byte.

(** A run of [txtexport_onefile.py] that went through made the output
    directory, read the manifest and opened the combined file. *)
Lemma onefile_started fs0 s1 :
  txtexport_onefile locale_decode flushed fs0 = (s1, Ok tt) ->
  exists F0 entries,
    make_dirs fs0 output_components = inl F0
    /\ manifest_entries locale_decode F0 = Some entries
    /\ isdir F0 output_file = false.
Proof.
  intro H. unfold txtexport_onefile, txtexport_onefile_main in H.
  rewrite dirname_output_file in H. unfold bind at 1 in H.
  destruct (make_dirs fs0 output_components) as [F0|b] eqn:Hm.
  - rewrite (makedirs_ok _ _ _ _ Hm) in H. exists F0.
    unfold bind at 1 in H.
    destruct (manifest_entries locale_decode F0) as [entries|] eqn:He.
    + exists entries. split; [reflexivity|]. split; [reflexivity|].
      rewrite (read_file_paths_entries locale_decode (mkState F0 [] []) entries He) in H.
      unfold bind at 1, set_locals in H. cbn [fs stdout locals] in H.
      unfold bind at 1 in H.
      destruct (isdir F0 output_file) eqn:Hd; [|reflexivity].
      rewrite (store_on_dir output_file [] (mkState F0 (@nil pystr) (@nil N)) Hd) in H.
      discriminate.
    + destruct (read_file_paths_fails locale_decode (mkState F0 (@nil pystr) (@nil N)) He)
        as [e Hr].
      rewrite Hr in H. discriminate.
  - destruct (makedirs_fails fs0 [] (@nil N) b Hm) as [e Hr]. rewrite Hr in H.
    discriminate.
Qed.

(** Claim C8, amended.  A run of [txtexport_onefile.py] that went through, run
    again on the tree it left, goes through and leaves the very same state.
    So does a run of [txtexport.py], provided no manifest entry leads into
    the output directory or to a directory above it. *)
Theorem rerun_same_output (fs0 : node) (entries : list pystr) :
  well_formed fs0 = true ->
  manifest_entries locale_decode fs0 = Some entries ->
  (forall s1, txtexport_onefile locale_decode flushed fs0 = (s1, Ok tt) ->
     txtexport_onefile locale_decode flushed (fs s1) = (s1, Ok tt))
  /\ (forallb outside entries = true ->
      forall s1, txtexport locale_decode fs0 = (s1, Ok tt) ->
        txtexport locale_decode (fs s1) = (s1, Ok tt)).
Proof.
  intros Hw He. split.
  - intros s1 H. destruct (onefile_started _ _ H) as (F0 & entries' & Hm & He' & Hd).
    pose proof (onefile_rerun locale_decode flushed fs0 F0 entries' Hw Hm He' Hd) as R.
    rewrite H in R. exact R.
  - intros Ho s1 H. apply (export_rerun locale_decode fs0 s1 Hw); [|exact H].
    intros F0 entries' Hm He'. rewrite (manifest_entries_make_dirs _ _ _ Hm), He in He'.
    inversion He'; subst. exact Ho.
Qed.

End Rerun.

(** *** The copy of one file *)

(** Claim C3.  [txtexport.py] copies a source file byte for byte: the
    destination is [<output_dir>\<basename(source)>.txt], with [.txt] added
    to the whole base name, and after the copy, in either branch of the loop,
    it holds exactly the bytes of the source, as many as the source has. *)
Theorem copy_is_verbatim (s : state (list pystr)) (src : pystr) (data : list byte) :
  node_at (fs s) src = Some (File true data) ->
  valid_name (basename src) = true ->
  isdir (fs s) output_dir = true ->
  let destination_path := join output_dir (basename src ++ lit ".txt") in
  isdir (fs s) destination_path = false ->
  destination_path = output_dir ++ BACKSLASH :: basename src ++ lit ".txt"
  /\ (forall recorded, exists n' r,
        copy_one recorded src s
        = (mkState n' (stdout s ++ [copied_line src]) (locals s ++ [recorded]), Ok tt)
        /\ node_at n' destination_path = Some (File r data)
        /\ List.length (item_data n' (Direct recorded destination_path)) = List.length data)
  /\ (forall relative_path, src = join base_dir (lstrip_slash relative_path) ->
        copy_entry relative_path s = copy_one relative_path src s)
  /\ (forall root file, src = join root file ->
        copy_files root [file] s = copy_one (SLASH :: normalized_relative_path src) src s).
Proof.
  intros Hsrc Hb Hout dst Hdst.
  split; [apply join_output_dir; apply valid_name_plain; now apply valid_name_txt|].
  split; [|split].
  - intro recorded. unfold copy_one, processed_files_append.
    cbv [bind get set_locals]. fold dst.
    set (s1 := mkState (fs s) (stdout s) (locals s ++ [recorded])).
    destruct (copyfile_verbatim s1 src data Hsrc Hb Hout Hdst) as (_ & n' & r & Hc & Hn).
    fold dst in Hc, Hn. rewrite Hc. exists n', r. split; [reflexivity|].
    split; [exact Hn|]. unfold item_data. cbn [item_path]. now rewrite Hn.
  - intros relative_path ->. unfold copy_entry. unfold bind at 1, get. cbv beta iota.
    unfold isdir, isfile. now rewrite Hsrc.
  - intros root file E. rewrite copy_files_body. unfold walk_body.
    rewrite for_each_single, <- E. apply f_equal with (f := fun m => m s).
    apply copy_walked_good.
    destruct (node_at_file _ _ _ _ Hsrc) as (cs & -> & _). discriminate.
Qed.

(** ** The properties on the sample projects *)

(** The manifest [/dirA], [fileB.py]: the block of [dirA/x.txt], then the
    block of [fileB.py]. *)
Lemma combined_output_blocks_example :
  locals (fst (txtexport_onefile latin1 unbuffered
                 (project [lit "/dirA"; lit "fileB.py"] true)))
  = file_block (lit "dirA/x.txt") (lit "hello")
    ++ file_block (lit "fileB.py") (lit "print(1)").
Proof.
  set (ab := [lit "/dirA"; lit "fileB.py"]).
  assert (A1 : well_formed (project ab true) = true) by by_running.
  assert (A2 : make_dirs (project ab true) output_components = inl (project_made ab true))
    by by_running.
  assert (A3 : manifest_entries latin1 (project_made ab true) = Some ab) by by_running.
  assert (A4 : isdir (project_made ab true) output_file = false) by by_running.
  assert (A5 : forallb (item_readable (opened (project_made ab true)))
                 (flat_map (resolved_files (opened (project_made ab true))) ab) = true)
    by by_running.
  destruct (combined_output_blocks latin1 unbuffered _ _ _ A1 A2 A3 A4 A5) as [printed H].
  rewrite H. by_running.
Defined.

(** A manifest line [/fileB.py] that names a file: the label is the line, not
    the normalised relative path [fileB.py]. *)
Lemma direct_entry_label_is_manifest_line :
  let n := opened (project_made [lit "/fileB.py"] true) in
  let items := flat_map (resolved_files n) [lit "/fileB.py"] in
  txtexport_onefile latin1 unbuffered (project [lit "/fileB.py"] true)
  = (mkState (set_data n combined_components
                (text_file_bytes (file_block (lit "/fileB.py") (lit "print(1)"))))
       [lit "All files combined into: " ++ output_file]
       (file_block (lit "/fileB.py") (lit "print(1)")), Ok tt)
  /\ flat_map (claimed_block n) items = file_block (lit "fileB.py") (lit "print(1)")
  /\ str_eqb (locals (fst (txtexport_onefile latin1 unbuffered
                              (project [lit "/fileB.py"] true))))
             (flat_map (claimed_block n) items) = false.
Proof. repeat split; by_running. Qed.

Lemma copy_is_verbatim_example :
  let s := mkState (project_made [lit "/dirA"; lit "fileB.py"] true) [] [] in
  let src := join base_dir (lstrip_slash (lit "fileB.py")) in
  exists n' r,
    copy_entry (lit "fileB.py") s = (mkState n' [copied_line src] [lit "fileB.py"], Ok tt)
    /\ node_at n' (join output_dir (basename src ++ lit ".txt"))
       = Some (File r (bytes_of (lit "print(1)"))).
Proof.
  intros s src.
  assert (A1 : node_at (fs s) src = Some (File true (bytes_of (lit "print(1)")))) by by_running.
  assert (A2 : valid_name (basename src) = true) by by_running.
  assert (A3 : isdir (fs s) output_dir = true) by by_running.
  assert (A4 : isdir (fs s) (join output_dir (basename src ++ lit ".txt")) = false)
    by by_running.
  destruct (copy_is_verbatim s src _ A1 A2 A3 A4) as (_ & Hc & He & _).
  destruct (Hc (lit "fileB.py")) as (n' & r & H1 & H2 & _).
  exists n', r. split; [|exact H2].
  rewrite (He (lit "fileB.py") eq_refl). exact H1.
Defined.

Lemma missing_entry_is_skipped_example :
  let s1 : state (list pystr) := mkState (project_made [lit "/nope"] true) [] [] in
  let s2 : state pystr := mkState (project_made [lit "/nope"] true) [] [] in
  let source_path := join base_dir (lstrip_slash (lit "/nope")) in
  copy_entry (lit "/nope") s1 = (not_found_logged s1 source_path, Ok tt)
  /\ combine_entry unbuffered (lit "/nope") s2 = (not_found_logged s2 source_path, Ok tt).
Proof.
  intros s1 s2 source_path.
  destruct (missing_entry_is_skipped unbuffered (lit "/nope")) as [Ha Hb].
  assert (A1 : isdir (project_made [lit "/nope"] true) source_path = false) by by_running.
  assert (A2 : isfile (project_made [lit "/nope"] true) source_path = false) by by_running.
  split.
  - destruct (Ha s1 A1 A2) as [E _]. exact E.
  - destruct (Hb s2 A1 A2) as [E _]. exact E.
Defined.

Lemma unreadable_file_stops_run_example :
  let run := txtexport_onefile latin1 unbuffered
               (project [lit "fileB.py"; lit "/dirA"] false) in
  snd run = Raise PermissionError /\ locals (fst run) = start_line (lit "fileB.py").
Proof.
  intro run. set (ba := [lit "fileB.py"; lit "/dirA"]) in *.
  assert (A1 : well_formed (project ba false) = true) by by_running.
  assert (A2 : make_dirs (project ba false) output_components = inl (project_made ba false))
    by by_running.
  assert (A3 : manifest_entries latin1 (project_made ba false) = Some ba) by by_running.
  assert (A4 : isdir (project_made ba false) output_file = false) by by_running.
  destruct (unreadable_file_stops_run latin1 unbuffered _ _ _ A1 A2 A3 A4) as [_ H].
  set (it := Direct (lit "fileB.py") (join base_dir (lit "fileB.py"))).
  set (after := [Walked (join (join base_dir (lit "dirA")) (lit "x.txt"))]).
  assert (B1 : flat_map (resolved_files (opened (project_made ba false))) ba
               = [] ++ it :: after) by by_running.
  assert (B2 : forallb (item_readable (opened (project_made ba false))) [] = true)
    by reflexivity.
  assert (B3 : node_at (opened (project_made ba false)) (item_path it)
               = Some (File false (bytes_of (lit "print(1)")))) by by_running.
  destruct (H [] it after _ B1 B2 B3) as [E1 E2]. split; [exact E1|exact E2].
Defined.

(** A file that cannot be read ends the run: the directory listed after it
    is never walked. *)
Lemma unreadable_file_aborts :
  let run := txtexport_onefile latin1 unbuffered
               (project [lit "fileB.py"; lit "/dirA"] false) in
  snd run = Raise PermissionError
  /\ stdout (fst run) = []
  /\ locals (fst run) = start_line (lit "fileB.py")
  /\ node_at (fs (fst run)) output_file
     = Some (File true (text_file_bytes (start_line (lit "fileB.py")))).
Proof. repeat split; by_running. Qed.

Lemma manifest_lines_read_example :
  let s : state pystr := mkState (project [lit "/dirA"; lit "fileB.py"] true) [] [] in
  read_file_paths latin1 s = (s, Ok [lit "/dirA"; lit "fileB.py"]).
Proof.
  intro s.
  apply (manifest_lines_read latin1 s (manifest_bytes [lit "/dirA"; lit "fileB.py"])
           (lit "/dirA" ++ [LF] ++ lit "fileB.py" ++ [LF]) []
           [lit "/dirA"; lit "fileB.py"] [LF]); by_running.
Defined.

(** A manifest that starts with two empty lines: they are not entries. *)
Lemma leading_blank_lines_dropped :
  let text := [LF; LF] ++ lit "a" ++ [LF] in
  let s : state pystr := mkState (project [[]; []; lit "a"] true) [] [] in
  latin1 (manifest_bytes [[]; []; lit "a"]) = Some text
  /\ read_file_paths latin1 s = (s, Ok [lit "a"])
  /\ claimed_file_paths text = [[]; []; lit "a"].
Proof. repeat split; by_running. Qed.

Lemma manifest_missing_is_fatal_example :
  txtexport latin1 bare_project = (mkState bare_project_made [] [], Raise FileNotFoundError)
  /\ txtexport_onefile latin1 unbuffered bare_project
     = (mkState bare_project_made [] [], Raise FileNotFoundError).
Proof.
  apply (manifest_missing_is_fatal latin1 unbuffered bare_project bare_project_made);
    by_running.
Defined.

Lemma output_dir_made_example :
  fs (fst (txtexport latin1 bare_project)) = bare_project_made
  /\ fs (fst (txtexport_onefile latin1 unbuffered bare_project)) = bare_project_made
  /\ isdir bare_project_made output_dir = true
  /\ bare_project_made <> bare_project.
Proof.
  assert (A1 : make_dirs bare_project output_components = inl bare_project_made)
    by by_running.
  assert (A2 : node_at bare_project prompt_file = None) by by_running.
  assert (A3 : isdir bare_project output_dir = false) by by_running.
  destruct (output_dir_made_before_manifest latin1 unbuffered _ _ A1 A2)
    as (H1 & H2 & H3 & H4).
  repeat split; auto.
Defined.

Lemma rerun_same_output_example :
  let p := project [lit "/dirA"; lit "fileB.py"] true in
  txtexport_onefile latin1 unbuffered (fs (fst (txtexport_onefile latin1 unbuffered p)))
  = txtexport_onefile latin1 unbuffered p
  /\ txtexport latin1 (fs (fst (txtexport latin1 p))) = txtexport latin1 p.
Proof.
  intro p.
  assert (A1 : well_formed p = true) by by_running.
  assert (A2 : manifest_entries latin1 p = Some [lit "/dirA"; lit "fileB.py"]) by by_running.
  assert (A3 : forallb outside [lit "/dirA"; lit "fileB.py"] = true) by by_running.
  destruct (rerun_same_output latin1 unbuffered p _ A1 A2) as [Hb Ha].
  assert (Eb : txtexport_onefile latin1 unbuffered p
               = (fst (txtexport_onefile latin1 unbuffered p), Ok tt)) by by_running.
  assert (Ea : txtexport latin1 p = (fst (txtexport latin1 p), Ok tt)) by by_running.
  split.
  - rewrite (Hb _ Eb). symmetry. exact Eb.
  - rewrite (Ha A3 _ Ea). symmetry. exact Ea.
Defined.

(** A manifest that names the output directory: the second run finds the index
    the first one wrote, copies it and lists it. *)
Lemma rerun_into_output_differs :
  let p := project [lit "/txtexport_flattened"] true in
  let first := txtexport latin1 p in
  let second := txtexport latin1 (fs (fst first)) in
  well_formed p = true
  /\ snd first = Ok tt /\ snd second = Ok tt
  /\ node_at (fs (fst first)) project_file_system_path
     = Some (File true (text_file_bytes (project_file_text [])))
  /\ node_at (fs (fst second)) project_file_system_path
     = Some (File true (text_file_bytes
               (project_file_text [lit "/txtexport_flattened/project_file_system.txt"])))
  /\ isfile (fs (fst first)) (join output_dir (lit "project_file_system.txt.txt")) = false
  /\ isfile (fs (fst second)) (join output_dir (lit "project_file_system.txt.txt")) = true.
Proof. repeat split; by_running. Qed.

(** * Further properties *)

(** ** A run of [txtexport.py] whose sources lie off the output directory *)

Lemma lookup_output_entries n n' :
  make_dirs n output_components = inl n' ->
  lookup n' output_components = Some (Dir (output_entries n')).
Proof.
  intro H. destruct (make_dirs_lookup _ _ _ H) as [es E]. unfold output_entries.
  now rewrite E.
Qed.

Lemma is_dir_put_files w : forall k es,
  is_dir_entry k es = false -> is_dir_entry k (put_files w es) = false.
Proof.
  intros k es H. destruct (is_dir_entry k (put_files w es)) eqn:E; [|reflexivity].
  apply (no_new_dirs_put_files w es) in E. congruence.
Qed.

Section CopyThrough.
Variable F : node.
Variable es0 : list (pystr * node).
Hypothesis HF : lookup F output_components = Some (Dir es0).

(** Items that can all be exported go through: each is copied, printed and
    recorded in its turn. *)
Lemma copy_items_through items : forall es w o l,
  Forall item_fit items -> forallb (item_exportable F es) items = true ->
  for_each items copy_item (mkState (set_entries F output_components (put_files w es)) o l)
  = (mkState (set_entries F output_components
                (put_files (w ++ flat_map (item_copy F) items) es))
       (o ++ List.map item_line items) (l ++ flat_map item_records items), Ok tt).
Proof.
  induction items as [|it items IH]; intros es w o l Hfit Hex.
  - simpl. now rewrite !app_nil_r.
  - inversion Hfit as [|? ? [Hg Hc] Hfits]; subst.
    cbn [forallb] in Hex. apply andb_true_iff in Hex as [Hit Hex].
    cbn [for_each flat_map List.map]. unfold bind.
    pose proof (copy_item_one it Hg) as H1.
    assert (Hone : forall p, item_path it = p ->
              copy_item it = copy_one (item_record it) p -> item_copyable it ->
              item_line it = copied_line p ->
              item_records it = [item_record it] ->
              item_copy F it
              = match node_at F p with
                | Some (File true data) => [(basename p ++ lit ".txt", data)]
                | _ => []
                end ->
              item_exportable F es it
              = match node_at F p with
                | Some (File true _) => negb (is_dir_entry (basename p ++ lit ".txt") es)
                | _ => false
                end ->
              copyable p ->
              (let (s', r) := copy_item it
                   (mkState (set_entries F output_components (put_files w es)) o l) in
               match r with
               | Ok _ => for_each items copy_item s'
               | Raise e => (s', Raise e)
               end)
              = (mkState (set_entries F output_components
                            (put_files (w ++ item_copy F it ++ flat_map (item_copy F) items) es))
                   (o ++ item_line it :: List.map item_line items)
                   (l ++ item_records it ++ flat_map item_records items), Ok tt)).
    { intros p Ep E1 _ El Er Ec Ee Hcp. rewrite E1, El, Er, Ec.
      rewrite (copy_one_framed F es0 HF _ _ _ o l Hcp).
      rewrite Ee in Hit.
      destruct (node_at F p) as [[[|] data|esd]|]; try discriminate.
      apply negb_true_iff in Hit. rewrite (is_dir_put_files w _ _ Hit).
      change (put_file (basename p ++ lit ".txt") data (put_files w es))
        with (put_files [(basename p ++ lit ".txt", data)] (put_files w es)).
      rewrite <- put_files_app, (IH es _ _ _ Hfits Hex).
      now rewrite <- !app_assoc. }
    destruct it as [p|e p|p].
    + apply (Hone p); auto.
    + apply (Hone p); auto.
    + cbn [copy_item print fs stdout locals item_copy item_line item_records app].
      rewrite (IH es w _ l Hfits Hex). now rewrite <- app_assoc.
Qed.

(** A file that cannot be read stops the loop where it stands, its path
    recorded. *)
Lemma copy_item_unreadable it es o l data rest :
  item_fit it -> (forall p, it <> Missing p) ->
  node_at F (item_path it) = Some (File false data) ->
  for_each (it :: rest) copy_item (mkState (set_entries F output_components es) o l)
  = (mkState (set_entries F output_components es) o (l ++ [item_record it]),
     Raise PermissionError).
Proof.
  intros [Hg Hc] Hm Hn. cbn [for_each]. unfold bind.
  pose proof (copy_item_one it Hg) as H1.
  destruct it as [p|e p|p]; cbn [item_path] in *.
  - rewrite H1, (copy_one_framed F es0 HF _ _ _ o l Hc). cbn [item_path]. now rewrite Hn.
  - rewrite H1, (copy_one_framed F es0 HF _ _ _ o l Hc). cbn [item_path]. now rewrite Hn.
  - now destruct (Hm p).
Qed.

End CopyThrough.

Lemma find_put_files_other w : forall k es,
  written_to k w = false -> find_entry k (put_files w es) = find_entry k es.
Proof.
  induction w as [|[j d] w IH]; intros k es H; [reflexivity|].
  unfold written_to in H. simpl in H. apply orb_false_iff in H as [Hj Hw].
  simpl. rewrite (IH k _ Hw). apply find_put_file_other.
  intro E. subst j. now rewrite str_eqb_refl in Hj.
Qed.

(** Of the copies to one name, the last one stays. *)
Lemma find_put_files_last w1 k d w2 es :
  written_to k w2 = false ->
  exists r, find_entry k (put_files (w1 ++ (k, d) :: w2) es) = Some (File r d).
Proof.
  intro H. rewrite put_files_app. cbn [put_files fold_left fst snd].
  fold (put_files w2 (put_file k d (put_files w1 es))).
  rewrite (find_put_files_other w2 k _ H).
  destruct (find_put_file_same k d (put_files w1 es)) as (r & E & _). eauto.
Qed.

Lemma node_at_output_entry F es0 es k :
  lookup F output_components = Some (Dir es0) -> plain k = true ->
  node_at (set_entries F output_components es) (join output_dir (k ++ lit ".txt"))
  = find_entry (k ++ lit ".txt") es.
Proof.
  intros HF Hk. destruct (destination_resolves k Hk) as [Hr He].
  unfold node_at. rewrite Hr, He, lookup_app, (lookup_set_entries F es0 HF es).
  cbn [lookup]. destruct (find_entry (k ++ lit ".txt") es) as [[r d|esd]|]; reflexivity.
Qed.

Lemma join_lines_sep_join l : join_lines l = sep_join LF l.
Proof.
  induction l as [|x [|y t] IH]; [reflexivity|reflexivity|].
  change (join_lines (x :: y :: t)) with (x ++ LF :: join_lines (y :: t)).
  now rewrite IH.
Qed.

(** The text of the index, letter by letter. *)
Lemma project_file_text_spelled l :
  project_file_text l = lit "**ULP 1.5 Project Files**" ++ [LF; LF] ++ sep_join LF l.
Proof.
  unfold project_file_text. now rewrite <- app_assoc, join_lines_sep_join.
Qed.

(** The names of [l] that the comparison [same] takes for [k]. *)
Lemma written_to_same (same : pystr -> pystr -> bool) k w :
  (forall a, same a a = true) ->
  existsb (same k) (List.map fst w) = false -> written_to k w = false.
Proof.
  intros Hr. unfold written_to. induction (List.map fst w) as [|j l IH]; [reflexivity|].
  simpl. intro H. apply orb_false_iff in H as [Hj Hl]. rewrite (IH Hl), orb_false_r.
  destruct (str_eqb k j) eqn:E; [|reflexivity].
  apply str_eqb_eq in E. subst j. now rewrite Hr in Hj.
Qed.

Section ExportOutcome.
Variable locale_decode : list byte -> option pystr.

(** How the volume compares two names of a directory: a name is the same as
    itself, and names that differ may be the same, as those that differ in
    the case of their letters are. *)
Variable same_name : pystr -> pystr -> bool.
Hypothesis same_name_refl : forall a, same_name a a = true.

(** The run up to the loop, and the loop as one over the resolved items. *)
Lemma export_loop_start fs0 F0 entries :
  well_formed fs0 = true ->
  make_dirs fs0 output_components = inl F0 ->
  manifest_entries locale_decode F0 = Some entries ->
  forallb outside entries = true ->
  txtexport locale_decode fs0
  = bind (for_each (flat_map (resolved_files F0) entries) copy_item) (fun _ => write_index)
      (mkState (set_entries F0 output_components (put_files [] (output_entries F0))) [] []).
Proof.
  intros Hw Hm He Ho.
  pose proof (lookup_output_entries _ _ Hm) as HF.
  assert (HW0 : well_formed F0 = true)
    by apply (make_dirs_well_formed _ _ _ Hw valid_output_components Hm).
  rewrite (txtexport_run locale_decode _ _ _ Hm He). unfold bind.
  cbn [put_files fold_left]. rewrite (set_entries_same F0 _ HF).
  rewrite (copy_loop F0 _ HF HW0 entries); [reflexivity|exact Ho|].
  exists (output_entries F0). cbn [fs]. now rewrite (set_entries_same F0 _ HF).
Qed.

(** The run when every resolved item can be exported. *)
Lemma export_through fs0 F0 entries :
  well_formed fs0 = true ->
  make_dirs fs0 output_components = inl F0 ->
  manifest_entries locale_decode F0 = Some entries ->
  forallb outside entries = true ->
  forallb (item_exportable F0 (output_entries F0)) (flat_map (resolved_files F0) entries)
  = true ->
  is_dir_entry index_name (output_entries F0) = false ->
  txtexport locale_decode fs0
  = (mkState (set_entries F0 output_components
                (put_file index_name
                   (text_file_bytes
                      (project_file_text
                         (flat_map item_records (flat_map (resolved_files F0) entries))))
                   (put_files (flat_map (item_copy F0) (flat_map (resolved_files F0) entries))
                      (output_entries F0))))
       (List.map item_line (flat_map (resolved_files F0) entries)
        ++ [lit "Exported processed files to: " ++ project_file_system_path])
       (flat_map item_records (flat_map (resolved_files F0) entries)), Ok tt).
Proof.
  intros Hw Hm He Ho Hex Hidx.
  pose proof (lookup_output_entries _ _ Hm) as HF.
  assert (HW0 : well_formed F0 = true)
    by apply (make_dirs_well_formed _ _ _ Hw valid_output_components Hm).
  rewrite (export_loop_start _ _ _ Hw Hm He Ho). unfold bind.
  rewrite (copy_items_through F0 _ HF _ (output_entries F0) [] [] []
             (resolved_items_fit F0 HW0 entries Ho) Hex).
  cbn [app]. rewrite (write_index_framed F0 _ _ _ _ HF).
  fold index_name. rewrite (is_dir_put_files _ _ _ Hidx). reflexivity.
Qed.

(** Where the run leaves the index. *)
Lemma index_written fs0 F0 entries :
  well_formed fs0 = true ->
  make_dirs fs0 output_components = inl F0 ->
  manifest_entries locale_decode F0 = Some entries ->
  forallb outside entries = true ->
  forallb (item_exportable F0 (output_entries F0)) (flat_map (resolved_files F0) entries)
  = true ->
  is_dir_entry index_name (output_entries F0) = false ->
  exists r, node_at (fs (fst (txtexport locale_decode fs0))) project_file_system_path
            = Some (File r (text_file_bytes
                              (project_file_text
                                 (flat_map item_records
                                    (flat_map (resolved_files F0) entries))))).
Proof.
  intros Hw Hm He Ho Hex Hidx.
  pose proof (lookup_output_entries _ _ Hm) as HF.
  rewrite (export_through fs0 F0 entries Hw Hm He Ho Hex Hidx). cbn [fst fs].
  match goal with
  | |- context [put_file index_name ?index ?es] =>
      destruct (find_put_file_same index_name index es) as (r & E & _)
  end.
  exists r. destruct resolve_project_file_system as [Hr Hs].
  unfold node_at. rewrite Hr, Hs, lookup_app, (lookup_set_entries F0 _ HF).
  cbn [lookup]. fold index_name. now rewrite E.
Qed.

(** Claim C2.  In [txtexport.py] the path recorded for a file found by walking
    a directory is [/] followed by its path from the base directory with [/]
    for separators (no backslash is left; joined to the base directory it
    leads to the file again, but for the case of letters), and the path
    recorded for an entry that names a file is the manifest line as it
    stands.  In a run that goes through, the index
    [project_file_system.txt] holds the header, an empty line and these
    recorded paths, one on a line, in discovery order. *)
Theorem recorded_paths (fs0 F0 : node) (entries : list pystr) :
  (forall (s : state (list pystr)) root file cs,
     resolve root = Some cs -> forallb valid_name (cs ++ [file]) = true ->
     let rel := match relative_list base_components (cs ++ [file]) with
                | [] => curdir
                | l => sep_join SLASH l
                end in
     locals (fst (copy_files root [file] s)) = locals s ++ [SLASH :: rel]
     /\ item_record (Walked (join root file)) = SLASH :: rel
     /\ forallb (fun c => negb (c =? BACKSLASH)) rel = true
     /\ (exists back, resolve (join base_dir rel) = Some back
                      /\ List.map normcase back = List.map normcase (cs ++ [file]))
     /\ (forall rest, rest <> [] -> cs ++ [file] = base_components ++ rest ->
           rel = sep_join SLASH rest))
  /\ (forall (s : state (list pystr)) relative_path,
        let source_path := join base_dir (lstrip_slash relative_path) in
        isdir (fs s) source_path = false -> isfile (fs s) source_path = true ->
        locals (fst (copy_entry relative_path s)) = locals s ++ [relative_path]
        /\ item_record (Direct relative_path source_path) = relative_path)
  /\ (well_formed fs0 = true ->
      make_dirs fs0 output_components = inl F0 ->
      manifest_entries locale_decode F0 = Some entries ->
      forallb outside entries = true ->
      let items := flat_map (resolved_files F0) entries in
      forallb (item_exportable F0 (output_entries F0)) items = true ->
      is_dir_entry index_name (output_entries F0) = false ->
      let run := txtexport locale_decode fs0 in
      snd run = Ok tt
      /\ locals (fst run) = flat_map item_records items
      /\ exists r, node_at (fs (fst run)) project_file_system_path
                   = Some (File r (text_file_bytes
                                     (lit "**ULP 1.5 Project Files**" ++ [LF; LF]
                                      ++ sep_join LF (locals (fst run)))))).
Proof.
  split; [|split].
  - intros s root file cs Hr Hv rel.
    destruct (appended_paths s) as [Ha _].
    destruct (Ha root file cs Hr Hv) as (H1 & H2 & H3 & H4 & H5). fold rel in H1, H2, H3, H4, H5.
    repeat split; try assumption.
    cbn [item_record]. now rewrite H2.
  - intros s relative_path source_path Hd Hf.
    destruct (appended_paths s) as [_ Hb]. split; [now apply Hb|reflexivity].
  - intros Hw Hm He Ho items Hex Hidx run.
    destruct (index_written fs0 F0 entries Hw Hm He Ho Hex Hidx) as [r Hr].
    pose proof (export_through fs0 F0 entries Hw Hm He Ho Hex Hidx) as Hrun.
    fold run in Hr, Hrun. fold items in Hr, Hrun.
    assert (Hl : locals (fst run) = flat_map item_records items) by now rewrite Hrun.
    split; [now rewrite Hrun|]. split; [exact Hl|].
    exists r. rewrite Hl, <- project_file_text_spelled. exact Hr.
Qed.

(** Property X1.  A run of [txtexport.py] whose manifest entries lie off the
    output directory, whose resolved files can all be read and copied, and
    where no directory bears the name of the index: it prints one line for
    each resolved item in discovery order and then the closing line; the
    index holds the header, an empty line and the recorded paths in
    discovery order, with a line feed between them; the output directory is
    what it was plus the copies and the index. *)
Theorem export_run_through (fs0 F0 : node) (entries : list pystr) :
  well_formed fs0 = true ->
  make_dirs fs0 output_components = inl F0 ->
  manifest_entries locale_decode F0 = Some entries ->
  forallb outside entries = true ->
  let items := flat_map (resolved_files F0) entries in
  let es := output_entries F0 in
  forallb (item_exportable F0 es) items = true ->
  is_dir_entry index_name es = false ->
  let recorded := flat_map item_records items in
  let index := text_file_bytes
                 (lit "**ULP 1.5 Project Files**" ++ [LF; LF] ++ sep_join LF recorded) in
  txtexport locale_decode fs0
  = (mkState (set_entries F0 output_components
                (put_file index_name index (put_files (flat_map (item_copy F0) items) es)))
       (List.map item_line items
        ++ [lit "Exported processed files to: " ++ project_file_system_path])
       recorded, Ok tt)
  /\ exists r, node_at (fs (fst (txtexport locale_decode fs0))) project_file_system_path
               = Some (File r index).
Proof.
  intros Hw Hm He Ho items es Hex Hidx recorded index.
  pose proof (export_through fs0 F0 entries Hw Hm He Ho Hex Hidx) as Hrun.
  destruct (index_written fs0 F0 entries Hw Hm He Ho Hex Hidx) as [r Hr].
  fold items es in Hrun. fold recorded in Hrun. fold items in Hr. fold recorded in Hr.
  rewrite project_file_text_spelled in Hrun, Hr. fold index in Hrun, Hr.
  split; [exact Hrun|]. now exists r.
Qed.

(** Property X2.  Files whose names the volume takes for the same are copied
    to one destination: after a run that goes through, the destination of a
    resolved file holds that file's bytes when no file resolved after it is
    copied to a name the volume takes for the same, and the index does not
    bear such a name either. *)
Theorem last_copy_stays (fs0 F0 : node) (entries : list pystr) :
  well_formed fs0 = true ->
  make_dirs fs0 output_components = inl F0 ->
  manifest_entries locale_decode F0 = Some entries ->
  forallb outside entries = true ->
  let items := flat_map (resolved_files F0) entries in
  let es := output_entries F0 in
  forallb (item_exportable F0 es) items = true ->
  is_dir_entry index_name es = false ->
  forall before it after data,
    items = before ++ it :: after ->
    node_at F0 (item_path it) = Some (File true data) ->
    let name := basename (item_path it) ++ lit ".txt" in
    existsb (same_name name) (List.map fst (flat_map (item_copy F0) after)) = false ->
    same_name name index_name = false ->
    exists r, node_at (fs (fst (txtexport locale_decode fs0))) (join output_dir name)
              = Some (File r data).
Proof.
  intros Hw Hm He Ho items es Hex Hidx before it after data Hitems Hn name Hlater Hindex.
  pose proof (written_to_same same_name name _ same_name_refl Hlater) as Hlast.
  assert (Hne : str_eqb name index_name = false).
  { destruct (str_eqb name index_name) eqn:E; [|reflexivity].
    apply str_eqb_eq in E. rewrite E, same_name_refl in Hindex. discriminate. }
  pose proof (lookup_output_entries _ _ Hm) as HF.
  assert (HW0 : well_formed F0 = true)
    by apply (make_dirs_well_formed _ _ _ Hw valid_output_components Hm).
  pose proof (resolved_items_fit F0 HW0 entries Ho) as Hfit. fold items in Hfit.
  assert (Hin : In it items) by (rewrite Hitems; apply in_or_app; right; now left).
  assert (Hm' : forall p, it <> Missing p).
  { intros p E. subst it. apply missing_item_absent in Hin. simpl in Hn. congruence. }
  rewrite Forall_forall in Hfit. destruct (Hfit _ Hin) as [_ Hc].
  assert (Hcp : copyable (item_path it)) by (destruct it; [exact Hc|exact Hc|now destruct (Hm' source_path)]).
  destruct Hcp as (cs & _ & _ & Hb).
  assert (Hcopy : item_copy F0 it = [(name, data)]).
  { destruct it as [p|e p|p]; [| |now destruct (Hm' p)]; cbn [item_copy item_path] in *;
      now rewrite Hn. }
  rewrite (export_through fs0 F0 entries Hw Hm He Ho Hex Hidx).
  cbn [fst fs]. unfold name. rewrite (node_at_output_entry F0 _ _ _ HF Hb). fold name.
  rewrite find_put_file_other
    by (intro E; rewrite E, str_eqb_refl in Hne; discriminate).
  fold items. rewrite Hitems, flat_map_app. cbn [flat_map]. rewrite Hcopy.
  cbn [app]. now apply find_put_files_last.
Qed.

(** Property X3.  [txtexport.py] records a path before it copies the file: a
    source that cannot be read ends the run with [PermissionError], with its
    path recorded, the files before it copied and printed, and neither the
    index written nor the closing line printed. *)
Theorem unreadable_source_stops_export (fs0 F0 : node) (entries : list pystr) :
  well_formed fs0 = true ->
  make_dirs fs0 output_components = inl F0 ->
  manifest_entries locale_decode F0 = Some entries ->
  forallb outside entries = true ->
  let items := flat_map (resolved_files F0) entries in
  let es := output_entries F0 in
  forall before it after data,
    items = before ++ it :: after ->
    forallb (item_exportable F0 es) before = true ->
    node_at F0 (item_path it) = Some (File false data) ->
    txtexport locale_decode fs0
    = (mkState (set_entries F0 output_components
                  (put_files (flat_map (item_copy F0) before) es))
         (List.map item_line before)
         (flat_map item_records before ++ [item_record it]),
       Raise PermissionError).
Proof.
  intros Hw Hm He Ho items es before it after data Hitems Hex Hn.
  pose proof (lookup_output_entries _ _ Hm) as HF.
  assert (HW0 : well_formed F0 = true)
    by apply (make_dirs_well_formed _ _ _ Hw valid_output_components Hm).
  pose proof (resolved_items_fit F0 HW0 entries Ho) as Hfit. fold items in Hfit.
  assert (Hin : In it items) by (rewrite Hitems; apply in_or_app; right; now left).
  assert (Hm' : forall p, it <> Missing p).
  { intros p E. subst it. apply missing_item_absent in Hin. simpl in Hn. congruence. }
  rewrite Hitems in Hfit. apply Forall_app in Hfit as [Hfb Hfa].
  inversion Hfa as [|? ? Hfi _]; subst.
  rewrite (export_loop_start _ _ _ Hw Hm He Ho). fold items. fold es. rewrite Hitems.
  unfold bind. rewrite for_each_app. unfold bind.
  rewrite (copy_items_through F0 _ HF before es [] [] [] Hfb Hex). cbn [app].
  now rewrite (copy_item_unreadable F0 _ HF it _ _ _ data after Hfi Hm' Hn).
Qed.

End ExportOutcome.

(** ** Nothing is ever removed *)

Lemma grown_new_entry c x es :
  find_entry c es = None -> grown (Dir es) (Dir (set_entry c x es)).
Proof.
  intros Hf [|k cs]; [split; auto|].
  unfold file_at, dir_at. cbn [lookup].
  destruct (list_eq_dec N.eq_dec k c) as [->|Hne].
  - rewrite Hf. split; discriminate.
  - rewrite (find_set_entry_other _ _ _ _ Hne). split; auto.
Qed.

Lemma make_dirs_grown cs : forall n n', make_dirs n cs = inl n' -> grown n n'.
Proof.
  induction cs as [|c cs IH]; intros n n' H; destruct n as [r d|es]; simpl in H;
    try discriminate.
  - inversion H; subst. apply grown_refl.
  - destruct (make_dirs _ cs) as [m'|b] eqn:E; [|discriminate].
    inversion H; subst. destruct (find_entry c es) as [m|] eqn:Ef.
    + apply (grown_entry _ _ _ _ Ef). now apply IH.
    + now apply grown_new_entry.
Qed.

Lemma makedirs_grown {L} p (s : state L) : grown (fs s) (fs (fst (makedirs p s))).
Proof.
  cbv [makedirs bind get raise set_fs]. destruct (resolve p) as [cs|]; [|apply grown_refl].
  destruct (make_dirs (fs s) cs) as [n'|[|]] eqn:E; try apply grown_refl.
  cbn [fst fs]. apply (make_dirs_grown _ _ _ E).
Qed.

Lemma read_file_paths_keeps {L} locale_decode (s : state L) :
  fst (read_file_paths locale_decode s) = s.
Proof.
  unfold read_file_paths, bind. pose proof (read_bytes_keeps prompt_file s) as H.
  destruct (read_bytes prompt_file s) as [s1 [data|e]]; simpl in H; subst s1; [|reflexivity].
  unfold raise, ret. now destruct (locale_decode data).
Qed.

(** A relation to where a run began that every step keeps is kept by the
    steps together. *)
Lemma grown_step {L} n (s : state L) (m : M L unit) :
  grown (fs s) (fs (fst (m s))) -> grown n (fs s) -> grown n (fs (fst (m s))).
Proof. intros H1 H2. exact (grown_trans _ _ _ H2 H1). Qed.

Lemma copy_entry_grown e s : grown (fs s) (fs (fst (copy_entry e s))).
Proof.
  unfold copy_entry. unfold bind at 1, get. cbv beta iota.
  set (source_path := join base_dir (lstrip_slash e)).
  destruct (isdir (fs s) source_path).
  - unfold os_walk, bind, get. rewrite copy_files_body.
    apply (walk_keeps copy_walked (fun s' => grown (fs s) (fs s'))); [|apply grown_refl].
    intros p s' H. exact (grown_trans _ _ _ H (copy_walked_grown p s')).
  - destruct (isfile (fs s) source_path).
    + apply (copy_one_grown e source_path s).
    + apply grown_refl.
Qed.

Lemma write_index_grown s : grown (fs s) (fs (fst (write_index s))).
Proof.
  unfold write_index. unfold bind at 1, get. cbv beta iota. unfold bind.
  pose proof (store_grown project_file_system_path
                (text_file_bytes (project_file_text (locals s))) s) as H.
  destruct (store _ _ s) as [s1 [[]|e]]; exact H.
Qed.

Lemma combine_entry_grown flushed e s :
  grown (fs s) (fs (fst (combine_entry flushed e s))).
Proof.
  unfold combine_entry. unfold bind at 1, get. cbv beta iota.
  set (source_path := join base_dir (lstrip_slash e)).
  destruct (isdir (fs s) source_path).
  - unfold os_walk, bind, get. rewrite combine_files_body.
    apply (walk_keeps (combine_walked flushed) (fun s' => grown (fs s) (fs s')));
      [|apply grown_refl].
    intros p s' H. exact (grown_trans _ _ _ H (combine_walked_grown flushed p s')).
  - destruct (isfile (fs s) source_path).
    + apply (write_block_grown flushed e source_path s).
    + apply grown_refl.
Qed.

Lemma for_each_grown {L A} (g : A -> M L unit) :
  (forall x s, grown (fs s) (fs (fst (g x s)))) ->
  forall l s, grown (fs s) (fs (fst (for_each l g s))).
Proof.
  intros Hg l s.
  apply (for_each_keeps (fun s' => grown (fs s) (fs s')) (fun _ => True) g).
  - intros x s' _ H. exact (grown_trans _ _ _ H (Hg x s')).
  - apply Forall_forall. auto.
  - apply grown_refl.
Qed.

(** Binding two actions that only let the tree grow. *)
Lemma bind_grown {L A B} (m : M L A) (k : A -> M L B) s :
  grown (fs s) (fs (fst (m s))) ->
  (forall a s', grown (fs s') (fs (fst (k a s')))) ->
  grown (fs s) (fs (fst (bind m k s))).
Proof.
  intros Hm Hk. unfold bind. destruct (m s) as [s1 [a|e]]; [|exact Hm].
  exact (grown_trans _ _ _ Hm (Hk a s1)).
Qed.

Section NeverRemoved.
Variable locale_decode : list byte -> option pystr.
Variable flushed : list byte -> list byte.

(** Property X9.  Neither script ever removes a node or changes its kind:
    whatever the tree and however the run ends, every file before the run is
    a file after it and every directory a directory. *)
Theorem scripts_remove_nothing (fs0 : node) :
  grown fs0 (fs (fst (txtexport locale_decode fs0)))
  /\ grown fs0 (fs (fst (txtexport_onefile locale_decode flushed fs0))).
Proof.
  split.
  - unfold txtexport, txtexport_main.
    apply (bind_grown (makedirs output_dir) _ (mkState fs0 [] []));
      [apply makedirs_grown|]. intros _ s1.
    apply bind_grown; [rewrite read_file_paths_keeps; apply grown_refl|]. intros entries s2.
    apply bind_grown; [apply grown_refl|]. intros _ s3.
    apply bind_grown; [apply for_each_grown; apply copy_entry_grown|]. intros _ s4.
    apply write_index_grown.
  - unfold txtexport_onefile, txtexport_onefile_main.
    apply (bind_grown (makedirs (dirname output_file)) _ (mkState fs0 [] []));
      [apply makedirs_grown|]. intros _ s1.
    apply bind_grown; [rewrite read_file_paths_keeps; apply grown_refl|]. intros entries s2.
    apply bind_grown; [apply grown_refl|]. intros _ s3.
    apply bind_grown; [apply store_grown|]. intros _ s4.
    apply bind_grown; [|intros _ s5; apply grown_refl].
    unfold finally.
    pose proof (for_each_grown (combine_entry flushed) (combine_entry_grown flushed)
                  entries s4) as H1.
    destruct (for_each entries (combine_entry flushed) s4) as [s5 r].
    pose proof (store_grown output_file (text_file_bytes (locals s5)) s5) as H2.
    unfold combined_file_close, bind, get.
    destruct (store output_file (text_file_bytes (locals s5)) s5) as [s6 [[]|e]];
      simpl in *; exact (grown_trans _ _ _ H1 H2).
Qed.

End NeverRemoved.

(** ** Nothing is written off the output directory *)

(** *** A walk over a tree that changes under it *)

Section WalkKeeps.
Context {L : Type}.
Variable inner : pystr -> M L unit.
Variable P : state L -> Prop.
Hypothesis P_well_formed : forall s, P s -> well_formed (fs s) = true.
Hypothesis P_inner : forall root c name s,
  resolve root = Some c -> valid_name name = true -> P s ->
  P (fst (inner (join root name) s)).

Lemma listed_names_valid n top cs dirs nondirs :
  well_formed n = true -> resolve top = Some cs ->
  scandir n top = Some (dirs, nondirs) ->
  Forall (fun k => valid_name k = true) dirs
  /\ Forall (fun k => valid_name k = true) nondirs.
Proof.
  intros Hw Hr. unfold scandir.
  destruct (node_at n top) as [[r d|es]|] eqn:E; try discriminate.
  apply node_at_dir in E as (cs' & Hr' & Hl).
  destruct (well_formed_lookup _ _ _ Hw Hl) as [Hes _].
  unfold listing. intro H. inversion H; subst.
  split; apply Forall_forall; intros k Hk; apply in_map_iff in Hk as ([j m] & <- & Hi);
    apply filter_In in Hi as [Hi _]; apply (well_formed_entry _ _ _ Hes Hi).
Qed.

Lemma walk_inv : forall fuel top cs s,
  resolve top = Some cs -> P s -> P (fst (walk fuel (walk_body inner) top s)).
Proof.
  induction fuel as [|k IH]; intros top cs s Hr Hs; [exact Hs|].
  cbn [walk]. unfold bind at 1, get. cbv beta iota.
  destruct (scandir (fs s) top) as [[dirs nondirs]|] eqn:Esc; [|exact Hs].
  destruct (listed_names_valid _ _ _ _ _ (P_well_formed _ Hs) Hr Esc) as [Hd Hn].
  unfold bind.
  assert (Hb : P (fst (walk_body inner top nondirs s))).
  { unfold walk_body.
    apply (for_each_keeps P (fun k => valid_name k = true)); auto.
    intros x s' Hx Hs'. now apply (P_inner top cs). }
  destruct (walk_body inner top nondirs s) as [sa [[]|e]]; [|exact Hb].
  apply (for_each_keeps P (fun k => valid_name k = true)); auto.
  intros x s' Hx Hs'. apply (IH (join top x) (cs ++ [x])); [|exact Hs'].
  now apply resolve_join_name.
Qed.

End WalkKeeps.

(** *** The copies stay in the output directory *)

Section ExportFrame.
Variable F : node.
Variable es0 : list (pystr * node).
Hypothesis HF : lookup F output_components = Some (Dir es0).

Lemma put_file_well_formed es k data :
  well_formed (set_entries F output_components es) = true -> plain k = true ->
  well_formed (set_entries F output_components (put_file (k ++ lit ".txt") data es)) = true.
Proof.
  intros Hw Hk. unfold put_file.
  set (m := File match find_entry (k ++ lit ".txt") es with
                 | Some (File r _) => r
                 | _ => true
                 end data).
  assert (Hv : forallb valid_name (output_components ++ [k ++ lit ".txt"]) = true).
  { rewrite forallb_app, valid_output_components. simpl. now rewrite (plain_txt _ Hk). }
  exact (place_well_formed _ _ m _ Hw Hv eq_refl
           (place_child_framed F es0 HF es (k ++ lit ".txt") m)).
Qed.

Lemma copy_one_keeps rec p s :
  plain (basename p) = true -> framed_well F s -> framed_well F (fst (copy_one rec p s)).
Proof.
  intros Hb [Hw [es Hs]]. destruct s as [n o l]. cbn [fs] in Hw, Hs. subst n.
  destruct (destination_resolves _ Hb) as [Hd He].
  unfold copy_one, processed_files_append.
  cbv [bind get set_locals fs stdout locals copyfile].
  assert (Hsame : framed_well F (mkState (set_entries F output_components es) o (l ++ [rec])))
    by (split; [exact Hw|now exists es]).
  destruct (samefile _ p _); [exact Hsame|].
  cbv [read_bytes bind get fs raise ret].
  destruct (node_at _ p) as [[[|] data|esd]|]; try exact Hsame.
  rewrite (store_child F es0 HF (mkState (set_entries F output_components es) o (l ++ [rec]))
             es _ _ data eq_refl Hd He). cbn [fs stdout locals].
  destruct (is_dir_entry _ es); [exact Hsame|]. cbn [fst print fs]. split.
  - cbn [fs]. now apply put_file_well_formed.
  - eexists. reflexivity.
Qed.

Lemma copy_walked_keeps root c name s :
  resolve root = Some c -> valid_name name = true ->
  framed_well F s -> framed_well F (fst (copy_walked (join root name) s)).
Proof.
  intros Hr Hn Hs. unfold copy_walked.
  destruct (relpath (join root name) base_dir); [|exact Hs].
  apply copy_one_keeps; [|exact Hs].
  apply resolve_on_volume in Hr as (rest & Hv & _).
  rewrite (basename_join _ _ _ Hv (valid_name_plain _ Hn)). now apply valid_name_plain.
Qed.

Lemma copy_entry_framed_well e s :
  framed_well F s -> framed_well F (fst (copy_entry e s)).
Proof.
  intro Hs. unfold copy_entry. unfold bind at 1, get. cbv beta iota.
  set (source_path := join base_dir (lstrip_slash e)).
  unfold isdir, isfile.
  destruct (node_at (fs s) source_path) as [[r d|es]|] eqn:E.
  - apply (copy_one_keeps e source_path s); [|exact Hs].
    destruct Hs as [Hw _]. apply (file_basename (fs s) Hw _ _ _ E).
  - apply node_at_dir in E as (cs & Hr & _).
    unfold os_walk, bind, get. rewrite copy_files_body.
    apply (walk_inv copy_walked (framed_well F)) with (cs := cs); auto.
    + intros s' [Hw _]. exact Hw.
    + intros root c name s'. apply copy_walked_keeps.
  - exact Hs.
Qed.

Lemma write_index_framed_well s :
  framed_well F s -> output_framed F (fst (write_index s)).
Proof.
  intros [_ [es Hs]]. destruct s as [n o l]. cbn [fs] in Hs. subst n.
  rewrite (write_index_framed F es0 es o l HF).
  destruct (is_dir_entry _ es); [now exists es|eexists; reflexivity].
Qed.

End ExportFrame.

Lemma off_output_combined cs :
  off_output cs = true ->
  prefixb cs combined_components = false /\ prefixb combined_components cs = false.
Proof.
  unfold off_output. rewrite apart_spec. intros [H1 H2]. split.
  - destruct (prefixb cs combined_components) eqn:E; [|reflexivity].
    apply prefixb_spec in E as [r E]. unfold combined_components in E.
    destruct (exists_last (l := r)) as (r' & x & ->).
    + intro Hr. subst r. rewrite app_nil_r in E.
      assert (prefixb output_components cs = true)
        by (apply prefixb_spec; eexists; exact (eq_sym E)).
      congruence.
    + rewrite app_assoc in E. apply app_inj_tail in E as [E _].
      assert (prefixb cs output_components = true)
        by (apply prefixb_spec; now exists r').
      congruence.
  - destruct (prefixb combined_components cs) eqn:E; [|reflexivity].
    apply prefixb_spec in E as [r E]. unfold combined_components in E.
    rewrite <- app_assoc in E.
    assert (prefixb output_components cs = true)
      by (apply prefixb_spec; eexists; exact E).
    congruence.
Qed.

Lemma off_output_made n n' cs :
  make_dirs n output_components = inl n' -> off_output cs = true ->
  lookup n' cs = lookup n cs.
Proof.
  intros Hm Ho. apply (make_dirs_other _ _ _ _ Hm).
  unfold off_output in Ho. now apply apart_spec in Ho as [Ho _].
Qed.

Section SourcesUntouched.
Variable locale_decode : list byte -> option pystr.
Variable flushed : list byte -> list byte.

(** However a run of [txtexport.py] ends, the tree is the one [os.makedirs]
    left but for the entries of the output directory. *)
Lemma export_framed fs0 F0 :
  well_formed fs0 = true -> make_dirs fs0 output_components = inl F0 ->
  output_framed F0 (fst (txtexport locale_decode fs0)).
Proof.
  intros Hw Hm. pose proof (lookup_output_entries _ _ Hm) as HF.
  assert (HW0 : well_formed F0 = true)
    by apply (make_dirs_well_formed _ _ _ Hw valid_output_components Hm).
  assert (H0 : forall o (l : list pystr), framed_well F0 (mkState F0 o l)).
  { intros o l. split; [exact HW0|]. exists (output_entries F0). cbn [fs].
    now rewrite (set_entries_same F0 _ HF). }
  unfold txtexport, txtexport_main. unfold bind at 1. rewrite (makedirs_ok _ _ _ _ Hm).
  unfold bind at 1.
  pose proof (read_file_paths_keeps locale_decode (mkState F0 (@nil pystr) (@nil pystr)))
    as Hk.
  destruct (read_file_paths locale_decode _) as [s2 [entries|e]]; simpl in Hk; subst s2;
    [|apply H0].
  unfold bind at 1, set_locals. cbn [fs stdout]. unfold bind at 1.
  pose proof (for_each_keeps (framed_well F0) (fun _ => True) copy_entry
                (fun x s _ => copy_entry_framed_well F0 _ HF x s) entries
                (mkState F0 [] []) (proj2 (Forall_forall _ _) (fun _ _ => I)) (H0 _ _))
    as Hloop.
  destruct (for_each entries copy_entry _) as [s3 [[]|e]]; simpl in Hloop;
    [|apply Hloop].
  apply (write_index_framed_well F0 _ HF s3 Hloop).
Qed.

(** Property X4.  Whatever the manifest holds and however the run ends,
    neither script changes a node that is neither in the output directory
    nor above it: every source file and directory is looked up after the run
    as before it. *)
Theorem nothing_written_off_output (fs0 : node) (cs : list pystr) :
  well_formed fs0 = true -> off_output cs = true ->
  lookup (fs (fst (txtexport locale_decode fs0))) cs = lookup fs0 cs
  /\ lookup (fs (fst (txtexport_onefile locale_decode flushed fs0))) cs = lookup fs0 cs.
Proof.
  intros Hw Ho. split.
  - destruct (make_dirs fs0 output_components) as [F0|b] eqn:Hm.
    + destruct (export_framed fs0 F0 Hw Hm) as [es ->].
      rewrite (lookup_set_entries_off F0 _ (lookup_output_entries _ _ Hm) es cs Ho).
      apply (off_output_made _ _ _ Hm Ho).
    + unfold txtexport, txtexport_main. unfold bind at 1.
      destruct (makedirs_fails fs0 [] (@nil pystr) b Hm) as [e ->]. reflexivity.
  - destruct (off_output_combined cs Ho) as [A1 A2].
    unfold txtexport_onefile, txtexport_onefile_main.
    rewrite dirname_output_file.
    destruct (make_dirs fs0 output_components) as [F0|b] eqn:Hm.
    + destruct (manifest_entries locale_decode F0) as [entries|] eqn:He.
      * destruct (isdir F0 output_file) eqn:Hd.
        -- unfold bind at 1. rewrite (makedirs_ok _ _ _ _ Hm). unfold bind at 1.
           rewrite (read_file_paths_entries locale_decode (mkState F0 [] []) entries He).
           unfold bind at 1, set_locals. cbn [fs stdout locals]. unfold bind at 1.
           rewrite (store_on_dir output_file [] (mkState F0 (@nil pystr) (@nil N)) Hd).
           cbn [fst fs]. apply (off_output_made _ _ _ Hm Ho).
        -- pose proof (onefile_run locale_decode flushed fs0 F0 entries Hm He Hd Hw) as R.
           unfold txtexport_onefile, txtexport_onefile_main in R.
           rewrite dirname_output_file in R. rewrite R. unfold onefile_outcome.
           cbn [fst fs].
           destruct (opened_spec F0 (make_dirs_isdir _ _ Hm) Hd) as (r & Hp & Hl & _).
           rewrite (place_lookup_other _ _ _ _ _ (set_data_place (opened F0) r [] Hl _) A1 A2).
           rewrite (place_lookup_other _ _ _ _ _ Hp A1 A2).
           apply (off_output_made _ _ _ Hm Ho).
      * unfold bind at 1. rewrite (makedirs_ok _ _ _ _ Hm). unfold bind at 1.
        destruct (read_file_paths_fails locale_decode (mkState F0 (@nil pystr) (@nil N)) He)
          as [e ->].
        cbn [fst fs]. apply (off_output_made _ _ _ Hm Ho).
    + unfold bind at 1. destruct (makedirs_fails fs0 [] (@nil N) b Hm) as [e ->].
      reflexivity.
Qed.

End SourcesUntouched.

(** ** The combined file, however the loop ends *)

Section CombinedClosed.
Variable locale_decode : list byte -> option pystr.
Variable flushed : list byte -> list byte.

(** The lines printed while the items are gone through name missing paths. *)
Lemma combined_run_printed n items : forall written printed,
  exists missing,
    snd (fst (combined_run flushed n items written printed))
    = printed ++ List.map (fun p => lit "Path not found: " ++ p) missing.
Proof.
  induction items as [|it items IH]; intros written printed.
  - exists []. simpl. now rewrite app_nil_r.
  - destruct it as [p|e p|p].
    + cbn [combined_run]. cbv zeta.
      destruct (text_read flushed n _ _) as [text|e]; [apply IH|].
      exists []. simpl. now rewrite app_nil_r.
    + cbn [combined_run]. cbv zeta.
      destruct (text_read flushed n _ _) as [text|e']; [apply IH|].
      exists []. simpl. now rewrite app_nil_r.
    + cbn [combined_run].
      destruct (IH written (printed ++ [lit "Path not found: " ++ p])) as [missing ->].
      exists (p :: missing). now rewrite <- app_assoc.
Qed.

(** Property X5.  Leaving the [with] block closes the combined file: however
    the loop of [txtexport_onefile.py] ends, and whatever had reached the
    disk before, the file then holds all the text written; the lines printed
    name missing paths, and the closing line follows them exactly when no
    exception ended the loop. *)
Theorem combined_file_holds_all_written (fs0 F0 : node) (entries : list pystr) :
  well_formed fs0 = true ->
  make_dirs fs0 output_components = inl F0 ->
  manifest_entries locale_decode F0 = Some entries ->
  isdir F0 output_file = false ->
  let run := txtexport_onefile locale_decode flushed fs0 in
  exists r missing,
    node_at (fs (fst run)) output_file
    = Some (File r (text_file_bytes (locals (fst run))))
    /\ stdout (fst run)
       = List.map (fun p => lit "Path not found: " ++ p) missing
         ++ match snd run with
            | Ok _ => [lit "All files combined into: " ++ output_file]
            | Raise _ => []
            end.
Proof.
  intros Hw Hm He Hd run. unfold run.
  rewrite (onefile_run locale_decode flushed fs0 F0 entries Hm He Hd Hw).
  destruct (opened_spec F0 (make_dirs_isdir _ _ Hm) Hd) as (r & _ & Hl & _).
  unfold onefile_outcome. cbn [fst snd fs stdout locals].
  destruct (combined_run_printed (opened F0) (flat_map (resolved_files (opened F0)) entries)
              [] []) as [missing Hp].
  exists r, missing. split.
  - destruct resolve_combined as [Hr Hs]. unfold node_at.
    now rewrite Hr, Hs, (lookup_set_data (opened F0) r [] Hl).
  - now rewrite Hp.
Qed.

End CombinedClosed.

(** ** A manifest of white space *)

Lemma lstrip_blank t : forallb isspace t = true -> lstrip t = [].
Proof.
  induction t as [|c t IH]; [reflexivity|]. simpl. intro H.
  apply andb_true_iff in H as [Hc Ht]. rewrite Hc. now apply IH.
Qed.

Lemma strip_blank t : forallb isspace t = true -> strip t = [].
Proof. intro H. unfold strip. now rewrite (lstrip_blank t H). Qed.

Section BlankManifest.
Variable locale_decode : list byte -> option pystr.
Variable flushed : list byte -> list byte.

Lemma blank_manifest_entries n data text :
  node_at n prompt_file = Some (File true data) ->
  locale_decode data = Some text ->
  forallb isspace (universal_newlines text) = true ->
  manifest_entries locale_decode n = Some [].
Proof.
  intros Hn Hd Hb. unfold manifest_entries. now rewrite Hn, Hd, (strip_blank _ Hb).
Qed.

(** Property X6.  A manifest that holds nothing but white space has no
    entries: [txtexport.py] then copies nothing and writes an index that
    holds the header line and the empty line after it and nothing else,
    [txtexport_onefile.py] leaves an empty combined file, and each prints
    its closing line only. *)
Theorem blank_manifest_exports_nothing (fs0 F0 : node) (data : list byte) (text : pystr) :
  well_formed fs0 = true ->
  make_dirs fs0 output_components = inl F0 ->
  node_at F0 prompt_file = Some (File true data) ->
  locale_decode data = Some text ->
  forallb isspace (universal_newlines text) = true ->
  (is_dir_entry index_name (output_entries F0) = false ->
   txtexport locale_decode fs0
   = (mkState (set_entries F0 output_components
                 (put_file index_name
                    (text_file_bytes (lit "**ULP 1.5 Project Files**" ++ [LF; LF]))
                    (output_entries F0)))
        [lit "Exported processed files to: " ++ project_file_system_path] [], Ok tt))
  /\ (isdir F0 output_file = false ->
      txtexport_onefile locale_decode flushed fs0
      = (mkState (opened F0) [lit "All files combined into: " ++ output_file] [], Ok tt)).
Proof.
  intros Hw Hm Hn Hd Hb.
  pose proof (blank_manifest_entries F0 data text Hn Hd Hb) as He. split.
  - intro Hidx. pose proof (lookup_output_entries _ _ Hm) as HF.
    rewrite (txtexport_run locale_decode _ _ _ Hm He). cbn [for_each]. unfold bind, ret.
    rewrite <- (set_entries_same F0 _ HF) at 1.
    rewrite (write_index_framed F0 _ _ _ _ HF). fold index_name. rewrite Hidx.
    cbn [locals]. rewrite (project_file_text_spelled []). reflexivity.
  - intro Hf. rewrite (onefile_run locale_decode flushed fs0 F0 [] Hm He Hf Hw).
    destruct (opened_spec F0 (make_dirs_isdir _ _ Hm) Hf) as (r & _ & Hl & _).
    unfold onefile_outcome. cbn [flat_map combined_run fst snd app].
    change (text_file_bytes []) with (@nil byte).
    now rewrite (set_data_same (opened F0) r [] Hl).
Qed.

End BlankManifest.

(** ** A manifest entry that names a directory *)

Section WalkEntry.
Context {L : Type}.
Variable inner : pystr -> M L unit.
Variable Seen : list pystr -> state L -> Prop.
Hypothesis inner_grown : forall p s, grown (fs s) (fs (fst (inner p s))).
Hypothesis Seen_keeps : forall P p s, Seen P s -> Seen P (fst (inner p s)).
Hypothesis Seen_made : forall top cs name s s',
  resolve top = Some cs -> valid_name name = true ->
  inner (join top name) s = (s', Ok tt) -> Seen (cs ++ [name]) s'.

(** A walk that goes through has visited every file that was below its
    top. *)
Lemma os_walk_visits top cs s s' rest :
  resolve top = Some cs -> well_formed (fs s) = true -> rest <> [] ->
  file_at (fs s) (cs ++ rest) = true ->
  os_walk (walk_body inner) top s = (s', Ok tt) ->
  Seen (cs ++ rest) s'.
Proof.
  intros Hr Hw Hne Hf Hrun. destruct (exists_last Hne) as (r & name & ->).
  assert (Hl : exists x d, lookup (fs s) (cs ++ r ++ [name]) = Some (File x d)).
  { unfold file_at in Hf. destruct (lookup (fs s) _) as [[x d|es]|]; try discriminate. eauto. }
  destruct Hl as (x & d & Hl).
  destruct (well_formed_lookup _ _ _ Hw Hl) as [_ Hv].
  pose proof (height_lookup _ _ _ Hl) as Hh. rewrite !length_app in Hh.
  rewrite forallb_app in Hv. apply andb_true_iff in Hv as [_ Hv].
  unfold os_walk, bind, get in Hrun.
  apply (walk_visits inner Seen inner_grown Seen_keeps Seen_made
           (S (height (fs s))) top cs r name s s'); auto.
  simpl in Hh. lia.
Qed.

End WalkEntry.

Lemma dir_below n p cs rest :
  resolve p = Some cs -> rest <> [] -> file_at n (cs ++ rest) = true -> isdir n p = true.
Proof.
  intros Hr Hne Hf. destruct (file_at_below _ _ _ Hf Hne) as (es & Hl & _).
  unfold isdir, node_at. now rewrite Hr, Hl.
Qed.

Lemma copy_entry_dir e cs (s s' : state (list pystr)) rest :
  resolve (join base_dir (lstrip_slash e)) = Some cs ->
  well_formed (fs s) = true -> rest <> [] ->
  file_at (fs s) (cs ++ rest) = true ->
  copy_entry e s = (s', Ok tt) ->
  copied (cs ++ rest) s'.
Proof.
  intros Hr Hw Hne Hf Hrun. unfold copy_entry in Hrun.
  unfold bind at 1, get in Hrun. cbv beta iota in Hrun.
  rewrite (dir_below _ _ _ _ Hr Hne Hf) in Hrun.
  rewrite copy_files_body in Hrun.
  apply (os_walk_visits copy_walked copied copy_walked_grown copied_keeps copied_made
           _ cs s s' rest Hr Hw Hne Hf Hrun).
Qed.

Lemma combine_entry_dir flushed e cs (s s' : state pystr) rest :
  resolve (join base_dir (lstrip_slash e)) = Some cs ->
  well_formed (fs s) = true -> rest <> [] ->
  file_at (fs s) (cs ++ rest) = true ->
  combine_entry flushed e s = (s', Ok tt) ->
  combined (cs ++ rest) s'.
Proof.
  intros Hr Hw Hne Hf Hrun. unfold combine_entry in Hrun.
  unfold bind at 1, get in Hrun. cbv beta iota in Hrun.
  rewrite (dir_below _ _ _ _ Hr Hne Hf) in Hrun.
  rewrite combine_files_body in Hrun.
  apply (os_walk_visits (combine_walked flushed) combined
           (combine_walked_grown flushed) (combined_keeps flushed) (combined_made flushed)
           _ cs s s' rest Hr Hw Hne Hf Hrun).
Qed.

Section DirectoryEntry.
Variable flushed : list byte -> list byte.

(** Property X12.  A manifest entry that names a directory below the base
    directory: when the entry goes through, every file that was below that
    directory is exported, [txtexport.py] having recorded [/] and its path
    from the base directory and copied it, [txtexport_onefile.py] having
    written a block under that path. *)
Theorem directory_entry_exports_all (e : pystr) (sub : list pystr) :
  resolve (join base_dir (lstrip_slash e)) = Some (base_components ++ sub) ->
  (forall (s s' : state (list pystr)) rest,
     well_formed (fs s) = true -> rest <> [] ->
     file_at (fs s) (base_components ++ sub ++ rest) = true ->
     copy_entry e s = (s', Ok tt) ->
     In (SLASH :: sep_join SLASH (sub ++ rest)) (locals s')
     /\ file_at (fs s') (output_components ++ [last rest [] ++ lit ".txt"]) = true)
  /\ (forall (s s' : state pystr) rest,
        well_formed (fs s) = true -> rest <> [] ->
        file_at (fs s) (base_components ++ sub ++ rest) = true ->
        combine_entry flushed e s = (s', Ok tt) ->
        exists before text after,
          locals s' = before ++ file_block (sep_join SLASH (sub ++ rest)) text ++ after).
Proof.
  intro Hr.
  assert (Hlab : forall n rest, well_formed n = true -> rest <> [] ->
            file_at n (base_components ++ sub ++ rest) = true ->
            label_of ((base_components ++ sub) ++ rest) = sep_join SLASH (sub ++ rest)).
  { intros n rest Hw Hne Hf. rewrite <- app_assoc. apply label_of_below.
    - unfold file_at in Hf.
      destruct (lookup n (base_components ++ sub ++ rest)) as [[x d|es]|] eqn:Hl;
        try discriminate.
      apply (well_formed_lookup _ _ _ Hw Hl).
    - intro E. apply app_eq_nil in E as [_ E]. contradiction. }
  split.
  - intros s s' rest Hw Hne Hf Hrun. pose proof Hf as Hf'. rewrite app_assoc in Hf'.
    destruct (copy_entry_dir e _ s s' rest Hr Hw Hne Hf' Hrun) as [H1 H2].
    rewrite (Hlab _ _ Hw Hne Hf) in H1. rewrite (last_below _ _ Hne) in H2. now split.
  - intros s s' rest Hw Hne Hf Hrun. pose proof Hf as Hf'. rewrite app_assoc in Hf'.
    destruct (combine_entry_dir flushed e _ s s' rest Hr Hw Hne Hf' Hrun)
      as (a & text & b & H).
    rewrite (Hlab _ _ Hw Hne Hf) in H. eauto.
Qed.

End DirectoryEntry.

(** ** Manifest lines that lead off the base directory *)

Lemma splitdrive_rooted n :
  plain n = true -> splitdrive (BACKSLASH :: n) = ([], BACKSLASH :: n).
Proof.
  unfold plain. intro H. apply andb_true_iff in H as [Hne H].
  destruct n as [|x n]; [discriminate|]. simpl in H.
  apply andb_true_iff in H as [Hx _]. apply andb_true_iff in Hx as [H1 H2].
  apply negb_true_iff in H1, H2. unfold splitdrive. rewrite H1, H2.
  now rewrite andb_false_r.
Qed.

Lemma join_base_dir_rooted n :
  plain n = true -> join base_dir (BACKSLASH :: n) = lit "c:" ++ BACKSLASH :: n.
Proof.
  intro H. unfold join. rewrite (splitdrive_rooted n H).
  assert (Hb : splitdrive base_dir = (lit "c:", skipn 2 base_dir)) by reflexivity.
  rewrite Hb. reflexivity.
Qed.

(** Property X8.  Only [/] is stripped from the front of a manifest line, and
    the line is joined to the base directory unchecked: a line that starts
    with a backslash is looked up from the root of the drive, and a line
    [../name] in the directory above the base directory. *)
Theorem entry_can_leave_base (n : pystr) :
  valid_name n = true ->
  resolve (join base_dir (lstrip_slash (BACKSLASH :: n))) = Some [n]
  /\ resolve (join base_dir (lstrip_slash (pardir ++ SLASH :: n)))
     = Some (removelast base_components ++ [n]).
Proof.
  intro Hv. pose proof (valid_name_plain _ Hv) as Hp. split.
  - change (lstrip_slash (BACKSLASH :: n)) with (BACKSLASH :: n).
    rewrite (join_base_dir_rooted n Hp).
    change (resolve (lit "c:" ++ BACKSLASH :: n)) with (Some (components ([] ++ BACKSLASH :: n))).
    rewrite (components_app_name [] BACKSLASH n eq_refl (plain_sep_free _ Hp)).
    now rewrite fold_comp_valid.
  - change (lstrip_slash (pardir ++ SLASH :: n)) with (pardir ++ SLASH :: n).
    assert (Hrel : relative (pardir ++ SLASH :: n)).
    { split; [apply splitdrive_plain_head; [reflexivity|now right]|reflexivity]. }
    rewrite (resolve_join_relative _ _ _ resolve_base_dir Hrel).
    rewrite (fields_app_sep pardir SLASH n eq_refl), (fields_sep_free _ (plain_sep_free _ Hp)).
    change (fields pardir) with [pardir]. cbn [app fold_left].
    now rewrite fold_comp_pardir, fold_comp_valid.
Qed.

(** ** The shape of the manifest entries *)

Lemma linebreak_isspace c : is_linebreak c = true -> isspace c = true.
Proof.
  unfold is_linebreak, isspace. intro H.
  repeat match goal with
         | H : (_ || _) = true |- _ => apply orb_true_iff in H as [H|H]
         | H : (_ && _) = true |- _ => apply andb_true_iff in H as [? ?]
         | H : (_ <=? _) = true |- _ => apply N.leb_le in H
         | H : (_ =? _) = true |- _ => apply N.eqb_eq in H
         end;
  repeat match goal with
         | |- (_ || _) = true => apply orb_true_iff
         end.
  all: repeat rewrite orb_true_iff; repeat rewrite andb_true_iff;
       repeat rewrite N.leb_le; repeat rewrite N.eqb_eq; lia.
Qed.

Lemma nonspace_not_linebreak c : isspace c = false -> is_linebreak c = false.
Proof.
  intro H. destruct (is_linebreak c) eqn:E; [|reflexivity].
  apply linebreak_isspace in E. congruence.
Qed.

Lemma splitlines_bounded k : forall t,
  (List.length t <= k)%nat -> forallb no_linebreak (splitlines t) = true.
Proof.
  induction k as [|k IH]; intros t Hk.
  - destruct t; [reflexivity|simpl in Hk; lia].
  - destruct t as [|c t]; [reflexivity|]. simpl in Hk.
    cbn [splitlines]. destruct (is_linebreak c) eqn:Ec.
    + cbn [forallb no_linebreak]. fold no_linebreak.
      destruct (c =? CR); [|apply IH; lia].
      destruct t as [|c' t']; [reflexivity|]. simpl in Hk.
      destruct (c' =? LF); apply IH; simpl; lia.
    + pose proof (IH t ltac:(lia)) as Ht.
      destruct (splitlines t) as [|l ls]; simpl in *; rewrite Ec; simpl; [reflexivity|].
      exact Ht.
Qed.

Lemma splitlines_no_linebreak t : forallb no_linebreak (splitlines t) = true.
Proof. apply (splitlines_bounded (List.length t)). lia. Qed.

(** The last line of a text that ends in a character that is no line
    boundary ends in that character. *)
Lemma splitlines_snoc_bounded c k : is_linebreak c = false -> forall x,
  (List.length x <= k)%nat ->
  exists ls l, splitlines (x ++ [c]) = ls ++ [l ++ [c]].
Proof.
  intro Hc.
  assert (Hlf : (c =? LF) = false).
  { destruct (c =? LF) eqn:E; [|reflexivity]. apply N.eqb_eq in E. subst c. discriminate. }
  induction k as [|k IH]; intros x Hk.
  - destruct x; [|simpl in Hk; lia]. exists [], []. simpl. now rewrite Hc.
  - destruct x as [|d x]; [exists [], []; simpl; now rewrite Hc|]. simpl in Hk.
    cbn [app splitlines]. destruct (is_linebreak d) eqn:Ed.
    + assert (Hrest : exists ls l,
                (if d =? CR
                 then match x ++ [c] with
                      | [] => []
                      | c' :: t' => if c' =? LF then splitlines t' else splitlines (x ++ [c])
                      end
                 else splitlines (x ++ [c])) = ls ++ [l ++ [c]]).
      { destruct (d =? CR); [|apply IH; lia].
        destruct x as [|c' x']; cbn [app].
        - rewrite Hlf. apply (IH []). simpl. lia.
        - simpl in Hk. destruct (c' =? LF); [apply IH; lia|].
          apply (IH (c' :: x')). simpl. lia. }
      destruct Hrest as (ls & l & E).
      exists ([] :: ls), l. cbn [app].
      destruct (d =? CR); [|now rewrite E].
      destruct (x ++ [c]) as [|c' t'] eqn:Ex; [destruct x; discriminate|].
      now rewrite E.
    + destruct (IH x ltac:(lia)) as (ls & l & E). rewrite E.
      destruct ls as [|l0 ls]; cbn [app].
      * exists [], (d :: l). reflexivity.
      * exists ((d :: l0) :: ls), l. reflexivity.
Qed.

Lemma lstrip_starts x : lstrip x = [] \/ starts_nonspace (lstrip x) = true.
Proof.
  induction x as [|c x IH]; [now left|]. simpl.
  destruct (isspace c) eqn:E; [exact IH|]. right. simpl. now rewrite E.
Qed.

Lemma lstrip_suffix x : exists ws, x = ws ++ lstrip x.
Proof.
  induction x as [|c x [ws IH]]; [now exists []|]. simpl.
  destruct (isspace c); [|now exists []]. exists (c :: ws). simpl. now rewrite <- IH.
Qed.

Lemma strip_shape t :
  strip t = [] \/ (starts_nonspace (strip t) = true /\ ends_nonspace (strip t) = true).
Proof.
  unfold strip, rstrip. set (y := lstrip t).
  destruct (lstrip_starts (rev y)) as [E|E].
  - left. now rewrite E.
  - right. split.
    + destruct (lstrip_suffix (rev y)) as [ws Hws].
      apply (f_equal (@rev N)) in Hws. rewrite rev_involutive, rev_app_distr in Hws.
      destruct (rev (lstrip (rev y))) as [|c r] eqn:Er.
      * apply (f_equal (@rev N)) in Er. rewrite rev_involutive in Er. simpl in Er.
        rewrite Er in E. discriminate.
      * destruct (lstrip_starts t) as [Ey|Ey]; fold y in Ey.
        -- rewrite Ey in Hws. discriminate.
        -- rewrite Hws in Ey. exact Ey.
    + unfold ends_nonspace. now rewrite rev_involutive.
Qed.

Lemma splitlines_shape b :
  starts_nonspace b = true -> ends_nonspace b = true ->
  splitlines b <> []
  /\ starts_nonspace (hd [] (splitlines b)) = true
  /\ ends_nonspace (last (splitlines b) []) = true.
Proof.
  intros Hs He.
  assert (Hhd : splitlines b <> [] /\ starts_nonspace (hd [] (splitlines b)) = true).
  { destruct b as [|c t]; [discriminate|]. simpl in Hs. apply negb_true_iff in Hs.
    cbn [splitlines]. rewrite (nonspace_not_linebreak _ Hs).
    destruct (splitlines t); (split; [discriminate|]); simpl; now rewrite Hs. }
  destruct Hhd as [Hne Hhd]. split; [exact Hne|]. split; [exact Hhd|].
  unfold ends_nonspace in He. destruct (rev b) as [|c r] eqn:Er; [discriminate|].
  simpl in He. apply negb_true_iff in He.
  apply (f_equal (@rev N)) in Er. rewrite rev_involutive in Er. simpl in Er. subst b.
  destruct (splitlines_snoc_bounded c (List.length (rev r))
              (nonspace_not_linebreak _ He) (rev r) (le_n _)) as (ls & l & E).
  rewrite E, last_last. unfold ends_nonspace. rewrite rev_app_distr. simpl.
  now rewrite He.
Qed.

Section EntriesShape.
Variable locale_decode : list byte -> option pystr.

(** Property X7.  Reading the manifest leaves the state as it is, and of the
    entries it gives none holds a line boundary, the first does not start
    with white space and the last does not end with it. *)
Theorem manifest_entries_shape {L} (s s' : state L) (entries : list pystr) :
  read_file_paths locale_decode s = (s', Ok entries) ->
  s' = s
  /\ forallb no_linebreak entries = true
  /\ (entries <> [] ->
      starts_nonspace (hd [] entries) = true /\ ends_nonspace (last entries []) = true).
Proof.
  intro H. pose proof (read_file_paths_keeps locale_decode s) as Hk.
  rewrite H in Hk. simpl in Hk. split; [exact Hk|].
  cbv [read_file_paths bind read_bytes get raise ret] in H.
  destruct (node_at (fs s) prompt_file) as [[[|] data|es]|]; try discriminate.
  destruct (locale_decode data) as [text|]; [|discriminate].
  inversion H; subst. split; [apply splitlines_no_linebreak|].
  intro Hne. destruct (strip_shape (universal_newlines text)) as [E|[Hs He]].
  - rewrite E in Hne. now destruct Hne.
  - destruct (splitlines_shape _ Hs He) as (_ & Ha & Hb). now split.
Qed.

End EntriesShape.

(** ** Text written, then read *)

(** The base-64 digits of a code point. *)
Lemma digits c :
  exists q1 q2 q3 r0 r1 r2,
    c / 64 = q1 /\ c / 4096 = q2 /\ c / 262144 = q3
    /\ c mod 64 = r0 /\ (c / 64) mod 64 = r1 /\ (c / 4096) mod 64 = r2
    /\ c = 64 * q1 + r0 /\ q1 = 64 * q2 + r1 /\ q2 = 64 * q3 + r2
    /\ r0 < 64 /\ r1 < 64 /\ r2 < 64.
Proof.
  assert (H64 : 64 <> 0) by discriminate.
  exists (c / 64), (c / 4096), (c / 262144), (c mod 64), ((c / 64) mod 64),
    ((c / 4096) mod 64).
  repeat split; try apply N.mod_lt; try assumption.
  - apply N.Div0.div_mod.
  - replace (c / 4096) with (c / 64 / 64) by (rewrite N.Div0.div_div; reflexivity).
    apply N.Div0.div_mod.
  - replace (c / 262144) with (c / 4096 / 64) by (rewrite N.Div0.div_div; reflexivity).
    apply N.Div0.div_mod.
Qed.

Ltac compare_all :=
  repeat (cbn [andb orb negb];
          match goal with
          | |- context [?a <? ?b] => destruct (N.ltb_spec a b); try lia
          | |- context [?a <=? ?b] => destruct (N.leb_spec a b); try lia
          | |- context [?a =? ?b] => destruct (N.eqb_spec a b); try lia
          end).

Lemma decode_encode_char c rest :
  scalar c = true ->
  utf8_decode_ignore (utf8_encode_char c ++ rest) = c :: utf8_decode_ignore rest.
Proof.
  intro Hs. unfold scalar in Hs.
  assert (Hc : c < 0xD800 \/ (0xDFFF < c /\ c < 0x110000)).
  { apply orb_true_iff in Hs as [Hs|Hs]; [left; now apply N.ltb_lt|right].
    apply andb_true_iff in Hs as [H1 H2]. split; now apply N.ltb_lt. }
  clear Hs.
  destruct (digits c) as (q1 & q2 & q3 & r0 & r1 & r2 & E1 & E2 & E3 & E4 & E5 & E6
                          & D1 & D2 & D3 & B0 & B1 & B2).
  unfold utf8_encode_char. rewrite E5, E6, E4, E1, E2, E3.
  destruct (N.ltb_spec c 0x80) as [L1|L1].
  - cbn [app utf8_decode_ignore]. destruct (N.ltb_spec c 0x80); [reflexivity|lia].
  - destruct (N.ltb_spec c 0x800) as [L2|L2].
    + cbn [app utf8_decode_ignore]. unfold is_cont. compare_all. f_equal. lia.
    + destruct (N.ltb_spec c 0x10000) as [L3|L3].
      * cbn [app utf8_decode_ignore]. unfold second3, is_cont. compare_all; f_equal; lia.
      * cbn [app utf8_decode_ignore]. unfold second4, is_cont. compare_all; f_equal; lia.
Qed.

Lemma decode_encode s :
  forallb scalar s = true -> utf8_decode_ignore (utf8_encode s) = s.
Proof.
  induction s as [|c s IH]; [reflexivity|]. cbn [forallb]. intro H.
  apply andb_true_iff in H as [Hc Hs]. unfold utf8_encode. cbn [flat_map].
  rewrite (decode_encode_char c _ Hc). fold (utf8_encode s). now rewrite IH.
Qed.

Lemma to_N_byte_of_N b : b < 256 -> Byte.to_N (byte_of_N b) = b.
Proof.
  intro H. unfold byte_of_N. destruct (Byte.of_N b) as [x|] eqn:E.
  - now apply Byte.to_of_N.
  - apply Byte.of_N_None_iff in E. lia.
Qed.

Lemma encode_char_bytes c :
  scalar c = true -> Forall (fun b => b < 256) (utf8_encode_char c).
Proof.
  intro Hs. unfold scalar in Hs.
  assert (Hc : c < 0x110000).
  { apply orb_true_iff in Hs as [Hs|Hs]; [apply N.ltb_lt in Hs; lia|].
    apply andb_true_iff in Hs as [_ H2]. now apply N.ltb_lt. }
  clear Hs.
  destruct (digits c) as (q1 & q2 & q3 & r0 & r1 & r2 & E1 & E2 & E3 & E4 & E5 & E6
                          & D1 & D2 & D3 & B0 & B1 & B2).
  unfold utf8_encode_char. rewrite E5, E6, E4, E1, E2, E3.
  destruct (N.ltb_spec c 0x80); [repeat constructor; lia|].
  destruct (N.ltb_spec c 0x800); [repeat constructor; lia|].
  destruct (N.ltb_spec c 0x10000); repeat constructor; lia.
Qed.

Lemma encode_bytes s :
  forallb scalar s = true ->
  List.map Byte.to_N (List.map byte_of_N (utf8_encode s)) = utf8_encode s.
Proof.
  intro H. rewrite map_map.
  assert (Hb : Forall (fun b => b < 256) (utf8_encode s)).
  { unfold utf8_encode. apply Forall_flat_map. apply Forall_forall. intros c Hc.
    apply encode_char_bytes. rewrite forallb_forall in H. now apply H. }
  induction Hb as [|b l Hb _ IH]; [reflexivity|]. simpl.
  now rewrite (to_N_byte_of_N b Hb), IH.
Qed.

Lemma write_newlines_scalar s :
  forallb scalar s = true -> forallb scalar (write_newlines s) = true.
Proof.
  induction s as [|c s IH]; [reflexivity|]. cbn [forallb write_newlines]. intro H.
  apply andb_true_iff in H as [Hc Hs].
  destruct (N.eqb_spec c LF) as [->|_]; cbn [forallb]; rewrite ?Hc, (IH Hs); reflexivity.
Qed.

(** What was written with [\n] for line ends is read back as it was. *)
Lemma universal_write_newlines s :
  no_cr s = true -> universal_newlines (write_newlines s) = s.
Proof.
  unfold no_cr. induction s as [|c s IH]; [reflexivity|]. cbn [forallb write_newlines].
  intro H. apply andb_true_iff in H as [Hc Hs]. apply negb_true_iff in Hc.
  destruct (N.eqb_spec c LF) as [->|Hlf].
  - cbn [universal_newlines]. change (CR =? CR) with true. change (LF =? LF) with true.
    cbv beta iota. now rewrite (IH Hs).
  - cbn [universal_newlines]. rewrite Hc. now rewrite (IH Hs).
Qed.

(** Property X10.  A text of Unicode scalar values without carriage returns
    that is written to a file opened with [open(p, "w", encoding="utf-8")] is
    read back unchanged by [open(p, "r", encoding="utf-8", errors="ignore")]:
    the line ends written as CR LF and the UTF-8 bytes decode to the same
    text. *)
Theorem text_written_reads_back (s : pystr) :
  forallb scalar s = true -> no_cr s = true ->
  read_text_utf8_ignore (text_file_bytes s) = s.
Proof.
  intros Hs Hc. unfold read_text_utf8_ignore, text_file_bytes.
  pose proof (write_newlines_scalar s Hs) as Hw.
  rewrite (encode_bytes _ Hw), (decode_encode _ Hw).
  now apply universal_write_newlines.
Qed.

(** ** What the lossy decoder lets through *)

Ltac to_props :=
  repeat match goal with
         | H : (_ && _) = true |- _ => apply andb_true_iff in H as [? ?]
         | H : (_ <=? _) = true |- _ => apply N.leb_le in H
         | H : (_ <? _) = true |- _ => apply N.ltb_lt in H
         | H : (_ <? _) = false |- _ => apply N.ltb_ge in H
         | H : (_ =? _) = true |- _ => apply N.eqb_eq in H
         | H : (_ =? _) = false |- _ => apply N.eqb_neq in H
         end.

Lemma scalar_spec c : scalar c = true <-> c < 0xD800 \/ (0xDFFF < c /\ c < 0x110000).
Proof.
  unfold scalar. rewrite orb_true_iff, andb_true_iff, !N.ltb_lt. reflexivity.
Qed.

Lemma second3_spec b0 b1 :
  second3 b0 b1 = true -> 0xE0 <= b0 -> b0 <= 0xEF ->
  0x80 <= b1 /\ b1 <= 0xBF /\ (b0 = 0xE0 -> 0xA0 <= b1) /\ (b0 = 0xED -> b1 <= 0x9F).
Proof.
  unfold second3, is_cont. intros H L1 L2.
  destruct (N.eqb_spec b0 0xE0); [to_props; lia|].
  destruct (N.eqb_spec b0 0xED); to_props; lia.
Qed.

Lemma second4_spec b0 b1 :
  second4 b0 b1 = true -> 0xF0 <= b0 -> b0 <= 0xF4 ->
  0x80 <= b1 /\ b1 <= 0xBF /\ (b0 = 0xF0 -> 0x90 <= b1) /\ (b0 = 0xF4 -> b1 <= 0x8F).
Proof.
  unfold second4, is_cont. intros H L1 L2.
  destruct (N.eqb_spec b0 0xF0); [to_props; lia|].
  destruct (N.eqb_spec b0 0xF4); to_props; lia.
Qed.

Lemma decode_scalar_bounded k : forall bs,
  (List.length bs <= k)%nat -> forallb scalar (utf8_decode_ignore bs) = true.
Proof.
  induction k as [|k IH]; intros bs Hk.
  - destruct bs; [reflexivity|simpl in Hk; lia].
  - destruct bs as [|b0 t0]; [reflexivity|]. simpl in Hk.
    assert (I0 : forallb scalar (utf8_decode_ignore t0) = true) by (apply IH; lia).
    cbn [utf8_decode_ignore].
    destruct (b0 <? 0x80) eqn:E0.
    { cbn [forallb]. rewrite I0, andb_true_r. apply scalar_spec. to_props. lia. }
    destruct ((0xC2 <=? b0) && (b0 <=? 0xDF)) eqn:E2.
    { destruct t0 as [|b1 t1]; [reflexivity|]. simpl in Hk.
      destruct (is_cont b1) eqn:C1; [|exact I0].
      cbn [forallb]. rewrite (IH t1 ltac:(lia)), andb_true_r.
      apply scalar_spec. unfold is_cont in C1. to_props. lia. }
    destruct ((0xE0 <=? b0) && (b0 <=? 0xEF)) eqn:E3.
    { destruct t0 as [|b1 t1]; [reflexivity|]. simpl in Hk.
      destruct (second3 b0 b1) eqn:S3; [|exact I0].
      destruct t1 as [|b2 t2]; [reflexivity|]. simpl in Hk.
      destruct (is_cont b2) eqn:C2; [|apply IH; simpl; lia].
      cbn [forallb]. rewrite (IH t2 ltac:(lia)), andb_true_r.
      apply scalar_spec. unfold is_cont in C2. to_props.
      destruct (second3_spec b0 b1 S3) as (? & ? & ? & ?); [lia|lia|].
      destruct (N.eq_dec b0 0xE0); [lia|]. destruct (N.eq_dec b0 0xED); lia. }
    destruct ((0xF0 <=? b0) && (b0 <=? 0xF4)) eqn:E4; [|exact I0].
    destruct t0 as [|b1 t1]; [reflexivity|]. simpl in Hk.
    destruct (second4 b0 b1) eqn:S4; [|exact I0].
    destruct t1 as [|b2 t2]; [reflexivity|]. simpl in Hk.
    destruct (is_cont b2) eqn:C2; [|apply IH; simpl; lia].
    destruct t2 as [|b3 t3]; [reflexivity|]. simpl in Hk.
    destruct (is_cont b3) eqn:C3; [|apply IH; simpl; lia].
    cbn [forallb]. rewrite (IH t3 ltac:(lia)), andb_true_r.
    apply scalar_spec. unfold is_cont in C2, C3. to_props.
    destruct (second4_spec b0 b1 S4) as (? & ? & ? & ?); [lia|lia|].
    destruct (N.eq_dec b0 0xF0); [lia|]. destruct (N.eq_dec b0 0xF4); lia.
Qed.

Lemma universal_newlines_bounded k : forall s,
  (List.length s <= k)%nat -> forallb scalar s = true ->
  forallb scalar (universal_newlines s) = true.
Proof.
  induction k as [|k IH]; intros s Hk H.
  - destruct s; [reflexivity|simpl in Hk; lia].
  - destruct s as [|c t]; [reflexivity|]. simpl in Hk. cbn [forallb] in H.
    apply andb_true_iff in H as [Hc Ht]. cbn [universal_newlines].
    destruct (c =? CR).
    + cbn [forallb]. change (scalar LF) with true. cbn [andb].
      destruct t as [|c' t']; [reflexivity|]. simpl in Hk. cbn [forallb] in Ht.
      destruct (c' =? LF).
      * apply andb_true_iff in Ht as [_ Ht]. apply IH; [lia|exact Ht].
      * apply IH; [simpl; lia|exact Ht].
    + cbn [forallb]. rewrite Hc. apply IH; [lia|exact Ht].
Qed.

Lemma universal_newlines_no_cr k : forall s,
  (List.length s <= k)%nat -> no_cr (universal_newlines s) = true.
Proof.
  unfold no_cr. induction k as [|k IH]; intros s Hk.
  - destruct s; [reflexivity|simpl in Hk; lia].
  - destruct s as [|c t]; [reflexivity|]. simpl in Hk. cbn [universal_newlines].
    destruct (c =? CR) eqn:Ec.
    + cbn [forallb]. change (negb (LF =? CR)) with true. cbn [andb].
      destruct t as [|c' t']; [reflexivity|]. simpl in Hk.
      destruct (c' =? LF); apply IH; simpl; lia.
    + cbn [forallb]. rewrite Ec. apply IH. lia.
Qed.

(** Property X11.  Whatever bytes a source file holds, the text
    [txtexport_onefile.py] reads from it has Unicode scalar values only and
    no carriage return, so that written to the combined file and read again
    it is the same text. *)
Theorem text_read_reads_back (data : list byte) :
  let text := read_text_utf8_ignore data in
  forallb scalar text = true
  /\ no_cr text = true
  /\ read_text_utf8_ignore (text_file_bytes text) = text.
Proof.
  intro text.
  assert (Hs : forallb scalar text = true).
  { unfold text, read_text_utf8_ignore.
    apply (universal_newlines_bounded
             (List.length (utf8_decode_ignore (List.map to_N data)))); [lia|].
    apply (decode_scalar_bounded (List.length (List.map to_N data))). lia. }
  assert (Hc : no_cr text = true).
  { unfold text, read_text_utf8_ignore.
    apply (universal_newlines_no_cr
             (List.length (utf8_decode_ignore (List.map to_N data)))). lia. }
  split; [exact Hs|]. split; [exact Hc|].
  unfold read_text_utf8_ignore at 1. unfold text_file_bytes.
  pose proof (write_newlines_scalar text Hs) as Hw.
  rewrite (encode_bytes _ Hw), (decode_encode _ Hw).
  now apply universal_write_newlines.
Qed.

(** ** Something else where the scripts write *)

Lemma make_dirs_file cs : forall n r d,
  lookup n cs = Some (File r d) -> make_dirs n cs = inr true.
Proof.
  induction cs as [|c cs IH]; intros n r d H; simpl in H.
  - inversion H; subst. reflexivity.
  - destruct n as [r0 d0|es]; [discriminate|].
    destruct (find_entry c es) as [m|] eqn:E; [|discriminate].
    simpl. rewrite E. now rewrite (IH _ _ _ H).
Qed.

(** No exportable item is copied to a name that a directory bears. *)
Lemma exportable_not_written F es k items :
  forallb (item_exportable F es) items = true -> is_dir_entry k es = true ->
  written_to k (flat_map (item_copy F) items) = false.
Proof.
  intros Hex Hk. induction items as [|it items IH]; [reflexivity|].
  cbn [forallb] in Hex. apply andb_true_iff in Hex as [Hit Hex].
  cbn [flat_map]. unfold written_to in *. rewrite map_app, existsb_app, (IH Hex), orb_false_r.
  assert (Hone : forall p, item_path it = p ->
            item_exportable F es it
            = match node_at F p with
              | Some (File true _) => negb (is_dir_entry (basename p ++ lit ".txt") es)
              | _ => false
              end ->
            item_copy F it
            = match node_at F p with
              | Some (File true data) => [(basename p ++ lit ".txt", data)]
              | _ => []
              end ->
            existsb (str_eqb k) (List.map fst (item_copy F it)) = false).
  { intros p _ Ee Ec. rewrite Ec. rewrite Ee in Hit.
    destruct (node_at F p) as [[[|] data|esd]|]; try reflexivity.
    apply negb_true_iff in Hit. simpl. rewrite orb_false_r.
    destruct (str_eqb k (basename p ++ lit ".txt")) eqn:E; [|reflexivity].
    apply str_eqb_eq in E. subst k. congruence. }
  destruct it as [p|e p|p]; [apply (Hone p); reflexivity|apply (Hone p); reflexivity|reflexivity].
Qed.

Section Occupied.
Variable locale_decode : list byte -> option pystr.
Variable flushed : list byte -> list byte.

(** Property X13.  When a regular file stands where the output directory is to
    be, [os.makedirs] raises [FileExistsError]: both scripts end there, with
    the tree untouched, the manifest unread and nothing printed. *)
Theorem output_dir_occupied (fs0 : node) (r : bool) (d : list byte) :
  lookup fs0 output_components = Some (File r d) ->
  txtexport locale_decode fs0 = (mkState fs0 [] [], Raise FileExistsError)
  /\ txtexport_onefile locale_decode flushed fs0 = (mkState fs0 [] [], Raise FileExistsError).
Proof.
  intro H. pose proof (make_dirs_file _ _ _ _ H) as Hm. split.
  - unfold txtexport, txtexport_main. unfold bind at 1.
    cbv [makedirs bind get fs raise]. now rewrite resolve_output_dir, Hm.
  - unfold txtexport_onefile, txtexport_onefile_main. rewrite dirname_output_file.
    unfold bind at 1. cbv [makedirs bind get fs raise].
    now rewrite resolve_output_dir, Hm.
Qed.

(** Property X14.  A directory where an output file is to be written:
    [txtexport_onefile.py] fails to open the combined file, with
    [PermissionError], before any entry is looked at; [txtexport.py] copies,
    prints and records every file and then fails to open the index, with
    neither the index written nor the closing line printed. *)
Theorem output_file_occupied (fs0 F0 : node) (entries : list pystr) :
  well_formed fs0 = true ->
  make_dirs fs0 output_components = inl F0 ->
  manifest_entries locale_decode F0 = Some entries ->
  (isdir F0 output_file = true ->
   txtexport_onefile locale_decode flushed fs0 = (mkState F0 [] [], Raise PermissionError))
  /\ (forallb outside entries = true ->
      let items := flat_map (resolved_files F0) entries in
      let es := output_entries F0 in
      forallb (item_exportable F0 es) items = true ->
      is_dir_entry index_name es = true ->
      txtexport locale_decode fs0
      = (mkState (set_entries F0 output_components
                    (put_files (flat_map (item_copy F0) items) es))
           (List.map item_line items) (flat_map item_records items),
         Raise PermissionError)).
Proof.
  intros Hw Hm He. split.
  - intro Hd. unfold txtexport_onefile, txtexport_onefile_main.
    rewrite dirname_output_file. unfold bind at 1. rewrite (makedirs_ok _ _ _ _ Hm).
    unfold bind at 1.
    rewrite (read_file_paths_entries locale_decode (mkState F0 [] []) entries He).
    unfold bind at 1, set_locals. cbn [fs stdout locals]. unfold bind at 1.
    now rewrite (store_on_dir output_file [] (mkState F0 (@nil pystr) (@nil N)) Hd).
  - intros Ho items es Hex Hidx.
    pose proof (lookup_output_entries _ _ Hm) as HF.
    assert (HW0 : well_formed F0 = true)
      by apply (make_dirs_well_formed _ _ _ Hw valid_output_components Hm).
    rewrite (export_loop_start locale_decode _ _ _ Hw Hm He Ho). fold items. fold es.
    unfold bind.
    rewrite (copy_items_through F0 _ HF items es [] [] []
               (resolved_items_fit F0 HW0 entries Ho) Hex).
    cbn [app]. rewrite (write_index_framed F0 _ _ _ _ HF). fold index_name.
    unfold is_dir_entry at 1.
    rewrite (find_put_files_other _ _ _ (exportable_not_written F0 es index_name items Hex Hidx)).
    fold (is_dir_entry index_name es). now rewrite Hidx.
Qed.

End Occupied.

(** ** What a walk of the base directory exports *)

Lemma steps_snoc {L A} (g : A -> M L unit) x s s1 :
  steps g s s1 -> steps g s (fst (g x s1)).
Proof.
  intro H. induction H as [s|s y s' _ IH].
  - apply steps_next with (x := x). apply steps_refl.
  - now apply steps_next with (x := y).
Qed.

(** The state a loop that goes through hands to the body for one of its
    elements keeps what every turn before it keeps. *)
Lemma for_each_in_inv {L A} (P : state L -> Prop) (Q : A -> Prop) (g : A -> M L unit) x :
  (forall y s, Q y -> P s -> P (fst (g y s))) ->
  forall l s s', Forall Q l -> P s -> for_each l g s = (s', Ok tt) -> In x l ->
  exists s1 s2, P s1 /\ g x s1 = (s2, Ok tt) /\ steps g s2 s'.
Proof.
  intros Hg l. induction l as [|y l IH]; intros s s' Hl Hs H Hi; [contradiction|].
  inversion Hl as [|? ? Hy Hl']; subst.
  simpl in H. unfold bind in H. destruct (g y s) as [sy [[]|e]] eqn:Ey; [|discriminate].
  destruct Hi as [->|Hi].
  - exists s, sy. split; [exact Hs|]. split; [exact Ey|].
    pose proof (for_each_steps g l sy) as Hst. now rewrite H in Hst.
  - apply (IH sy s' Hl'); auto. pose proof (Hg y s Hy Hs) as X. now rewrite Ey in X.
Qed.

Lemma join_name_ends top cs name :
  resolve top = Some cs -> valid_name name = true -> ends_with_sep (join top name) = false.
Proof.
  intros Hr Hn. apply resolve_on_volume in Hr as (rest & Hv & _).
  pose proof (valid_name_plain _ Hn) as Hp.
  destruct (join_on_volume _ _ _ Hv Hp) as [-> _].
  rewrite app_assoc, ends_with_sep_app; [now apply plain_ends|].
  destruct name; [discriminate|discriminate].
Qed.

Lemma node_at_joined n top cs name r d :
  resolve top = Some cs -> valid_name name = true ->
  lookup n (cs ++ [name]) = Some (File r d) ->
  node_at n (join top name) = Some (File r d).
Proof.
  intros Hr Hn Hl. unfold node_at.
  now rewrite (resolve_join_name _ _ _ Hr Hn), Hl, (join_name_ends _ _ _ Hr Hn).
Qed.

Section WalkVisitsInv.
Context {L : Type}.
Variable inner : pystr -> M L unit.
Variable P : state L -> Prop.
Variable Seen : list pystr -> state L -> Prop.
Hypothesis inner_grown : forall p s, grown (fs s) (fs (fst (inner p s))).
Hypothesis P_well_formed : forall s, P s -> well_formed (fs s) = true.
Hypothesis P_inner : forall root c name s,
  resolve root = Some c -> valid_name name = true -> P s ->
  P (fst (inner (join root name) s)).
Hypothesis Seen_keeps : forall T p s, Seen T s -> Seen T (fst (inner p s)).
Hypothesis Seen_made : forall top cs name s s',
  resolve top = Some cs -> valid_name name = true -> P s ->
  inner (join top name) s = (s', Ok tt) -> Seen (cs ++ [name]) s'.

(** A walk that goes through has run the body on every file that was below
    its top, in a state that keeps what the walk keeps. *)
Lemma walk_visits_inv : forall fuel top cs rest name s s',
  resolve top = Some cs -> forallb valid_name (rest ++ [name]) = true ->
  file_at (fs s) (cs ++ rest ++ [name]) = true -> (List.length rest < fuel)%nat ->
  P s -> walk fuel (walk_body inner) top s = (s', Ok tt) ->
  Seen (cs ++ rest ++ [name]) s'.
Proof.
  induction fuel as [|k IH]; intros top cs rest name s s' Hr Hv Hf Hlen HP Hrun; [lia|].
  destruct (file_at_below _ _ _ Hf) as (es & Hl & Hb);
    [destruct rest; discriminate|].
  cbn [walk] in Hrun. unfold bind at 1, get in Hrun. cbv beta iota in Hrun.
  assert (Hsc : scandir (fs s) top = Some (listing es))
    by (unfold scandir, node_at; now rewrite Hr, Hl).
  rewrite Hsc in Hrun. unfold listing in Hrun, Hsc. unfold bind in Hrun.
  destruct (listed_names_valid _ _ _ _ _ (P_well_formed _ HP) Hr Hsc) as [Hvd Hvn].
  destruct (walk_body inner top _ s) as [sa [[]|e]] eqn:Eb; [|discriminate].
  assert (HPa : P sa).
  { assert (X : sa = fst (walk_body inner top
              (List.map fst (filter (fun e => negb (is_dir_node (snd e))) es)) s))
      by now rewrite Eb.
    rewrite X. unfold walk_body.
    apply (for_each_keeps P (fun k => valid_name k = true)); auto.
    intros x s0 Hx Hs0. now apply (P_inner top cs). }
  assert (Hwalk : forall T x s0, Seen T s0 ->
            Seen T (fst (walk k (walk_body inner) (join top x) s0))).
  { intros T x s0. apply (walk_keeps inner (Seen T)). intros p s3. apply Seen_keeps. }
  destruct rest as [|d rest].
  - cbn [app] in *. simpl in Hv. rewrite andb_true_r in Hv.
    unfold file_at in Hb. cbn [lookup] in Hb.
    destruct (find_entry name es) as [[r0 d0|es1]|] eqn:Ef; try discriminate.
    assert (Hin : In name (List.map fst (filter (fun e => negb (is_dir_node (snd e))) es))).
    { apply in_map_iff. exists (name, File r0 d0). split; [reflexivity|].
      apply filter_In. split; [now apply find_entry_key|reflexivity]. }
    unfold walk_body in Eb.
    destruct (for_each_in_inv P (fun k => valid_name k = true)
                (fun file => inner (join top file)) name
                (fun y s0 Hy Hs0 => P_inner top cs y s0 Hr Hy Hs0)
                _ _ _ Hvn HP Eb Hin) as (s1 & s2 & HP1 & H2 & H3).
    pose proof (Seen_made _ _ _ _ _ Hr Hv HP1 H2) as Hseen.
    assert (Hsa : Seen (cs ++ [name]) sa).
    { revert Hseen. apply steps_keeps with (g := fun file => inner (join top file)); auto. }
    assert (Hs' : s' = fst (for_each (List.map fst (filter (fun e => is_dir_node (snd e)) es))
                              (fun dirname => walk k (walk_body inner) (join top dirname)) sa))
      by now rewrite Hrun.
    rewrite Hs'. apply (for_each_keeps (Seen (cs ++ [name])) (fun _ => True)); auto.
    apply Forall_forall. auto.
  - simpl in Hv. apply andb_true_iff in Hv as [Hd Hv].
    change (cs ++ (d :: rest) ++ [name]) with (cs ++ [d] ++ (rest ++ [name])) in *.
    rewrite app_assoc in Hf |- *.
    assert (Hdir : exists esd, find_entry d es = Some (Dir esd)).
    { cbn [app] in Hb. unfold file_at in Hb. cbn [lookup] in Hb.
      destruct (find_entry d es) as [[r0 d0|esd]|]; [|eauto|discriminate].
      destruct rest; discriminate. }
    destruct Hdir as [esd Hfd].
    assert (Hin : In d (List.map fst (filter (fun e => is_dir_node (snd e)) es))).
    { apply in_map_iff. exists (d, Dir esd). split; [reflexivity|].
      apply filter_In. split; [now apply find_entry_key|reflexivity]. }
    set (T := (cs ++ [d]) ++ rest ++ [name]) in *.
    assert (Hfa : file_at (fs sa) T = true).
    { assert (X : sa = fst (walk_body inner top
                (List.map fst (filter (fun e => negb (is_dir_node (snd e))) es)) s))
        by now rewrite Eb.
      rewrite X. unfold walk_body.
      apply (for_each_keeps (fun s => file_at (fs s) T = true) (fun _ => True)); auto.
      - intros x s0 _. apply (file_at_keeps inner inner_grown).
      - apply Forall_forall. auto. }
    destruct (for_each_in_inv (fun s0 => P s0 /\ file_at (fs s0) T = true)
                (fun k => valid_name k = true)
                (fun dirname => walk k (walk_body inner) (join top dirname)) d)
      with (l := List.map fst (filter (fun e => is_dir_node (snd e)) es))
           (s := sa) (s' := s') as (s1 & s2 & [HP1 Hf1] & H2 & H3); auto.
    { intros y s0 Hy [Hs0 Hf0]. split.
      - apply (walk_inv inner P P_well_formed P_inner k (join top y) (cs ++ [y])); auto.
        now apply resolve_join_name.
      - apply (walk_keeps inner (fun s => file_at (fs s) T = true)); auto.
        intros p s3. apply (file_at_keeps inner inner_grown). }
    assert (Hseen : Seen T s2).
    { apply (IH (join top d) (cs ++ [d]) rest name s1 s2); auto.
      - now apply resolve_join_name.
      - simpl in Hlen. lia. }
    revert Hseen.
    apply (steps_keeps (Seen T)
             (fun dirname => walk k (walk_body inner) (join top dirname))); auto.
Qed.

(** The same for [os.walk] on the base directory. *)
Lemma os_walk_base_inv s s' rest :
  rest <> [] -> file_at (fs s) (base_components ++ rest) = true -> P s ->
  os_walk (walk_body inner) (join base_dir []) s = (s', Ok tt) ->
  Seen (base_components ++ rest) s'.
Proof.
  intros Hne Hf HP Hrun. destruct (exists_last Hne) as (r & name & ->).
  assert (Hl : exists x d, lookup (fs s) (base_components ++ r ++ [name]) = Some (File x d)).
  { unfold file_at in Hf. destruct (lookup (fs s) _) as [[x d|es]|]; try discriminate. eauto. }
  destruct Hl as (x & d & Hl).
  destruct (well_formed_lookup _ _ _ (P_well_formed _ HP) Hl) as [_ Hv].
  pose proof (height_lookup _ _ _ Hl) as Hh. rewrite !length_app in Hh.
  rewrite forallb_app in Hv. apply andb_true_iff in Hv as [_ Hv].
  unfold os_walk, bind, get in Hrun.
  apply (walk_visits_inv (S (height (fs s))) (join base_dir []) base_components r name s s');
    auto; try apply join_base_dir_empty. simpl in Hh. lia.
Qed.

End WalkVisitsInv.

(** *** [txtexport.py] *)

Section BaseCopied.
Variable F : node.
Variable es0 : list (pystr * node).
Hypothesis HF : lookup F output_components = Some (Dir es0).
Hypothesis HW : well_formed F = true.
Variable s0 : state (list pystr).

(** The copy of the file at [T] has been made: at a state of the walk the
    destination held the bytes the file has in [F]. *)
Let made (T : list pystr) (s' : state (list pystr)) : Prop :=
  forall r d, lookup F T = Some (File r d) -> off_output T = true ->
  exists s1 r1,
    steps copy_walked s0 s1 /\ steps copy_walked s1 s'
    /\ lookup (fs s1) (output_components ++ [last T [] ++ lit ".txt"]) = Some (File r1 d).

Let walking (s : state (list pystr)) : Prop :=
  framed_well F s /\ steps copy_walked s0 s.

Lemma made_keeps T p s : made T s -> made T (fst (copy_walked p s)).
Proof.
  intros H r d Hl Ho. destruct (H r d Hl Ho) as (s1 & r1 & H1 & H2 & H3).
  exists s1, r1. split; [exact H1|]. split; [now apply steps_snoc|exact H3].
Qed.

Lemma made_at_visit top cs name s s' :
  resolve top = Some cs -> valid_name name = true -> walking s ->
  copy_walked (join top name) s = (s', Ok tt) -> made (cs ++ [name]) s'.
Proof.
  intros Hr Hn [[Hw [es Hs]] Hst] Hrun r d Hl Ho.
  pose proof (resolve_join_name _ _ _ Hr Hn) as Hj.
  pose proof (valid_name_plain _ Hn) as Hp.
  assert (Hb : basename (join top name) = name).
  { apply resolve_on_volume in Hr as (rest & Hv & _). now apply (basename_join _ _ _ Hv). }
  assert (Hc : copyable (join top name)).
  { exists (cs ++ [name]). rewrite Hb. auto. }
  exists s', (match find_entry (name ++ lit ".txt") es with
              | Some (File x _) => x
              | _ => true
              end).
  split; [|split; [apply steps_refl|]].
  - replace s' with (fst (copy_walked (join top name) s)) by now rewrite Hrun.
    now apply steps_snoc.
  - rewrite copy_walked_good in Hrun by congruence.
    destruct s as [n o l]. cbn [fs] in Hs. subst n.
    rewrite (copy_one_framed F es0 HF _ _ es o l Hc) in Hrun.
    rewrite (node_at_joined F top cs name r d Hr Hn Hl), Hb in Hrun.
    destruct r; [|discriminate].
    destruct (is_dir_entry (name ++ lit ".txt") es); [discriminate|].
    inversion Hrun; subst s'. cbn [fs]. rewrite last_last.
    rewrite lookup_app, (lookup_set_entries F es0 HF). cbn [lookup].
    unfold put_file. now rewrite find_set_entry_same.
Qed.

Lemma walking_keeps root c name s :
  resolve root = Some c -> valid_name name = true -> walking s ->
  walking (fst (copy_walked (join root name) s)).
Proof.
  intros Hr Hn [H1 H2]. split.
  - now apply (copy_walked_keeps F es0 HF root c name).
  - now apply steps_snoc.
Qed.

Lemma copy_entry_base_made e s' rest r d :
  all_slashes e = true -> rest <> [] -> fs s0 = F ->
  lookup F (base_components ++ rest) = Some (File r d) ->
  off_output (base_components ++ rest) = true ->
  copy_entry e s0 = (s', Ok tt) ->
  exists s1 r1,
    steps copy_walked s0 s1 /\ steps copy_walked s1 s'
    /\ lookup (fs s1) (output_components ++ [last rest [] ++ lit ".txt"]) = Some (File r1 d).
Proof.
  intros He Hne Hs0 Hl Ho Hrun.
  assert (Hf : file_at (fs s0) (base_components ++ rest) = true)
    by (unfold file_at; now rewrite Hs0, Hl).
  unfold copy_entry in Hrun.
  rewrite (lstrip_all_slashes _ He) in Hrun. unfold bind at 1, get in Hrun.
  cbv beta iota in Hrun.
  rewrite isdir_base_dir, (base_is_dir _ _ Hne Hf) in Hrun.
  rewrite copy_files_body in Hrun.
  assert (HP : walking s0).
  { split; [|apply steps_refl]. split; [now rewrite Hs0|].
    exists es0. rewrite Hs0. symmetry. apply (set_entries_same F es0 HF). }
  pose proof (os_walk_base_inv copy_walked walking made copy_walked_grown
                (fun s H => proj1 (proj1 H)) walking_keeps made_keeps made_at_visit
                s0 s' rest Hne Hf HP Hrun) as Hm.
  destruct (Hm r d Hl Ho) as (s1 & r1 & H1 & H2 & H3).
  exists s1, r1. rewrite (last_below _ _ Hne) in H3. auto.
Qed.

End BaseCopied.

(** *** [txtexport_onefile.py] *)

Section BaseCombined.
Variable flushed : list byte -> list byte.
Variable F : node.
Variable r0 : bool.
Variable d0 : list byte.
Hypothesis HF : lookup F combined_components = Some (File r0 d0).
Hypothesis HW : well_formed F = true.

(** The block of the file at [T] has been written, with the text of the
    bytes the file has in [F]. *)
Let written (T : list pystr) (s' : state pystr) : Prop :=
  forall r d, lookup F T = Some (File r d) -> T <> combined_components ->
  exists before after,
    locals s' = before ++ file_block (label_of T) (read_text_utf8_ignore d) ++ after.

Lemma written_keeps T p s : written T s -> written T (fst (combine_walked flushed p s)).
Proof.
  intros H r d Hl Hne. destruct (H r d Hl Hne) as (a & b & E).
  unfold combine_walked.
  destruct (relpath p base_dir) as [rel|]; [|now exists a, b].
  destruct (write_block_grown flushed (replace_backslash rel) p s) as [_ [x Hx]].
  exists a, (b ++ x). rewrite Hx, E, <- !app_assoc. reflexivity.
Qed.

Lemma written_at_visit top cs name s s' :
  resolve top = Some cs -> valid_name name = true -> combined_open F s ->
  combine_walked flushed (join top name) s = (s', Ok tt) -> written (cs ++ [name]) s'.
Proof.
  intros Hr Hn [dd Hs] Hrun r d Hl Hne.
  pose proof (resolve_join_name _ _ _ Hr Hn) as Hj.
  rewrite combine_walked_good in Hrun by congruence.
  assert (Hlab : normalized_relative_path (join top name) = label_of (cs ++ [name])).
  { unfold normalized_relative_path, relpath, label_of.
    now rewrite resolve_base_dir, Hj. }
  rewrite Hlab in Hrun.
  rewrite (write_block_framed flushed F r0 d0 HF s dd _ _ Hs) in Hrun.
  unfold text_read in Hrun.
  rewrite (node_at_set_data_other F r0 d0 (join top name) r d (cs ++ [name]) _ HF
             (node_at_joined F top cs name r d Hr Hn Hl) Hj Hne) in Hrun.
  destruct r; [|discriminate]. cbv zeta in Hrun. inversion Hrun; subst s'.
  cbn [locals]. exists (locals s), []. unfold file_block.
  now rewrite app_nil_r, <- !app_assoc.
Qed.

Lemma combined_open_well_formed s : combined_open F s -> well_formed (fs s) = true.
Proof.
  intros [d ->].
  apply (place_well_formed _ _ _ _ HW valid_combined_components
           (eq_refl : well_formed (File r0 d) = true) (set_data_place F r0 d0 HF d)).
Qed.

Lemma combine_entry_base_written e s s' rest r d :
  all_slashes e = true -> rest <> [] -> fs s = F ->
  lookup F (base_components ++ rest) = Some (File r d) ->
  base_components ++ rest <> combined_components ->
  combine_entry flushed e s = (s', Ok tt) ->
  exists before after,
    locals s' = before ++ file_block (sep_join SLASH rest) (read_text_utf8_ignore d) ++ after.
Proof.
  intros He Hne Hs0 Hl Hc Hrun.
  assert (Hf : file_at (fs s) (base_components ++ rest) = true)
    by (unfold file_at; now rewrite Hs0, Hl).
  unfold combine_entry in Hrun.
  rewrite (lstrip_all_slashes _ He) in Hrun. unfold bind at 1, get in Hrun.
  cbv beta iota in Hrun.
  rewrite isdir_base_dir, (base_is_dir _ _ Hne Hf) in Hrun.
  rewrite combine_files_body in Hrun.
  assert (HP : combined_open F s).
  { exists d0. rewrite Hs0. symmetry. apply (set_data_same F r0 d0 HF). }
  pose proof (os_walk_base_inv (combine_walked flushed) (combined_open F) written
                (combine_walked_grown flushed) combined_open_well_formed
                (fun root c name s1 _ _ H => combine_walked_keeps flushed F r0 d0 HF _ s1 H)
                written_keeps written_at_visit
                s s' rest Hne Hf HP Hrun) as Hm.
  destruct (Hm r d Hl Hc) as (a & b & E). exists a, b.
  rewrite label_of_below in E; [exact E| |exact Hne].
  apply (well_formed_lookup _ _ _ HW Hl).
Qed.

End BaseCombined.

Section SlashEntry.
Variable flushed : list byte -> list byte.

(** Claim C9.  A manifest line that is empty or slashes only resolves to the
    base directory itself; when the entry goes through, every file that was
    below the base directory, the output directory included, is exported:
    [txtexport.py] has recorded its path and the output directory holds a
    file under its name, [txtexport_onefile.py] has written a block under its
    label.  For a file that is not in the output directory the copy is that
    of its bytes: at a state of the walk, from which the rest of the walk
    leads to the last state, the destination holds the bytes of the file.
    For a file other than the combined file the block holds its text: the
    bytes of the file decoded as UTF-8, undecodable bytes dropped. *)
Theorem slash_entry_exports_base (e : pystr) :
  all_slashes e = true ->
  let source_path := join base_dir (lstrip_slash e) in
  resolve source_path = Some base_components
  /\ (forall n, isdir n source_path = isdir n base_dir)
  /\ (forall (s s' : state (list pystr)) rest,
        well_formed (fs s) = true -> rest <> [] ->
        file_at (fs s) (base_components ++ rest) = true ->
        copy_entry e s = (s', Ok tt) ->
        In (SLASH :: sep_join SLASH rest) (locals s')
        /\ file_at (fs s') (output_components ++ [last rest [] ++ lit ".txt"]) = true)
  /\ (forall (s s' : state pystr) rest,
        well_formed (fs s) = true -> rest <> [] ->
        file_at (fs s) (base_components ++ rest) = true ->
        combine_entry flushed e s = (s', Ok tt) ->
        exists before text after,
          locals s' = before ++ file_block (sep_join SLASH rest) text ++ after)
  /\ (forall (s s' : state (list pystr)) rest r data,
        well_formed (fs s) = true -> rest <> [] ->
        lookup (fs s) (base_components ++ rest) = Some (File r data) ->
        off_output (base_components ++ rest) = true ->
        isdir (fs s) output_dir = true ->
        copy_entry e s = (s', Ok tt) ->
        exists s1 r1,
          steps copy_walked s s1 /\ steps copy_walked s1 s'
          /\ lookup (fs s1) (output_components ++ [last rest [] ++ lit ".txt"])
             = Some (File r1 data))
  /\ (forall (s s' : state pystr) rest r data,
        well_formed (fs s) = true -> rest <> [] ->
        lookup (fs s) (base_components ++ rest) = Some (File r data) ->
        base_components ++ rest <> combined_components ->
        isfile (fs s) output_file = true ->
        combine_entry flushed e s = (s', Ok tt) ->
        exists before after,
          locals s' = before ++ file_block (sep_join SLASH rest)
                                  (read_text_utf8_ignore data) ++ after).
Proof.
  intros He source_path. unfold source_path. rewrite (lstrip_all_slashes _ He).
  split; [apply join_base_dir_empty|]. split; [apply isdir_base_dir|].
  assert (Hlab : forall n rest, well_formed n = true -> rest <> [] ->
            file_at n (base_components ++ rest) = true ->
            label_of (base_components ++ rest) = sep_join SLASH rest).
  { intros n rest Hw Hne Hf. apply label_of_below; [|exact Hne].
    unfold file_at in Hf.
    destruct (lookup n (base_components ++ rest)) as [[x d|es]|] eqn:Hl; try discriminate.
    apply (well_formed_lookup _ _ _ Hw Hl). }
  split; [|split; [|split]].
  - intros s s' rest Hw Hne Hf Hrun.
    destruct (copy_entry_base e s s' rest He Hw Hne Hf Hrun) as [H1 H2].
    rewrite (Hlab _ _ Hw Hne Hf) in H1. rewrite (last_below _ _ Hne) in H2. now split.
  - intros s s' rest Hw Hne Hf Hrun.
    destruct (combine_entry_base flushed e s s' rest He Hw Hne Hf Hrun)
      as (a & text & b & H).
    rewrite (Hlab _ _ Hw Hne Hf) in H. eauto.
  - intros s s' rest r data Hw Hne Hl Ho Hd Hrun.
    assert (Hout : exists es0, lookup (fs s) output_components = Some (Dir es0)).
    { unfold isdir, node_at in Hd. rewrite resolve_output_dir in Hd.
      destruct (lookup (fs s) output_components) as [[x d|es0]|]; try discriminate.
      eauto. }
    destruct Hout as [es0 Hout].
    apply (copy_entry_base_made (fs s) es0 Hout Hw s e s' rest r data); auto.
  - intros s s' rest r data Hw Hne Hl Hc Hf Hrun.
    assert (Hcomb : exists r0 d0, lookup (fs s) combined_components = Some (File r0 d0)).
    { unfold isfile in Hf.
      destruct (node_at (fs s) output_file) as [[r0 d0|es]|] eqn:E; try discriminate.
      destruct (node_at_file _ _ _ _ E) as (cs & Hr & Hl' & _).
      destruct (resolve_combined) as [Hrc _]. rewrite Hrc in Hr. inversion Hr; subst cs.
      eauto. }
    destruct Hcomb as (r0 & d0 & Hcomb).
    apply (combine_entry_base_written flushed (fs s) r0 d0 Hcomb Hw e s s' rest r data);
      auto.
Qed.

End SlashEntry.

(** ** The further properties on the sample projects *)

(** The manifest [/dirA], [fileB.py]: two copies, three lines printed, two
    paths recorded and listed in the index, which ends without a line end. *)
Lemma export_run_through_example :
  let run := txtexport latin1 (project [lit "/dirA"; lit "fileB.py"] true) in
  snd run = Ok tt
  /\ stdout (fst run)
     = [copied_line (join (join base_dir (lit "dirA")) (lit "x.txt"));
        copied_line (join base_dir (lit "fileB.py"));
        lit "Exported processed files to: " ++ project_file_system_path]
  /\ locals (fst run) = [lit "/dirA/x.txt"; lit "fileB.py"]
  /\ exists r, node_at (fs (fst run)) project_file_system_path
               = Some (File r (bytes_of (lit "**ULP 1.5 Project Files**" ++ [CR; LF; CR; LF]
                                         ++ lit "/dirA/x.txt" ++ [CR; LF]
                                         ++ lit "fileB.py"))).
Proof.
  intro run. set (ab := [lit "/dirA"; lit "fileB.py"]) in *.
  assert (A1 : well_formed (project ab true) = true) by by_running.
  assert (A2 : make_dirs (project ab true) output_components = inl (project_made ab true))
    by by_running.
  assert (A3 : manifest_entries latin1 (project_made ab true) = Some ab) by by_running.
  assert (A4 : forallb outside ab = true) by by_running.
  assert (A5 : forallb (item_exportable (project_made ab true)
                          (output_entries (project_made ab true)))
                 (flat_map (resolved_files (project_made ab true)) ab) = true)
    by by_running.
  assert (A6 : is_dir_entry index_name (output_entries (project_made ab true)) = false)
    by by_running.
  destruct (export_run_through latin1 _ _ _ A1 A2 A3 A4 A5 A6) as [E [r Hr]].
  split; [|split; [|split]].
  - unfold run. rewrite E. reflexivity.
  - unfold run. rewrite E. by_running.
  - unfold run. rewrite E. by_running.
  - exists r. unfold run. rewrite Hr. by_running.
Defined.

(** The manifest [/dirA], [/fileB.py]: the file of [dirA] is recorded by its
    path from the base directory, the entry [/fileB.py] as the line stands,
    and the index holds the two after the header. *)
Lemma recorded_paths_example :
  let fs0 := project [lit "/dirA"; lit "/fileB.py"] true in
  let s := mkState (project_made [lit "/dirA"; lit "/fileB.py"] true) [] [] in
  let run := txtexport latin1 fs0 in
  locals (fst (copy_files (join base_dir (lit "dirA")) [lit "x.txt"] s)) = [lit "/dirA/x.txt"]
  /\ locals (fst (copy_entry (lit "/fileB.py") s)) = [lit "/fileB.py"]
  /\ locals (fst run) = [lit "/dirA/x.txt"; lit "/fileB.py"]
  /\ exists r, node_at (fs (fst run)) project_file_system_path
               = Some (File r (bytes_of (lit "**ULP 1.5 Project Files**" ++ [CR; LF; CR; LF]
                                         ++ lit "/dirA/x.txt" ++ [CR; LF]
                                         ++ lit "/fileB.py"))).
Proof.
  intros fs0 s run. set (ab := [lit "/dirA"; lit "/fileB.py"]) in *.
  destruct (recorded_paths latin1 fs0 (project_made ab true) ab) as (H1 & H2 & H3).
  split; [|split].
  - assert (A1 : resolve (join base_dir (lit "dirA")) = Some (base_components ++ [lit "dirA"]))
      by by_running.
    assert (A2 : forallb valid_name ((base_components ++ [lit "dirA"]) ++ [lit "x.txt"]) = true)
      by by_running.
    destruct (H1 s _ (lit "x.txt") _ A1 A2) as (E & _). rewrite E. by_running.
  - assert (A1 : isdir (fs s) (join base_dir (lstrip_slash (lit "/fileB.py"))) = false)
      by by_running.
    assert (A2 : isfile (fs s) (join base_dir (lstrip_slash (lit "/fileB.py"))) = true)
      by by_running.
    destruct (H2 s (lit "/fileB.py") A1 A2) as [E _]. rewrite E. reflexivity.
  - assert (A1 : well_formed fs0 = true) by by_running.
    assert (A2 : make_dirs fs0 output_components = inl (project_made ab true)) by by_running.
    assert (A3 : manifest_entries latin1 (project_made ab true) = Some ab) by by_running.
    assert (A4 : forallb outside ab = true) by by_running.
    assert (A5 : forallb (item_exportable (project_made ab true)
                            (output_entries (project_made ab true)))
                   (flat_map (resolved_files (project_made ab true)) ab) = true)
      by by_running.
    assert (A6 : is_dir_entry index_name (output_entries (project_made ab true)) = false)
      by by_running.
    destruct (H3 A1 A2 A3 A4 A5 A6) as (_ & R2 & r & R3).
    split; [unfold run; rewrite R2; by_running|].
    exists r. unfold run. rewrite R3, R2. by_running.
Defined.

(** Both [dirA] and [dirB] hold an [x.txt]: the copy [x.txt.txt] is that of
    [dirB], walked last.  Names are compared without regard to the case of
    the letters of ASCII. *)
Lemma last_copy_stays_example :
  let run := txtexport latin1 (twins_project [lit "/dirA"; lit "/dirB"]) in
  exists r, node_at (fs (fst run))
              (join output_dir
                 (basename (join (join base_dir (lit "dirB")) (lit "x.txt")) ++ lit ".txt"))
            = Some (File r (bytes_of (lit "world"))).
Proof.
  intro run. set (ab := [lit "/dirA"; lit "/dirB"]) in *.
  set (same := fun a b : pystr => str_eqb (normcase a) (normcase b)).
  assert (A0 : forall a, same a a = true) by (intro a; apply str_eqb_refl).
  assert (A1 : well_formed (twins_project ab) = true) by by_running.
  assert (A2 : make_dirs (twins_project ab) output_components = inl (twins_project_made ab))
    by by_running.
  assert (A3 : manifest_entries latin1 (twins_project_made ab) = Some ab) by by_running.
  assert (A4 : forallb outside ab = true) by by_running.
  assert (A5 : forallb (item_exportable (twins_project_made ab)
                          (output_entries (twins_project_made ab)))
                 (flat_map (resolved_files (twins_project_made ab)) ab) = true)
    by by_running.
  assert (A6 : is_dir_entry index_name (output_entries (twins_project_made ab)) = false)
    by by_running.
  set (first := Walked (join (join base_dir (lit "dirA")) (lit "x.txt"))).
  set (second := Walked (join (join base_dir (lit "dirB")) (lit "x.txt"))).
  assert (B1 : flat_map (resolved_files (twins_project_made ab)) ab
               = [first] ++ second :: []) by by_running.
  assert (B2 : node_at (twins_project_made ab) (item_path second)
               = Some (File true (bytes_of (lit "world")))) by by_running.
  assert (B3 : existsb (same (basename (item_path second) ++ lit ".txt"))
                 (List.map fst (flat_map (item_copy (twins_project_made ab)) [])) = false)
    by reflexivity.
  assert (B4 : same (basename (item_path second) ++ lit ".txt") index_name = false)
    by by_running.
  exact (last_copy_stays latin1 same A0 _ _ _ A1 A2 A3 A4 A5 A6 [first] second [] _
           B1 B2 B3 B4).
Defined.

(** [fileB.py] cannot be read: its path is recorded all the same, the file of
    [dirA] before it is copied, and no index is written. *)
Lemma unreadable_source_stops_export_example :
  let run := txtexport latin1 (project [lit "/dirA"; lit "fileB.py"] false) in
  snd run = Raise PermissionError
  /\ stdout (fst run) = [copied_line (join (join base_dir (lit "dirA")) (lit "x.txt"))]
  /\ locals (fst run) = [lit "/dirA/x.txt"; lit "fileB.py"]
  /\ node_at (fs (fst run)) project_file_system_path = None.
Proof.
  intro run. set (ab := [lit "/dirA"; lit "fileB.py"]) in *.
  assert (A1 : well_formed (project ab false) = true) by by_running.
  assert (A2 : make_dirs (project ab false) output_components = inl (project_made ab false))
    by by_running.
  assert (A3 : manifest_entries latin1 (project_made ab false) = Some ab) by by_running.
  assert (A4 : forallb outside ab = true) by by_running.
  set (first := Walked (join (join base_dir (lit "dirA")) (lit "x.txt"))).
  set (second := Direct (lit "fileB.py") (join base_dir (lit "fileB.py"))).
  assert (B1 : flat_map (resolved_files (project_made ab false)) ab
               = [first] ++ second :: []) by by_running.
  assert (B2 : forallb (item_exportable (project_made ab false)
                          (output_entries (project_made ab false))) [first] = true)
    by by_running.
  assert (B3 : node_at (project_made ab false) (item_path second)
               = Some (File false (bytes_of (lit "print(1)")))) by by_running.
  pose proof (unreadable_source_stops_export latin1 _ _ _ A1 A2 A3 A4
                [first] second [] _ B1 B2 B3) as E.
  unfold run. rewrite E. repeat split; by_running.
Defined.

(** The source [fileB.py] is after either run what it was before. *)
Lemma nothing_written_off_output_example :
  let p := project [lit "/dirA"; lit "fileB.py"] true in
  let cs := base_components ++ [lit "fileB.py"] in
  lookup (fs (fst (txtexport latin1 p))) cs = Some (File true (bytes_of (lit "print(1)")))
  /\ lookup (fs (fst (txtexport_onefile latin1 unbuffered p))) cs
     = Some (File true (bytes_of (lit "print(1)"))).
Proof.
  intros p cs.
  assert (A1 : well_formed p = true) by by_running.
  assert (A2 : off_output cs = true) by by_running.
  destruct (nothing_written_off_output latin1 unbuffered p cs A1 A2) as [Ha Hb].
  rewrite Ha, Hb. split; by_running.
Defined.

(** The run that [fileB.py] ends: the combined file holds the start line that
    was written, and nothing is printed. *)
Lemma combined_file_holds_all_written_example :
  let run := txtexport_onefile latin1 unbuffered
               (project [lit "fileB.py"; lit "/dirA"] false) in
  exists r missing,
    node_at (fs (fst run)) output_file
    = Some (File r (text_file_bytes (locals (fst run))))
    /\ stdout (fst run)
       = List.map (fun p => lit "Path not found: " ++ p) missing
         ++ match snd run with
            | Ok _ => [lit "All files combined into: " ++ output_file]
            | Raise _ => []
            end.
Proof.
  intro run. set (ba := [lit "fileB.py"; lit "/dirA"]) in *.
  assert (A1 : well_formed (project ba false) = true) by by_running.
  assert (A2 : make_dirs (project ba false) output_components = inl (project_made ba false))
    by by_running.
  assert (A3 : manifest_entries latin1 (project_made ba false) = Some ba) by by_running.
  assert (A4 : isdir (project_made ba false) output_file = false) by by_running.
  exact (combined_file_holds_all_written latin1 unbuffered _ _ _ A1 A2 A3 A4).
Defined.

(** A manifest of two blanks and a line feed: the index is the header and
    the empty line after it. *)
Lemma blank_manifest_exports_nothing_example :
  let p := project [lit "  "] true in
  let made := project_made [lit "  "] true in
  txtexport latin1 p
  = (mkState (set_entries made output_components
                [(index_name,
                  File true (bytes_of (lit "**ULP 1.5 Project Files**"
                                       ++ [CR; LF; CR; LF])))])
       [lit "Exported processed files to: " ++ project_file_system_path] [], Ok tt)
  /\ txtexport_onefile latin1 unbuffered p
     = (mkState (opened made) [lit "All files combined into: " ++ output_file] [], Ok tt).
Proof.
  intros p made.
  assert (A1 : well_formed p = true) by by_running.
  assert (A2 : make_dirs p output_components = inl made) by by_running.
  assert (A3 : node_at made prompt_file = Some (File true (manifest_bytes [lit "  "])))
    by by_running.
  assert (A4 : latin1 (manifest_bytes [lit "  "]) = Some (lit "  " ++ [LF])) by by_running.
  assert (A5 : forallb isspace (universal_newlines (lit "  " ++ [LF])) = true) by by_running.
  assert (A6 : is_dir_entry index_name (output_entries made) = false) by by_running.
  assert (A7 : isdir made output_file = false) by by_running.
  destruct (blank_manifest_exports_nothing latin1 unbuffered p made _ _ A1 A2 A3 A4 A5)
    as [Ha Hb].
  split.
  - rewrite (Ha A6). by_running.
  - exact (Hb A7).
Defined.

(** The manifest [/dirA], [fileB.py] padded with blanks and empty lines. *)
Lemma manifest_entries_shape_example :
  let lines := [[]; lit "  /dirA"; lit "fileB.py "; []] in
  let s : state pystr := mkState (project lines true) [] [] in
  let entries := [lit "/dirA"; lit "fileB.py"] in
  read_file_paths latin1 s = (s, Ok entries)
  /\ forallb no_linebreak entries = true
  /\ starts_nonspace (hd [] entries) = true
  /\ ends_nonspace (last entries []) = true.
Proof.
  intros lines s entries.
  assert (R : read_file_paths latin1 s = (s, Ok entries)) by by_running.
  destruct (manifest_entries_shape latin1 s s entries R) as (_ & H1 & H2).
  assert (N : entries <> []) by discriminate.
  destruct (H2 N) as [H3 H4]. repeat split; assumption.
Defined.

(** The lines [\Windows] and [../Windows]. *)
Lemma entry_can_leave_base_example :
  resolve (join base_dir (lstrip_slash (BACKSLASH :: lit "Windows"))) = Some [lit "Windows"]
  /\ resolve (join base_dir (lstrip_slash (pardir ++ SLASH :: lit "Windows")))
     = Some (removelast base_components ++ [lit "Windows"]).
Proof.
  assert (A : valid_name (lit "Windows") = true) by by_running.
  exact (entry_can_leave_base (lit "Windows") A).
Defined.

(** A text with code points of one, two, three and four bytes and a line
    feed. *)
Lemma text_written_reads_back_example :
  let s := [104; 233; LF; 8364; 128512] in
  read_text_utf8_ignore (text_file_bytes s) = s.
Proof.
  intro s.
  assert (A1 : forallb scalar s = true) by by_running.
  assert (A2 : no_cr s = true) by by_running.
  exact (text_written_reads_back s A1 A2).
Defined.

(** The entry [/dirA]: [dirA/x.txt] is exported. *)
Lemma directory_entry_exports_all_example :
  let made := project_made [lit "/dirA"; lit "fileB.py"] true in
  let s1 : state (list pystr) := mkState made [] [] in
  let s2 : state pystr := mkState made [] [] in
  (In (lit "/dirA/x.txt") (locals (fst (copy_entry (lit "/dirA") s1)))
   /\ file_at (fs (fst (copy_entry (lit "/dirA") s1)))
        (output_components ++ [lit "x.txt.txt"]) = true)
  /\ exists before text after,
       locals (fst (combine_entry unbuffered (lit "/dirA") s2))
       = before ++ file_block (lit "dirA/x.txt") text ++ after.
Proof.
  intros made s1 s2.
  assert (A0 : resolve (join base_dir (lstrip_slash (lit "/dirA")))
               = Some (base_components ++ [lit "dirA"])) by by_running.
  destruct (directory_entry_exports_all unbuffered (lit "/dirA") [lit "dirA"] A0) as [Ha Hb].
  assert (Hw : well_formed made = true) by by_running.
  assert (N : [lit "x.txt"] <> []) by discriminate.
  assert (F1 : file_at made (base_components ++ [lit "dirA"] ++ [lit "x.txt"]) = true)
    by by_running.
  assert (R1 : copy_entry (lit "/dirA") s1 = (fst (copy_entry (lit "/dirA") s1), Ok tt))
    by by_running.
  assert (R2 : combine_entry unbuffered (lit "/dirA") s2
               = (fst (combine_entry unbuffered (lit "/dirA") s2), Ok tt)) by by_running.
  split.
  - exact (Ha s1 _ [lit "x.txt"] Hw N F1 R1).
  - exact (Hb s2 _ [lit "x.txt"] Hw N F1 R2).
Defined.

(** A file named [txtexport_flattened] in the base directory. *)
Lemma output_dir_occupied_example :
  txtexport latin1 occupied_project = (mkState occupied_project [] [], Raise FileExistsError)
  /\ txtexport_onefile latin1 unbuffered occupied_project
     = (mkState occupied_project [] [], Raise FileExistsError).
Proof.
  assert (A : lookup occupied_project output_components = Some (File true [])) by by_running.
  exact (output_dir_occupied latin1 unbuffered occupied_project true [] A).
Defined.

(** Directories named as the index and as the combined file: [fileB.py] is
    copied all the same. *)
Lemma output_file_occupied_example :
  let run := txtexport latin1 blocked_project in
  txtexport_onefile latin1 unbuffered blocked_project
  = (mkState blocked_project [] [], Raise PermissionError)
  /\ snd run = Raise PermissionError
  /\ stdout (fst run) = [copied_line (join base_dir (lit "fileB.py"))]
  /\ locals (fst run) = [lit "fileB.py"]
  /\ node_at (fs (fst run)) (join output_dir (lit "fileB.py.txt"))
     = Some (File true (bytes_of (lit "print(1)"))).
Proof.
  intro run. set (b := [lit "fileB.py"]).
  assert (A1 : well_formed blocked_project = true) by by_running.
  assert (A2 : make_dirs blocked_project output_components = inl blocked_project)
    by by_running.
  assert (A3 : manifest_entries latin1 blocked_project = Some b) by by_running.
  assert (A4 : isdir blocked_project output_file = true) by by_running.
  assert (A5 : forallb outside b = true) by by_running.
  assert (A6 : forallb (item_exportable blocked_project (output_entries blocked_project))
                 (flat_map (resolved_files blocked_project) b) = true) by by_running.
  assert (A7 : is_dir_entry index_name (output_entries blocked_project) = true)
    by by_running.
  destruct (output_file_occupied latin1 unbuffered _ _ _ A1 A2 A3) as [Ha Hb].
  split; [exact (Ha A4)|].
  pose proof (Hb A5 A6 A7) as E. unfold run. rewrite E.
  repeat split; by_running.
Defined.

(** The entry [/] on the project a run of [txtexport.py] has left: the index
    and [dirA/x.txt] are recorded, the copy [x.txt.txt] is read into a block,
    the copy of [dirA/x.txt] holds its bytes and its block its text. *)
Lemma slash_entry_exports_base_example :
  let s1 : state (list pystr) := mkState project_exported [] [] in
  let s2 : state pystr := mkState project_exported [] [] in
  let s3 : state pystr := mkState (opened project_exported) [] [] in
  In (lit "/txtexport_flattened/project_file_system.txt")
     (locals (fst (copy_entry (lit "/") s1)))
  /\ In (lit "/dirA/x.txt") (locals (fst (copy_entry (lit "/") s1)))
  /\ (exists before text after,
        locals (fst (combine_entry unbuffered (lit "/") s2))
        = before ++ file_block (lit "txtexport_flattened/x.txt.txt") text ++ after)
  /\ (exists s r,
        steps copy_walked s1 s /\ steps copy_walked s (fst (copy_entry (lit "/") s1))
        /\ lookup (fs s) (output_components ++ [lit "x.txt.txt"])
           = Some (File r (bytes_of (lit "hello"))))
  /\ (exists before after,
        locals (fst (combine_entry unbuffered (lit "/") s3))
        = before ++ file_block (lit "dirA/x.txt") (lit "hello") ++ after).
Proof.
  intros s1 s2 s3.
  assert (A0 : all_slashes (lit "/") = true) by reflexivity.
  destruct (slash_entry_exports_base unbuffered (lit "/") A0) as (_ & _ & Ha & Hb & Hc & Hd).
  assert (Hw : well_formed project_exported = true) by by_running.
  assert (Hw3 : well_formed (opened project_exported) = true) by by_running.
  assert (R1 : copy_entry (lit "/") s1 = (fst (copy_entry (lit "/") s1), Ok tt))
    by by_running.
  assert (R2 : combine_entry unbuffered (lit "/") s2
               = (fst (combine_entry unbuffered (lit "/") s2), Ok tt)) by by_running.
  assert (R3 : combine_entry unbuffered (lit "/") s3
               = (fst (combine_entry unbuffered (lit "/") s3), Ok tt)) by by_running.
  assert (N : forall a b : pystr, [a; b] <> []) by discriminate.
  split; [|split; [|split; [|split]]].
  - assert (F1 : file_at project_exported
                   (base_components ++ [lit "txtexport_flattened";
                                        lit "project_file_system.txt"]) = true)
      by by_running.
    destruct (Ha s1 _ [lit "txtexport_flattened"; lit "project_file_system.txt"]
                Hw (N _ _) F1 R1) as [H _]. exact H.
  - assert (F2 : file_at project_exported (base_components ++ [lit "dirA"; lit "x.txt"]) = true)
      by by_running.
    destruct (Ha s1 _ [lit "dirA"; lit "x.txt"] Hw (N _ _) F2 R1) as [H _]. exact H.
  - assert (F3 : file_at project_exported
                   (base_components ++ [lit "txtexport_flattened"; lit "x.txt.txt"]) = true)
      by by_running.
    exact (Hb s2 _ [lit "txtexport_flattened"; lit "x.txt.txt"] Hw (N _ _) F3 R2).
  - assert (F4 : lookup project_exported (base_components ++ [lit "dirA"; lit "x.txt"])
                 = Some (File true (bytes_of (lit "hello")))) by by_running.
    assert (F5 : off_output (base_components ++ [lit "dirA"; lit "x.txt"]) = true)
      by by_running.
    assert (F6 : isdir project_exported output_dir = true) by by_running.
    destruct (Hc s1 _ [lit "dirA"; lit "x.txt"] true _ Hw (N _ _) F4 F5 F6 R1)
      as (s & r & H1 & H2 & H3).
    exists s, r. split; [exact H1|]. split; [exact H2|]. exact H3.
  - assert (F7 : lookup (opened project_exported) (base_components ++ [lit "dirA"; lit "x.txt"])
                 = Some (File true (bytes_of (lit "hello")))) by by_running.
    assert (F8 : comps_eqb (base_components ++ [lit "dirA"; lit "x.txt"]) combined_components
                 = false) by by_running.
    assert (F9 : isfile (opened project_exported) output_file = true) by by_running.
    assert (F10 : base_components ++ [lit "dirA"; lit "x.txt"] <> combined_components).
    { intro E. apply comps_eqb_eq in E. rewrite E in F8. discriminate. }
    destruct (Hd s3 _ [lit "dirA"; lit "x.txt"] true _ Hw3 (N _ _) F7 F10 F9 R3)
      as (a & b & E).
    exists a, b. rewrite E. reflexivity.
Defined.
